(** * noble-cctp-relayer: a shallow embedding of the relayer core

    The development follows the layout of the repository:

    - [golang]    the few pieces of Go semantics the code relies on
                  (string slicing with its bounds check, [hex.EncodeToString],
                  [strconv.ParseInt], unsigned 64-bit arithmetic);
    - [types]     the data model shared by the packages (MessageState, TxState, ...);
    - [noble]     [noble/message_state.go]  ([txToMessageState]);
    - [ethereum]  [ethereum/listener.go]    (history back-fill and stream consumption);
    - [cmd]       [cmd/process.go]          (filters, the processor pass, the lookup API);
    - [fixtures]  executable versions of the libraries the sources call
                  (Keccak-256, base64, the CCTP header) and concrete inputs.

    The libraries the sources call are parameters of the embedding: the
    statements hold for every implementation of them. Definitions come
    first; the statements about them follow in the second half of the file. *)

From Stdlib Require Import ZArith NArith List String Ascii Bool Lia.
From Stdlib Require Import Strings.Byte.
From stdpp Require Import base option list gmap strings.

(* ===================================================================== *)
(** * Go semantics used by the sources                                     *)
(* ===================================================================== *)

Module golang.

(** A Go call either returns or panics (run-time error). *)
Inductive Result (A : Type) : Type :=
| Returned (a : A)
| Panicked.
Arguments Returned {A} a.
Arguments Panicked {A}.

Definition bindR {A B} (r : Result A) (k : A -> Result B) : Result B :=
  match r with
  | Returned a => k a
  | Panicked => Panicked
  end.

(** [s[lo:hi]] on a string: Go panics unless [0 <= lo <= hi <= len(s)]. *)
Definition slice (s : string) (lo hi : Z) : Result string :=
  if ((0 <=? lo)%Z && (lo <=? hi)%Z && (hi <=? Z.of_nat (String.length s))%Z)%bool
  then Returned (String.substring (Z.to_nat lo) (Z.to_nat (hi - lo)) s)
  else Panicked.

(** [encoding/hex]: [EncodeToString] uses the lower-case table. *)
Definition hextable : string := "0123456789abcdef".

Definition hexdigit (n : N) : ascii :=
  match String.get (N.to_nat n) hextable with
  | Some c => c
  | None => "0"%char
  end.

Fixpoint EncodeToString (src : list byte) : string :=
  match src with
  | [] => EmptyString
  | b :: rest =>
      String (hexdigit (Byte.to_N b / 16))
        (String (hexdigit (Byte.to_N b mod 16)) (EncodeToString rest))
  end.

Definition is_lower_hexdigit (c : ascii) : bool :=
  existsb (Ascii.eqb c) (list_ascii_of_string hextable).

Definition lower_hex (s : string) : bool :=
  forallb is_lower_hexdigit (list_ascii_of_string s).

(** [strconv.ParseInt(s, 10, 0)]: the value and whether the error is
    non-nil. A syntax error yields 0, a range error the nearest bound. *)
Definition digit_of (c : ascii) : option Z :=
  let n := Z.of_nat (nat_of_ascii c) in
  if ((48 <=? n) && (n <=? 57))%Z%bool then Some (n - 48)%Z else None.

Fixpoint parse_digits (s : string) (acc : Z) : option Z :=
  match s with
  | EmptyString => Some acc
  | String c rest =>
      match digit_of c with
      | Some d => parse_digits rest (acc * 10 + d)%Z
      | None => None
      end
  end.

Definition ParseInt (s : string) : Z * bool :=
  let '(neg, digits) :=
    match s with
    | String "-"%char rest => (true, rest)
    | String "+"%char rest => (false, rest)
    | _ => (false, s)
    end in
  match digits with
  | EmptyString => (0%Z, true)
  | _ =>
      match parse_digits digits 0 with
      | None => (0%Z, true)
      | Some n =>
          if neg
          then (if (n <=? 2 ^ 63)%Z then ((- n)%Z, false) else ((- 2 ^ 63)%Z, true))
          else (if (n <? 2 ^ 63)%Z then (n, false) else ((2 ^ 63 - 1)%Z, true))
      end
  end.

(** Unsigned 64-bit arithmetic wraps around. *)
Definition u64 : Z := 2 ^ 64.
Definition wrap64 (z : Z) : Z := z mod u64.
Definition add64 (a b : Z) : Z := wrap64 (a + b).
Definition sub64 (a b : Z) : Z := wrap64 (a - b).

(** [int64(x)] for [x : uint64]: reinterpretation of the same 64 bits. *)
Definition int64_of_uint64 (x : Z) : Z :=
  if (x <? 2 ^ 63)%Z then x else (x - u64)%Z.

(** [types.Domain(x)] for [x : int64]: the low 32 bits. *)
Definition uint32_of_int64 (x : Z) : N := Z.to_N (x mod 2 ^ 32).

End golang.

(* ===================================================================== *)
(** * Package types (data model)                                           *)
(* ===================================================================== *)

Module types.

(** Modelled from the spec: the declarations of package [types] are not among
    the sources; the data model follows section 3 of the specification and the
    fields the sources read and write. *)
Definition Domain : Type := N.

Definition Time : Type := Z.

Inductive Status : Type :=
| Created
| Pending
| Filtered
| Attested
| Complete.

Definition Status_eqb (a b : Status) : bool :=
  match a, b with
  | Created, Created | Pending, Pending | Filtered, Filtered
  | Attested, Attested | Complete, Complete => true
  | _, _ => false
  end.

(** The parsed CCTP message ([types.Message]), as far as the sources read it. *)
Record Message : Type := mkMessage {
  msg_SourceDomain : N;
  msg_DestinationDomain : N;
  msg_Nonce : N;
  msg_DestinationCaller : list byte
}.

Record MessageState : Type := mkMessageState {
  IrisLookupId : string;
  status : Status;
  Attestation : string;
  SourceDomain : Domain;
  DestDomain : Domain;
  SourceTxHash : string;
  MsgSentBytes : list byte;
  DestinationCaller : list byte;
  Nonce : N;
  CreatedAt : Time;
  Updated : Time
}.

Definition set_status (s : Status) (m : MessageState) : MessageState :=
  mkMessageState (IrisLookupId m) s (Attestation m) (SourceDomain m) (DestDomain m)
    (SourceTxHash m) (MsgSentBytes m) (DestinationCaller m) (Nonce m)
    (CreatedAt m) (Updated m).

Definition set_Attestation (a : string) (m : MessageState) : MessageState :=
  mkMessageState (IrisLookupId m) (status m) a (SourceDomain m) (DestDomain m)
    (SourceTxHash m) (MsgSentBytes m) (DestinationCaller m) (Nonce m)
    (CreatedAt m) (Updated m).

Definition set_Updated (t : Time) (m : MessageState) : MessageState :=
  mkMessageState (IrisLookupId m) (status m) (Attestation m) (SourceDomain m) (DestDomain m)
    (SourceTxHash m) (MsgSentBytes m) (DestinationCaller m) (Nonce m)
    (CreatedAt m) t.

(** Two states of one message: everything but the status, the attestation
    and the time stamps agrees. *)
Definition same_message (m m' : MessageState) : Prop :=
  IrisLookupId m' = IrisLookupId m
  /\ SourceDomain m' = SourceDomain m
  /\ DestDomain m' = DestDomain m
  /\ SourceTxHash m' = SourceTxHash m
  /\ MsgSentBytes m' = MsgSentBytes m
  /\ DestinationCaller m' = DestinationCaller m
  /\ Nonce m' = Nonce m.

(** [TxState]: a source transaction hash and the messages parsed from it. *)
Record TxState : Type := mkTxState {
  TxHash : string;
  Msgs : list MessageState
}.

(** [circle.AttestationResponse]. *)
Record AttestationResponse : Type := mkAttestationResponse {
  resp_Attestation : string;
  resp_Status : string
}.

End types.

(* ===================================================================== *)
(** * noble/message_state.go                                               *)
(* ===================================================================== *)

Module noble.
Import golang types.

(** CometBFT's [abci.EventAttribute], [abci.Event], [abci.ExecTxResult] and
    [ctypes.ResultTx], restricted to the fields [txToMessageState] reads. *)
Record EventAttribute : Type := mkEventAttribute {
  Key : string;
  Value : string
}.

Record Event : Type := mkEvent {
  Type_ : string;
  Attributes : list EventAttribute
}.

Record ExecTxResult : Type := mkExecTxResult {
  Code : N;
  Events : list Event
}.

Record ResultTx : Type := mkResultTx {
  Hash : list byte;
  TxResult : ExecTxResult
}.

(** The two wrapped errors joined into [parseErrs]. *)
Inductive ParseError : Type :=
| FailedToDecode
| FailedToParse.

(** The error returned by line 70: the tx hash and the joined [parseErrs]. *)
Record TxError : Type := mkTxError {
  err_txhash : list byte;
  err_joined : list ParseError
}.

(** Local variables of the loop over the attributes of one event. *)
Record AttrLoop : Type := mkAttrLoop {
  messageStates : list MessageState;
  parsed : bool;
  parseErrs : list ParseError
}.

(** Line 31: [attr.Value[1 : len(attr.Value)-1]], which drops the quotes
    around the base64 text. *)
Definition strip_quotes (v : string) : Result string :=
  slice v 1 (Z.of_nat (String.length v) - 1).

Section txToMessageState.

(** External collaborators: [base64.StdEncoding.DecodeString],
    [crypto.Keccak256], [types.Message.Parse], [HexBytes.String] and the
    reading of [time.Now()]. *)
Variable DecodeString : string -> option (list byte).
Variable Keccak256 : list byte -> list byte.
Variable Parse : list byte -> option Message.
Variable HashString : list byte -> string.
Variable now : Time.

(** Lines 49-62: the message state built from the decoded bytes and the
    parsed header. *)
Definition new_MessageState (tx : ResultTx) (rawMessageSentBytes : list byte)
    (msg : Message) : MessageState :=
  let hashed := Keccak256 rawMessageSentBytes in
  let hashedHexStr := EncodeToString hashed in
  mkMessageState hashedHexStr Created EmptyString
    (msg_SourceDomain msg) (msg_DestinationDomain msg)
    (HashString (Hash tx)) rawMessageSentBytes
    (msg_DestinationCaller msg) (msg_Nonce msg) now now.

(** Lines 29-67: the body of the loop over [event.Attributes]. *)
Definition attr_step (tx : ResultTx) (st : AttrLoop) (attr : EventAttribute)
  : Result AttrLoop :=
  if String.eqb (Key attr) "message" then
    bindR (strip_quotes (Value attr))
      (fun encoded =>
         match DecodeString encoded with
         | None =>
             Returned (mkAttrLoop (messageStates st) (parsed st)
                         (parseErrs st ++ [FailedToDecode]))
         | Some rawMessageSentBytes =>
             match Parse rawMessageSentBytes with
             | None =>
                 Returned (mkAttrLoop (messageStates st) (parsed st)
                             (parseErrs st ++ [FailedToParse]))
             | Some msg =>
                 let messageState := new_MessageState tx rawMessageSentBytes msg in
                 Returned (mkAttrLoop (messageStates st ++ [messageState]) true
                             (parseErrs st))
             end
         end)
  else Returned st.

Fixpoint attr_loop (tx : ResultTx) (attrs : list EventAttribute) (st : AttrLoop)
  : Result AttrLoop :=
  match attrs with
  | [] => Returned st
  | attr :: rest => bindR (attr_step tx st attr) (attr_loop tx rest)
  end.

(** Lines 23-73: the loop over [tx.TxResult.Events]; [acc] is [messageStates]. *)
Fixpoint event_loop (tx : ResultTx) (events : list Event) (acc : list MessageState)
  : Result (list MessageState * option TxError) :=
  match events with
  | [] => Returned (acc, None)
  | event :: rest =>
      if String.eqb (Type_ event) "circle.cctp.v1.MessageSent" then
        bindR (attr_loop tx (Attributes event) (mkAttrLoop acc false []))
          (fun st =>
             if negb (parsed st)
             then Returned ([], Some (mkTxError (Hash tx) (parseErrs st)))
             else event_loop tx rest (messageStates st))
      else event_loop tx rest acc
  end.

Definition txToMessageState (tx : ResultTx)
  : Result (list MessageState * option TxError) :=
  if negb (N.eqb (Code (TxResult tx)) 0) then Returned ([], None)
  else event_loop tx (Events (TxResult tx)) [].

(** The message state a single attribute contributes: none unless it is a
    "message" attribute that decodes and parses. *)
Definition attr_state (tx : ResultTx) (attr : EventAttribute) : option MessageState :=
  if String.eqb (Key attr) "message" then
    match strip_quotes (Value attr) with
    | Returned encoded =>
        match DecodeString encoded with
        | Some raw => new_MessageState tx raw <$> Parse raw
        | None => None
        end
    | Panicked => None
    end
  else None.

Definition is_MessageSent (event : Event) : bool :=
  String.eqb (Type_ event) "circle.cctp.v1.MessageSent".

(** The message states of the attributes of one event that parse. *)
Definition event_states (tx : ResultTx) (event : Event) : list MessageState :=
  if is_MessageSent event then omap (attr_state tx) (Attributes event) else [].

(** A MessageSent event none of whose attributes parses. *)
Definition event_unparsed (tx : ResultTx) (event : Event) : Prop :=
  is_MessageSent event = true /\ event_states tx event = [].

(** What [txToMessageState] establishes for a message state it builds from
    an event satisfying [P]. *)
Definition built_from (P : Event -> Prop) (tx : ResultTx) (ms : MessageState) : Prop :=
  IrisLookupId ms = EncodeToString (Keccak256 (MsgSentBytes ms))
  /\ SourceTxHash ms = HashString (Hash tx)
  /\ status ms = Created
  /\ exists event attr encoded,
       P event
       /\ Type_ event = "circle.cctp.v1.MessageSent"%string
       /\ attr ∈ Attributes event
       /\ Key attr = "message"%string
       /\ strip_quotes (Value attr) = Returned encoded
       /\ DecodeString encoded = Some (MsgSentBytes ms).

End txToMessageState.

(** Every "message" attribute of every MessageSent event is long enough for
    the quote-stripping slice. *)
Definition attrs_sliceable (attrs : list EventAttribute) : Prop :=
  forall attr, attr ∈ attrs -> Key attr = "message"%string -> 2 <= String.length (Value attr).

Definition message_values_sliceable (tx : ResultTx) : Prop :=
  forall event, event ∈ Events (TxResult tx) ->
    Type_ event = "circle.cctp.v1.MessageSent"%string ->
    attrs_sliceable (Attributes event).

End noble.

(* ===================================================================== *)
(** * ethereum/listener.go                                                 *)
(* ===================================================================== *)

Module ethereum.
Import golang types.

(** [ethtypes.Log], restricted to what the listener reads. *)
Record Log : Type := mkLog {
  log_TxHash : string;
  log_BlockNumber : Z;
  log_Data : list byte
}.

(** [ethereum.FilterQuery]: the address and topic are the same in every query
    of the listener; the block bounds are [big.NewInt(int64(...))]. *)
Record FilterQuery : Type := mkFilterQuery {
  FromBlock : Z;
  ToBlock : Z
}.

(** What a listener routine does to the outside: history queries, sends on
    [processingQueue] and log lines. *)
Inductive Effect : Type :=
| Query (q : FilterQuery)
| Send (tx : TxState)
| LogErrorSkipping (txhash : string)
| LogInfoNewMsg (m : MessageState)
| LogDebugChunk (chunk totalChunksNeeded fromBlock toBlock : Z).

Definition sent (effs : list Effect) : list TxState :=
  omap (fun e => match e with Send tx => Some tx | _ => None end) effs.

Definition queries (effs : list Effect) : list FilterQuery :=
  omap (fun e => match e with Query q => Some q | _ => None end) effs.

Definition skipped (effs : list Effect) : list string :=
  omap (fun e => match e with LogErrorSkipping h => Some h | _ => None end) effs.

(** Outcome of one evaluation of the [select] of [consumeStream]. *)
Inductive Select : Type :=
| CtxDone
| SigReady
| StreamLog (streamLog : Log)
| Default.

Section listener.

(** [types.EvmLogToMessageState] (package [types], not among the sources);
    [None] stands for a non-nil error. *)
Variable EvmLogToMessageState : Log -> option MessageState.

(** [QueryWithHistory] inside its retry loop: the history of the query that
    eventually succeeds. *)
Variable QueryWithHistory : FilterQuery -> list Log.

(** Lines 205-219. *)
Fixpoint consumeHistroy (history : list Log) : list Effect :=
  match history with
  | [] => []
  | historicalLog :: rest =>
      match EvmLogToMessageState historicalLog with
      | None => LogErrorSkipping (log_TxHash historicalLog) :: consumeHistroy rest
      | Some parsedMsg =>
          LogInfoNewMsg parsedMsg
            :: Send (mkTxState (SourceTxHash parsedMsg) [parsedMsg])
            :: consumeHistroy rest
      end
  end.

(** Lines 223-261; [sched] lists the outcomes of the successive [select]s and
    [txState] is the local variable ([None] for nil). *)
Fixpoint consumeStream (sched : list Select) (txState : option TxState) : list Effect :=
  match sched with
  | [] => []
  | CtxDone :: _ => []
  | SigReady :: _ => []
  | StreamLog streamLog :: rest =>
      match EvmLogToMessageState streamLog with
      | None => LogErrorSkipping (log_TxHash streamLog) :: consumeStream rest txState
      | Some parsedMsg =>
          LogInfoNewMsg parsedMsg ::
          match txState with
          | None =>
              consumeStream rest (Some (mkTxState (SourceTxHash parsedMsg) [parsedMsg]))
          | Some ts =>
              if negb (String.eqb (SourceTxHash parsedMsg) (TxHash ts)) then
                Send ts
                  :: consumeStream rest
                       (Some (mkTxState (SourceTxHash parsedMsg) [parsedMsg]))
              else
                consumeStream rest (Some (mkTxState (TxHash ts) (Msgs ts ++ [parsedMsg])))
          end
      end
  | Default :: rest =>
      match txState with
      | Some ts => Send ts :: consumeStream rest None
      | None => consumeStream rest None
      end
  end.

Definition chunkSize : Z := 100.

(** Lines 162-165. *)
Definition totalChunksNeeded (start end_ : Z) : Z :=
  let total := (sub64 end_ start / chunkSize)%Z in
  if ((0 <? sub64 end_ start mod chunkSize)%Z || (total =? 0)%Z)%bool
  then add64 total 1 else total.

(** Lines 167-200: the loop [for start < end]. [total] is the value of
    [totalChunksNeeded], computed before the loop. The loop need not
    terminate when [start + chunkSize] wraps around, hence the fuel;
    [None] means the fuel ran out. *)
Fixpoint history_loop (fuel : nat) (total chunk start end_ : Z) : option (list Effect) :=
  if negb (start <? end_)%Z then Some []
  else
    match fuel with
    | O => None
    | S fuel' =>
        let fromBlock := start in
        let toBlock := add64 start chunkSize in
        let toBlock := if (toBlock >? end_)%Z then end_ else toBlock in
        let query := mkFilterQuery (int64_of_uint64 fromBlock) (int64_of_uint64 toBlock) in
        let history := QueryWithHistory query in
        match history_loop fuel' total (chunk + 1)%Z (add64 start chunkSize) end_ with
        | None => None
        | Some later =>
            Some (LogDebugChunk chunk total fromBlock toBlock
                    :: Query query :: consumeHistroy history ++ later)
        end
    end.

(** Lines 150-201. *)
Definition getAndConsumeHistory (fuel : nat) (start end_ : Z) : option (list Effect) :=
  history_loop fuel (totalChunksNeeded start end_) 1 start end_.

(** Lines 81-86 of [startListenerRoutines]. *)
Definition startLookback (startBlock lookbackPeriod latestBlock : Z) : Z :=
  let start := if negb (startBlock =? 0)%Z then startBlock else latestBlock in
  sub64 start lookbackPeriod.

(** Lines 81-88: the initial back-fill of [startListenerRoutines]. *)
Definition initialBackfill (fuel : nat) (startBlock lookbackPeriod latestBlock : Z)
  : option (list Effect) :=
  getAndConsumeHistory fuel (startLookback startBlock lookbackPeriod latestBlock) latestBlock.

(** The fields of [Ethereum] the listener routines read and write. *)
Record Listener : Type := mkListener {
  startBlock : Z;
  lookbackPeriod : Z;
  lastFlushedBlock : Z
}.

(** Lines 81-88 on the fields of [e]. *)
Definition backfill (fuel : nat) (e : Listener) (latestBlock : Z) : option (list Effect) :=
  initialBackfill fuel (startBlock e) (lookbackPeriod e) latestBlock.

(** Lines 273-285: the timer branch of [flushMechanism]; [latestBlock] is
    the reading of [e.LatestBlock()]. *)
Definition flush (fuel : nat) (e : Listener) (latestBlock : Z)
  : option (list Effect * Listener) :=
  let lastFlushed :=
    if (lastFlushedBlock e =? 0)%Z then latestBlock else lastFlushedBlock e in
  let start := sub64 lastFlushed (lookbackPeriod e) in
  match getAndConsumeHistory fuel start latestBlock with
  | None => None
  | Some effs => Some (effs, mkListener (startBlock e) (lookbackPeriod e) latestBlock)
  end.

(** Lines 100-108: after a websocket error the listener starts again with
    [e.startBlock = e.lastFlushedBlock]. *)
Definition restart (e : Listener) : Listener :=
  mkListener (lastFlushedBlock e) (lookbackPeriod e) (lastFlushedBlock e).

End listener.

(** The logs a schedule of [select] outcomes delivers, in order. *)
Definition stream_logs (sched : list Select) : list Log :=
  omap (fun s => match s with StreamLog l => Some l | _ => None end) sched.

Definition is_stop (s : Select) : bool :=
  match s with CtxDone | SigReady => true | _ => false end.

(** A transaction state is well formed when it holds at least one message
    and every message carries the hash of the transaction. *)
Definition well_formed (tx : TxState) : Prop :=
  Msgs tx <> [] /\ Forall (fun m => SourceTxHash m = TxHash tx) (Msgs tx).

(** [n] successive chunks from [start]: each runs to [chunkSize] blocks
    later or to [end_], and the next one starts where it ends at the
    latest. *)
Fixpoint chunk_queries (n : nat) (start end_ : Z) : list FilterQuery :=
  match n with
  | O => []
  | S n' =>
      mkFilterQuery start (Z.min (start + chunkSize) end_)
        :: chunk_queries n' (start + chunkSize) end_
  end.

(** A block is covered by a list of queries when one of them includes it
    (the bounds of a filter query are inclusive). *)
Definition covered (qs : list FilterQuery) (b : Z) : Prop :=
  exists q, q ∈ qs /\ (FromBlock q <= b <= ToBlock q)%Z.

(** A query of the back-fill of [start, end_]: it starts a whole number of
    chunks after [start], below [end_], and ends one chunk later or at
    [end_], whichever comes first. *)
Definition chunk_ok (start end_ : Z) (q : FilterQuery) : Prop :=
  (start <= FromBlock q < end_
   /\ ToBlock q = Z.min (FromBlock q + chunkSize) end_
   /\ (FromBlock q - start) mod chunkSize = 0)%Z.

End ethereum.

(* ===================================================================== *)
(** * cmd/process.go                                                       *)
(* ===================================================================== *)

Module cmd.
Import golang types.

(** The part of [types.Config] the processor reads. *)
Record Config : Type := mkConfig {
  EnabledRoutes : gmap Domain (list Domain);
  AttestationBaseUrl : string
}.

(** The outside world of a processor worker: the attestation service
    ([circle.CheckAttestation]), the clock ([time.Now]) and the passing of
    time during [time.Sleep(10 * time.Second)]. [W] is the state of that
    world; it also holds the sequence map handed to the broadcasters. *)
Class External (W : Type) : Type := mkExternal {
  CheckAttestation :
    string -> string -> string -> Domain -> Domain -> W -> option AttestationResponse * W;
  Now : W -> Time;
  Sleep : W -> W
}.

(** The methods of the [types.Chain] interface the processor calls.
    [Broadcast] returns [Some err] for a non-nil error; it reads the
    messages it is handed. *)
Record Chain (W : Type) : Type := mkChain {
  Name : string;
  IsDestinationCaller : list byte -> bool;
  Broadcast : list MessageState -> W -> option string * W
}.
Arguments Name {W} _.
Arguments IsDestinationCaller {W} _ _.
Arguments Broadcast {W} _ _ _.

(** Calls that leave the worker. *)
Inductive Event : Type :=
| EvCheckAttestation (irisLookupId sourceTxHash : string) (sourceDomain destDomain : Domain)
| EvSleep
| EvBroadcast (domain : Domain) (msgs : list MessageState).

Definition is_attestation_call (e : Event) : bool :=
  match e with EvCheckAttestation _ _ _ _ => true | _ => false end.

Definition is_broadcast_call (e : Event) : bool :=
  match e with EvBroadcast _ _ => true | _ => false end.

(** Lines 216-219. *)
Definition LookupKey (sourceTxHash : string) : string := sourceTxHash.

(** Lines 180-193 on the two domains the function reads from [msg]: true
    when the source domain has no entry in [cfg.EnabledRoutes], or when no
    element of its entry equals the destination domain. *)
Definition route_disabled (cfg : Config) (sourceDomain destDomain : Domain) : bool :=
  match EnabledRoutes cfg !! sourceDomain with
  | None => true
  | Some val => negb (existsb (fun dd => N.eqb dd destDomain) val)
  end.

(** Lines 179-195. *)
Definition FilterDisabledCCTPRoutes (cfg : Config) (msg : MessageState) : bool :=
  route_disabled cfg (SourceDomain msg) (DestDomain msg).

(** Lines 198-214. *)
Definition filterInvalidDestinationCallers {W} (registeredDomains : gmap Domain (Chain W))
    (msg : MessageState) : bool :=
  match registeredDomains !! DestDomain msg with
  | None => true
  | Some chain =>
      let validCaller := IsDestinationCaller chain (DestinationCaller msg) in
      if validCaller then false else true
  end.

(** Lines 106-107: the condition under which the message is marked Filtered. *)
Definition filter_met {W} (cfg : Config) (registeredDomains : gmap Domain (Chain W))
    (msg : MessageState) : bool :=
  (FilterDisabledCCTPRoutes cfg msg
   || filterInvalidDestinationCallers registeredDomains msg)%bool.

(** No call of the attestation service in the trace is for a route that
    [cfg] leaves disabled. *)
Definition attestation_calls_enabled (cfg : Config) (trace : list Event) : Prop :=
  Forall (fun e =>
            match e with
            | EvCheckAttestation _ _ sourceDomain destDomain =>
                route_disabled cfg sourceDomain destDomain = false
            | _ => True
            end) trace.

(** Every stored message that satisfies [Q] has status Filtered. *)
Definition settled_as_Filtered (Q : MessageState -> bool) (store : gmap string TxState)
  : Prop :=
  forall key tx m,
    store !! key = Some tx -> m ∈ Msgs tx -> Q m = true -> status m = Filtered.

(** The condition of the route filter in the words of the specification,
    to be compared with [route_disabled]: the route is not in
    [EnabledRoutes] when the source domain has no entry there, or when its
    entry does not list the destination domain. *)
Definition route_not_in_EnabledRoutes (cfg : Config) (sourceDomain destDomain : Domain)
  : Prop :=
  EnabledRoutes cfg !! sourceDomain = None
  \/ exists val, EnabledRoutes cfg !! sourceDomain = Some val /\ destDomain ∉ val.

(** Every stored message whose route is not in [EnabledRoutes] has status
    Filtered. *)
Definition disabled_routes_Filtered (cfg : Config) (store : gmap string TxState) : Prop :=
  forall key tx m,
    store !! key = Some tx -> m ∈ Msgs tx ->
    route_not_in_EnabledRoutes cfg (SourceDomain m) (DestDomain m) ->
    status m = Filtered.

(** The trace holds no call of the attestation service for a route that is
    not in [EnabledRoutes]. *)
Definition no_attestation_call_off_route (cfg : Config) (trace : list Event) : Prop :=
  forall irisLookupId sourceTxHash sourceDomain destDomain,
    EvCheckAttestation irisLookupId sourceTxHash sourceDomain destDomain ∈ trace ->
    ~ route_not_in_EnabledRoutes cfg sourceDomain destDomain.

(** The destination domain of the message has no registered chain. *)
Definition unregistered_destination {W} (registeredDomains : gmap Domain (Chain W))
    (msg : MessageState) : bool :=
  bool_decide (registeredDomains !! DestDomain msg = None).

(** What the attest step (lines 116-147) decides for one message: the
    message as it leaves the step, whether the worker sleeps 10 s, whether
    [requeue] is set, and whether the message is appended to
    [broadcastMsgs[msg.DestDomain]]. *)
Record AttestOutcome : Type := mkAttestOutcome {
  out_msg : MessageState;
  out_sleep : bool;
  out_requeue : bool;
  out_broadcast : bool
}.

(** Lines 116-147, given the response of [CheckAttestation] and the reading
    [now] of the clock. *)
Definition attest_step (now : Time) (msg : MessageState)
    (response : option AttestationResponse) : AttestOutcome :=
  match response with
  | Some response =>
      if (Status_eqb (status msg) Created
          && String.eqb (resp_Status response) "pending_confirmations")%bool
      then mkAttestOutcome (set_Updated now (set_status Pending msg)) true true false
      else if String.eqb (resp_Status response) "pending_confirmations"
      then mkAttestOutcome msg true true false
      else if String.eqb (resp_Status response) "complete"
      then mkAttestOutcome
             (set_Updated now
                (set_Attestation (resp_Attestation response) (set_status Attested msg)))
             false false true
      else mkAttestOutcome msg false false false
  | None => mkAttestOutcome msg true true false
  end.

Section processor.

Context {W : Type} {ext : External W}.

(** Local variables of one pass of the worker loop (lines 101-174);
    [tx_msgs] is the slice [tx.Msgs], whose elements the pass mutates in
    place, and [broadcastMsgs] refers to them by their index in it. *)
Record Pass : Type := mkPass {
  tx_msgs : list MessageState;
  broadcastMsgs : gmap Domain (list nat);
  requeue : bool;
  pass_world : W;
  pass_trace : list Event
}.

Variable cfg : Config.
Variable registeredDomains : gmap Domain (Chain W).

(** Go leaves the order of [range] over a map unspecified: [range_order]
    is the order in which the pass visits the entries of [broadcastMsgs]. *)
Variable range_order : list (Domain * list nat) -> list (Domain * list nat).

(** Lines 105-148: the body of the loop over [tx.Msgs], for the message at
    index [i]. *)
Definition msg_step (st : Pass) (i : nat) : Pass :=
  match tx_msgs st !! i with
  | None => st
  | Some msg0 =>
      let msg :=
        if filter_met cfg registeredDomains msg0
        then set_status Filtered msg0 else msg0 in
      if (Status_eqb (status msg) Created || Status_eqb (status msg) Pending)%bool then
        let '(response, w) :=
          CheckAttestation (AttestationBaseUrl cfg) (IrisLookupId msg) (SourceTxHash msg)
            (SourceDomain msg) (DestDomain msg) (pass_world st) in
        let out := attest_step (Now w) msg response in
        mkPass (<[i := out_msg out]> (tx_msgs st))
          (if out_broadcast out
           then <[DestDomain msg := default [] (broadcastMsgs st !! DestDomain msg) ++ [i]]>
                  (broadcastMsgs st)
           else broadcastMsgs st)
          (requeue st || out_requeue out)
          (if out_sleep out then Sleep w else w)
          (pass_trace st
             ++ [EvCheckAttestation (IrisLookupId msg) (SourceTxHash msg)
                   (SourceDomain msg) (DestDomain msg)]
             ++ (if out_sleep out then [EvSleep] else []))
      else
        mkPass (<[i := msg]> (tx_msgs st)) (broadcastMsgs st) (requeue st)
          (pass_world st) (pass_trace st)
  end.

Definition mark_Complete (now : Time) (msg : MessageState) : MessageState :=
  set_Updated now (set_status Complete msg).

(** Lines 151-171: the body of the loop over [broadcastMsgs]. *)
Definition broadcast_step (st : Pass) (entry : Domain * list nat) : Pass :=
  let '(domain, idxs) := entry in
  match registeredDomains !! domain with
  | None => st
  | Some chain =>
      let msgs := omap (fun i => tx_msgs st !! i) idxs in
      let '(err, w) := Broadcast chain msgs (pass_world st) in
      let trace := pass_trace st ++ [EvBroadcast domain msgs] in
      match err with
      | Some _ => mkPass (tx_msgs st) (broadcastMsgs st) true w trace
      | None =>
          mkPass (foldl (fun ms i => alter (mark_Complete (Now w)) i ms) (tx_msgs st) idxs)
            (broadcastMsgs st) (requeue st) w trace
      end
  end.

(** Lines 101-171 on the messages of [tx]. *)
Definition run_pass (tx : TxState) (w : W) (trace : list Event) : Pass :=
  let st := foldl msg_step (mkPass (Msgs tx) ∅ false w trace) (seq 0 (length (Msgs tx))) in
  foldl broadcast_step st (range_order (map_to_list (broadcastMsgs st))).

(** A worker together with what it shares: the state store [State], the
    processing queue, the outside world, and the calls made so far. *)
Record Processor : Type := mkProcessor {
  State : gmap string TxState;
  processingQueue : list TxState;
  world : W;
  trace : list Event
}.

(** Lines 89-99: load the transaction from [State], or store it with every
    message set to [Created]. *)
Definition load_or_store (dequeuedTx : TxState) (store : gmap string TxState)
  : TxState * gmap string TxState :=
  match store !! LookupKey (TxHash dequeuedTx) with
  | Some tx => (tx, store)
  | None =>
      let tx := mkTxState (TxHash dequeuedTx) (set_status Created <$> Msgs dequeuedTx) in
      (tx, <[LookupKey (TxHash dequeuedTx) := tx]> store)
  end.

(** Lines 87-174: one iteration of the worker loop on the dequeued
    [dequeuedTx]; [p] is the state after the receive. The stored
    transaction is the object the pass mutates. *)
Definition process (dequeuedTx : TxState) (p : Processor) : Processor :=
  let '(tx, store) := load_or_store dequeuedTx (State p) in
  let st := run_pass tx (world p) (trace p) in
  let tx' := mkTxState (TxHash tx) (tx_msgs st) in
  mkProcessor (<[LookupKey (TxHash dequeuedTx) := tx']> store)
    (if requeue st then processingQueue p ++ [tx'] else processingQueue p)
    (pass_world st) (pass_trace st).

(** One iteration of [for { dequeuedTx := <-processingQueue ... }]; on an
    empty queue the receive blocks and nothing changes. *)
Definition worker_step (p : Processor) : Processor :=
  match processingQueue p with
  | [] => p
  | dequeuedTx :: rest =>
      process dequeuedTx (mkProcessor (State p) rest (world p) (trace p))
  end.

(** Lines 76-176: [n] iterations of the worker loop. *)
Fixpoint StartProcessor (n : nat) (p : Processor) : Processor :=
  match n with
  | O => p
  | S n' => StartProcessor n' (worker_step p)
  end.

End processor.

(** ** Status changes *)

(** How the loop over the messages (lines 103-149) may change a status:
    [met] tells whether the message meets a filter. *)
Definition attest_transition (met : bool) (s s' : Status) : Prop :=
  if met then s' = Filtered
  else match s with
       | Created => s' = Created \/ s' = Pending \/ s' = Attested
       | Pending => s' = Pending \/ s' = Attested
       | _ => s' = s
       end.

(** How a whole pass (lines 101-171) may change a status. *)
Definition pass_transition (met : bool) (s s' : Status) : Prop :=
  if met then s' = Filtered
  else match s with
       | Created => s' = Created \/ s' = Pending \/ s' = Attested \/ s' = Complete
       | Pending => s' = Pending \/ s' = Attested \/ s' = Complete
       | _ => s' = s
       end.

(** The destination domains of the [Broadcast] calls of a trace, in order. *)
Definition broadcast_domains (trace : list Event) : list Domain :=
  omap (fun e => match e with EvBroadcast d _ => Some d | _ => None end) trace.

(** ** Start-up (lines 39-61) *)

Section start.

Context {W : Type}.

(** The entries of [cfg.Chains], and the calls of the loop: [cfg.Chain(name)]
    ([None] for an error), [c.InitializeBroadcaster] ([Some err] for an
    error; it seeds the sequence map, which is part of the world) and
    [c.Domain()]. *)
Variable ChainConfig : Type.
Variable Chain_of : string -> ChainConfig -> option (Chain W).
Variable InitializeBroadcaster : Chain W -> W -> option string * W.
Variable Domain_of : Chain W -> Domain.

(** [os.Exit(1)], or the registry with which the workers are started;
    [listeners] are the chains whose [StartListener] goroutine was started. *)
Inductive StartResult : Type :=
| Exit (code : Z) (w : W) (listeners : list (Chain W))
| Serving (registeredDomains : gmap Domain (Chain W)) (w : W) (listeners : list (Chain W)).

(** Lines 41-61, over the entries of [cfg.Chains] in the order of the range. *)
Fixpoint register_chains (chains : list (string * ChainConfig))
    (registeredDomains : gmap Domain (Chain W)) (w : W) (listeners : list (Chain W))
  : StartResult :=
  match chains with
  | [] => Serving registeredDomains w listeners
  | (name, cfg) :: rest =>
      match Chain_of name cfg with
      | None => Exit 1 w listeners
      | Some c =>
          let '(err, w') := InitializeBroadcaster c w in
          match err with
          | Some _ => Exit 1 w' listeners
          | None =>
              let listeners' := listeners ++ [c] in
              match registeredDomains !! Domain_of c with
              | Some _ => Exit 1 w' listeners'
              | None =>
                  register_chains rest (<[Domain_of c := c]> registeredDomains) w' listeners'
              end
          end
      end
  end.

(** The calls of [InitializeBroadcaster] on the chains [cs], one after the
    other from the world [w], all return without error and leave the world
    [w']. *)
Fixpoint initialised_in_turn (cs : list (Chain W)) (w w' : W) : Prop :=
  match cs with
  | [] => w' = w
  | c :: rest =>
      exists w1, InitializeBroadcaster c w = (None, w1) /\ initialised_in_turn rest w1 w'
  end.

End start.

(** ** The lookup API (lines 237-252) *)

(** A call of [c.JSON(code, obj)]. *)
Inductive Body : Type :=
| BodyMessage (message : string)
| BodyMsgs (msgs : list MessageState).

Record JSON : Type := mkJSON {
  json_code : Z;
  json_body : Body
}.

Definition StatusOK : Z := 200.
Definition StatusBadRequest : Z := 400.
Definition StatusNotFound : Z := 404.

(** [tx.Msgs[0].SourceDomain] for [tx, ok := State.Load(txHash)]: a nil
    [tx] and an empty [Msgs] both panic. *)
Definition first_SourceDomain (tx : option TxState) : Result Domain :=
  match tx with
  | None => Panicked
  | Some tx =>
      match Msgs tx with
      | [] => Panicked
      | m :: _ => Returned (SourceDomain m)
      end
  end.

(** Lines 237-252: the [c.JSON] calls of the handler, in order, and whether
    it returns or panics. [domain] is [c.Query("domain")], the empty
    string when the parameter is absent. In the condition of line 246,
    [&&] binds tighter than [||]. *)
Definition getTxByHash (State : gmap string TxState) (txHash domain : string)
  : list JSON * Result unit :=
  let '(domainInt, err) := ParseInt domain in
  let written :=
    if (negb (String.eqb domain "") && err)%bool
    then [mkJSON StatusBadRequest (BodyMessage "unable to parse domain")] else [] in
  let tx := State !! txHash in
  let ok := bool_decide (is_Some tx) in
  let cond : Result bool :=
    if (ok && String.eqb domain "")%bool then Returned true
    else if negb (String.eqb domain "")
    then bindR (first_SourceDomain tx)
           (fun sd => Returned (N.eqb sd (uint32_of_int64 domainInt)))
    else Returned false in
  match cond with
  | Panicked => (written, Panicked)
  | Returned true =>
      (written ++ [mkJSON StatusOK (BodyMsgs (default [] (Msgs <$> tx)))], Returned tt)
  | Returned false =>
      (written ++ [mkJSON StatusNotFound (BodyMessage "message not found")], Returned tt)
  end.

End cmd.

(* ===================================================================== *)
(** * cmd/root.go                                                          *)
(* ===================================================================== *)

Module root.
Import golang types cmd.

Section getTxByHash.

(** [types.Mint], [types.Forward] and the two-argument [LookupKey] of this
    version of the package are not among the sources. In this version
    [State] maps a key to one message state. *)
Variable Mint Forward : string.
Variable LookupKey : string -> string -> string.

(** Lines 108 and 116: the condition on the domain parameter. *)
Definition domain_matches (domain : string) (domainInt : Z) (message : MessageState) : bool :=
  (String.eqb domain ""
   || (negb (String.eqb domain "")
       && N.eqb (SourceDomain message) (uint32_of_int64 domainInt)))%bool.

(** Lines 106-113 and 114-121: one of the two blocks, for the message type
    [ty]; it returns [result] and [found] as it leaves them. *)
Definition lookup_block (State : gmap string MessageState) (txHash domain : string)
    (domainInt : Z) (msgType ty : string) (acc : list MessageState * bool)
  : list MessageState * bool :=
  if (String.eqb msgType ty || String.eqb msgType "")%bool then
    match State !! LookupKey txHash ty with
    | Some message =>
        if domain_matches domain domainInt message then (acc.1 ++ [message], true) else acc
    | None => acc
    end
  else acc.

(** Lines 94-128: the [c.JSON] calls of the handler, in order. *)
Definition getTxByHash (State : gmap string MessageState) (txHash domain msgType : string)
  : list JSON :=
  let '(domainInt, err) := ParseInt domain in
  let written :=
    if (negb (String.eqb domain "") && err)%bool
    then [mkJSON StatusBadRequest (BodyMessage "unable to parse domain")] else [] in
  let acc := lookup_block State txHash domain domainInt msgType Mint ([], false) in
  let '(result, found) := lookup_block State txHash domain domainInt msgType Forward acc in
  if found
  then written ++ [mkJSON StatusOK (BodyMsgs result)]
  else written ++ [mkJSON StatusNotFound (BodyMessage "message not found")].

End getTxByHash.

End root.

(* ===================================================================== *)
(** * Reference implementations of the external collaborators              *)
(* ===================================================================== *)

(** The statements below are parametric in the libraries the sources call.
    This module gives executable versions of them, and a few inputs, so
    that the embedding can be run on concrete data. *)
Module fixtures.
Import golang types noble.

(** ** Keccak-256 ([crypto.Keccak256]) *)

(** Keccak-f[1600] on 25 lanes of 64 bits, lane (x, y) at index x + 5 y. *)
Definition lane_mask : N := N.ones 64.

Definition rotl64 (v : N) (r : N) : N :=
  N.land (N.lor (N.shiftl v r) (N.shiftr v (64 - r))) lane_mask.

Definition lane (A : list N) (x y : nat) : N :=
  default 0%N (A !! (x mod 5 + 5 * (y mod 5))).

Definition xy : list (nat * nat) :=
  y ← seq 0 5; x ← seq 0 5; [(x, y)].

Definition rotation_offsets : list N :=
  [ 0; 1; 62; 28; 27;
    36; 44; 6; 55; 20;
    3; 10; 43; 25; 39;
    41; 45; 15; 21; 8;
    18; 2; 61; 56; 14 ]%N.

Definition round_constants : list N :=
  [ 0x0000000000000001; 0x0000000000008082; 0x800000000000808A; 0x8000000080008000;
    0x000000000000808B; 0x0000000080000001; 0x8000000080008081; 0x8000000000008009;
    0x000000000000008A; 0x0000000000000088; 0x0000000080008009; 0x000000008000000A;
    0x000000008000808B; 0x800000000000008B; 0x8000000000008089; 0x8000000000008003;
    0x8000000000008002; 0x8000000000000080; 0x000000000000800A; 0x800000008000000A;
    0x8000000080008081; 0x8000000000008080; 0x0000000080000001; 0x8000000080008008 ]%N.

Definition theta (A : list N) : list N :=
  let C x := fold_right N.lxor 0%N ((fun y => lane A x y) <$> seq 0 5) in
  let D x := N.lxor (C (x + 4)) (rotl64 (C (x + 1)) 1) in
  (fun '(x, y) => N.lxor (lane A x y) (D x)) <$> xy.

(** rho and pi together: the lane written at (X, Y) is the lane read at
    x = (X + 3 Y) mod 5, y = X, rotated by its offset. *)
Definition rho_pi (A : list N) : list N :=
  (fun '(X, Y) =>
     let x := (X + 3 * Y) mod 5 in
     let y := X in
     rotl64 (lane A x y) (default 0%N (rotation_offsets !! (x + 5 * y)))) <$> xy.

Definition chi (B : list N) : list N :=
  (fun '(x, y) =>
     N.lxor (lane B x y)
       (N.land (N.lxor (lane B (x + 1) y) lane_mask) (lane B (x + 2) y))) <$> xy.

Definition iota (rc : N) (A : list N) : list N :=
  match A with
  | a :: rest => N.lxor a rc :: rest
  | [] => []
  end.

Definition keccak_f (A : list N) : list N :=
  foldl (fun A rc => iota rc (chi (rho_pi (theta A)))) A round_constants.

Definition rate : nat := 136.

(** Multi-rate padding with the Keccak domain byte 0x01. *)
Definition pad (msg : list N) : list N :=
  let q := rate - length msg mod rate in
  if Nat.eqb q 1 then msg ++ [0x81%N]
  else msg ++ [0x01%N] ++ replicate (q - 2) 0%N ++ [0x80%N].

Fixpoint le_lane (bs : list N) : N :=
  match bs with
  | [] => 0
  | b :: rest => (b + 256 * le_lane rest)%N
  end.

Fixpoint lanes_of (n : nat) (bs : list N) : list N :=
  match n with
  | O => []
  | S n' => le_lane (take 8 bs) :: lanes_of n' (drop 8 bs)
  end.

Definition absorb (A : list N) (block : list N) : list N :=
  keccak_f (zip_with N.lxor A (lanes_of 17 block ++ replicate 8 0%N)).

Fixpoint absorb_all (n : nat) (A : list N) (bs : list N) : list N :=
  match n with
  | O => A
  | S n' => absorb_all n' (absorb A (take rate bs)) (drop rate bs)
  end.

Definition bytes_of_lane (l : N) : list N :=
  (fun i => N.land (N.shiftr l (8 * N.of_nat i)) 255) <$> seq 0 8.

Definition byte_of_N (n : N) : byte := default x00 (Byte.of_N n).

Definition Keccak256 (data : list byte) : list byte :=
  let padded := pad (Byte.to_N <$> data) in
  let A := absorb_all (length padded / rate) (replicate 25 0%N) padded in
  byte_of_N <$> take 32 (mjoin (bytes_of_lane <$> A)).

(** ** Base64 ([base64.StdEncoding.DecodeString], inputs without line breaks) *)

Definition b64_value (c : ascii) : option N :=
  let n := N_of_ascii c in
  if ((65 <=? n) && (n <=? 90))%N%bool then Some (n - 65)%N
  else if ((97 <=? n) && (n <=? 122))%N%bool then Some (n - 71)%N
  else if ((48 <=? n) && (n <=? 57))%N%bool then Some (n + 4)%N
  else if (n =? 43)%N then Some 62%N
  else if (n =? 47)%N then Some 63%N
  else None.

Definition is_pad (c : ascii) : bool := Ascii.eqb c "="%char.

Fixpoint DecodeString (s : string) : option (list byte) :=
  match s with
  | EmptyString => Some []
  | String a (String b (String c (String d rest))) =>
      match b64_value a, b64_value b with
      | Some va, Some vb =>
          let b1 := byte_of_N (va * 4 + vb / 16) in
          if (is_pad c && is_pad d)%bool then
            match rest with EmptyString => Some [b1] | _ => None end
          else
            match b64_value c with
            | None => None
            | Some vc =>
                let b2 := byte_of_N ((vb mod 16) * 16 + vc / 4) in
                if is_pad d then
                  match rest with EmptyString => Some [b1; b2] | _ => None end
                else
                  match b64_value d with
                  | None => None
                  | Some vd =>
                      let b3 := byte_of_N ((vc mod 4) * 64 + vd) in
                      match DecodeString rest with
                      | Some bs => Some (b1 :: b2 :: b3 :: bs)
                      | None => None
                      end
                  end
            end
      | _, _ => None
      end
  | _ => None
  end.

(** ** The CCTP header ([types.Message.Parse]) *)

Fixpoint be_uint (bs : list byte) (acc : N) : N :=
  match bs with
  | [] => acc
  | b :: rest => be_uint rest (acc * 256 + Byte.to_N b)%N
  end.

(** Modelled from the spec: [types.Message.Parse] is not among the sources;
    section 6 gives the fixed layout: source domain (u32), destination
    domain (u32), nonce (u64), destination caller (32 bytes), then the
    payload. *)
Definition Parse (bz : list byte) : option Message :=
  if length bz <? 48 then None
  else Some (mkMessage (be_uint (take 4 bz) 0) (be_uint (take 4 (drop 4 bz)) 0)
               (be_uint (take 8 (drop 8 bz)) 0) (take 32 (drop 16 bz))).

(** ** [HexBytes.String]: upper-case hexadecimal *)

Definition upper (c : ascii) : ascii :=
  let n := nat_of_ascii c in
  if ((97 <=? n) && (n <=? 122))%nat%bool then ascii_of_nat (n - 32) else c.

Fixpoint ToUpper (s : string) : string :=
  match s with
  | EmptyString => EmptyString
  | String c rest => String (upper c) (ToUpper rest)
  end.

Definition HashString (bz : list byte) : string := ToUpper (EncodeToString bz).

(** ** Inputs *)

Definition dquote : ascii := ascii_of_nat 34.

Definition quoted (s : string) : string := String dquote (s +:+ String dquote EmptyString).

(** A message from domain 4 to domain 0 with nonce 42, and one with nonce 43. *)
Definition b64_nonce42 : string :=
  "AAAABAAAAAAAAAAAAAAAKgAAAAAAAAAAAAAAAAAAAAAAAAAAAAAAAAAAAAAAAAAC".
Definition b64_nonce43 : string :=
  "AAAABAAAAAAAAAAAAAAAKwAAAAAAAAAAAAAAAAAAAAAAAAAAAAAAAAAAAAAAAAAC".

Definition MessageSent (attrs : list EventAttribute) : Event :=
  mkEvent "circle.cctp.v1.MessageSent" attrs.

Definition message_attr (v : string) : EventAttribute := mkEventAttribute "message" v.

Definition tx_hash : list byte := [xab; xcd; x01].

(** One MessageSent event whose message parses. *)
Definition tx_one_message : ResultTx :=
  mkResultTx tx_hash (mkExecTxResult 0 [MessageSent [message_attr (quoted b64_nonce42)]]).

(** Two MessageSent events: the first parses, the text of the second is not
    base64. *)
Definition tx_second_event_undecodable : ResultTx :=
  mkResultTx tx_hash
    (mkExecTxResult 0
       [MessageSent [message_attr (quoted b64_nonce42)];
        MessageSent [message_attr (quoted "!!!!")]]).

(** One MessageSent event with two message attributes: the first is not
    base64, the second parses. *)
Definition tx_second_attr_parses : ResultTx :=
  mkResultTx tx_hash
    (mkExecTxResult 0
       [MessageSent [message_attr (quoted "!!!!"); message_attr (quoted b64_nonce43)]]).

(** A MessageSent event whose message attribute is empty. *)
Definition tx_empty_message_value : ResultTx :=
  mkResultTx tx_hash (mkExecTxResult 0 [MessageSent [message_attr EmptyString]]).

(** A failed transaction (code 5) that carries a MessageSent event. *)
Definition tx_failed : ResultTx :=
  mkResultTx tx_hash (mkExecTxResult 5 [MessageSent [message_attr (quoted b64_nonce42)]]).

Definition run_txToMessageState (tx : ResultTx)
  : Result (list MessageState * option TxError) :=
  txToMessageState DecodeString Keccak256 Parse HashString 1700000000%Z tx.

(** ** The EVM listener *)

(** Stands for [types.EvmLogToMessageState] on a log whose data is the raw
    CCTP message (the ABI unpacking of the event is left out). *)
Definition EvmLogToMessageState (l : ethereum.Log) : option MessageState :=
  (fun msg =>
     mkMessageState (EncodeToString (Keccak256 (ethereum.log_Data l))) Created EmptyString
       (msg_SourceDomain msg) (msg_DestinationDomain msg) (ethereum.log_TxHash l)
       (ethereum.log_Data l) (msg_DestinationCaller msg) (msg_Nonce msg)
       1700000000%Z 1700000000%Z) <$> Parse (ethereum.log_Data l).

Definition raw_nonce42 : list byte := default [] (DecodeString b64_nonce42).
Definition raw_nonce43 : list byte := default [] (DecodeString b64_nonce43).

(** Two MessageSent logs of the transaction 0xaa, a log of the same
    transaction that does not parse, and a log of the transaction 0xbb. *)
Definition log_aa_1 : ethereum.Log := ethereum.mkLog "0xaa" 990 raw_nonce42.
Definition log_aa_2 : ethereum.Log := ethereum.mkLog "0xaa" 990 raw_nonce43.
Definition log_aa_bad : ethereum.Log := ethereum.mkLog "0xaa" 990 [x00; x01].
Definition log_bb : ethereum.Log := ethereum.mkLog "0xbb" 991 raw_nonce42.

Definition blank : MessageState :=
  mkMessageState EmptyString Created EmptyString 0%N 0%N EmptyString [] [] 0%N 0%Z 0%Z.

Definition msg_aa_1 : MessageState :=
  Eval vm_compute in default blank (EvmLogToMessageState log_aa_1).
Definition msg_aa_2 : MessageState :=
  Eval vm_compute in default blank (EvmLogToMessageState log_aa_2).

Definition no_history (q : ethereum.FilterQuery) : list ethereum.Log := [].

(** ** The processor *)

(** A world for the scenario "broadcast failure, then success": the state
    counts the calls of [Broadcast]; the attestation service answers
    "complete" at once; the first broadcast fails and every later one
    succeeds. *)
#[export] Instance always_complete : cmd.External nat :=
  cmd.mkExternal nat
    (fun _ _ _ _ _ w => (Some (mkAttestationResponse "0xAB" "complete"), w))
    (fun _ => 1700000000%Z)
    (fun w => w).

Definition flaky_chain : cmd.Chain nat :=
  cmd.mkChain nat "ethereum" (fun _ => true)
    (fun _ w => (if Nat.eqb w 0 then Some "rpc error"%string else None, S w)).

Definition cfg_4_to_0 : cmd.Config :=
  cmd.mkConfig {[ 4%N := [0%N] ]} "https://iris.example".

Definition registered_0 : gmap Domain (cmd.Chain nat) := {[ 0%N := flaky_chain ]}.

Definition map_order (l : list (Domain * list nat)) : list (Domain * list nat) := l.

(** The processor at start-up, with the transaction 0xaa (one message from
    domain 4 to domain 0) on the queue. *)
Definition scenario6 : cmd.Processor :=
  cmd.mkProcessor ∅ [mkTxState "0xaa" [msg_aa_1]] 0 [].

(** A configuration with no enabled route, and a message to domain 7, for
    which no chain is registered. *)
Definition cfg_no_routes : cmd.Config := cmd.mkConfig ∅ "https://iris.example".

Definition msg_to_7 : MessageState :=
  mkMessageState (IrisLookupId msg_aa_1) Created EmptyString 4%N 7%N "0xaa"
    (MsgSentBytes msg_aa_1) (DestinationCaller msg_aa_1) 42%N 1700000000%Z 1700000000%Z.

(** The local variables of a pass at its start, for a transaction with the
    one Created message. *)
Definition pass_one_created : cmd.Pass := cmd.mkPass [msg_aa_1] ∅ false 0 [].

Definition idle_processor : cmd.Processor := cmd.mkProcessor ∅ [] 0 [].

Definition run_scenario6 (n : nat) : cmd.Processor :=
  cmd.StartProcessor cfg_4_to_0 registered_0 map_order n scenario6.

Definition statuses (p : cmd.Processor (W := nat)) (key : string) : list Status :=
  default [] ((fun tx => status <$> Msgs tx) <$> cmd.State p !! key).

Definition broadcast_calls (p : cmd.Processor (W := nat)) : nat :=
  length (filter (fun e => cmd.is_broadcast_call e = true) (cmd.trace p)).

(** ** Further inputs *)

(** The message of 0xaa once it is Attested. *)
Definition msg_aa_attested : MessageState :=
  set_Attestation "0xAB" (set_status Attested msg_aa_1).

(** An attestation service that answers with a status the processor does
    not know. *)
Definition unknown_status_service : cmd.External nat :=
  cmd.mkExternal nat
    (fun _ _ _ _ _ w => (Some (mkAttestationResponse "" "failed"), w))
    (fun _ => 1700000000%Z)
    (fun w => w).

(** A second chain, and the start-up calls for a configuration that names
    the two chains by their domains. *)
Definition noble_chain : cmd.Chain nat :=
  cmd.mkChain nat "noble" (fun _ => true) (fun _ w => (None, S w)).

Definition chain_of (name : string) (domain : Domain) : option (cmd.Chain nat) :=
  if String.eqb name "ethereum" then Some flaky_chain
  else if String.eqb name "noble" then Some noble_chain
  else None.

(** An initialisation that seeds one sequence number per chain, and one that
    fails for the chain named noble. *)
Definition initialize_seeds (c : cmd.Chain nat) (w : nat) : option string * nat :=
  (None, S w).

Definition initialize_fails_noble (c : cmd.Chain nat) (w : nat) : option string * nat :=
  (if String.eqb (cmd.Name c) "noble" then Some "no account"%string else None, S w).

(** A registry that also has a chain for domain 7, so that a message from
    domain 4 to domain 7 meets the route filter only. *)
Definition registered_0_7 : gmap Domain (cmd.Chain nat) :=
  {[ 0%N := flaky_chain; 7%N := noble_chain ]}.

(** The worker when the queue holds the two transaction states that
    [consumeHistroy] sends for two logs of the transaction 0xaa, under a
    configuration with no enabled route, after [n] iterations. *)
Definition history_pair : list TxState :=
  [mkTxState "0xaa" [msg_aa_1]; mkTxState "0xaa" [msg_aa_2]].

Definition run_history_pair (n : nat) : cmd.Processor :=
  cmd.StartProcessor cfg_no_routes registered_0 map_order n
    (cmd.mkProcessor ∅ history_pair 0 []).

Definition domain_of (c : cmd.Chain nat) : Domain :=
  if String.eqb (cmd.Name c) "ethereum" then 0%N else 4%N.

Definition two_chains : list (string * Domain) := [("ethereum"%string, 0%N); ("noble"%string, 4%N)].

(** The keys of cmd/root.go, after the format kept in the comment of
    [LookupKey] in cmd/process.go. *)
Definition Mint : string := "mint".
Definition Forward : string := "forward".
Definition LookupKey2 (sourceTxHash messageType : string) : string :=
  sourceTxHash +:+ "-" +:+ messageType.

(** Listeners with a look-back period of 50 blocks: one that flushed at
    block 900, one that has not flushed yet. *)
Definition flushed_at_900 : ethereum.Listener := ethereum.mkListener 0 50 900.
Definition never_flushed : ethereum.Listener := ethereum.mkListener 0 50 0.

(** A node whose history holds the two logs of 0xaa in the query that
    starts at block 750. *)
Definition history_at_750 (q : ethereum.FilterQuery) : list ethereum.Log :=
  if (ethereum.FromBlock q =? 750)%Z then [log_aa_1; log_aa_2] else [].

Definition backfill_750_1000 : list ethereum.Effect :=
  Eval vm_compute in
    default [] (ethereum.getAndConsumeHistory EvmLogToMessageState history_at_750 3 750 1000).

(** A transaction whose only event is not a MessageSent event and carries an
    empty "message" attribute, and one whose MessageSent event has no
    "message" attribute. *)
Definition tx_other_event : ResultTx :=
  mkResultTx tx_hash (mkExecTxResult 0 [mkEvent "transfer" [message_attr EmptyString]]).

Definition tx_no_message_attribute : ResultTx :=
  mkResultTx tx_hash
    (mkExecTxResult 0
       [mkEvent "transfer" []; MessageSent [mkEventAttribute "amount" "1"]]).

End fixtures.


(* ===================================================================== *)
(** * Properties of noble/message_state.go                                 *)
(* ===================================================================== *)

Section noble_properties.
Import golang types noble.

Variable DecodeString : string -> option (list byte).
Variable Keccak256 : list byte -> list byte.
Variable Parse : list byte -> option Message.
Variable HashString : list byte -> string.
Variable now : Time.

Local Abbreviation attr_step := (attr_step DecodeString Keccak256 Parse HashString now).
Local Abbreviation attr_loop := (attr_loop DecodeString Keccak256 Parse HashString now).
Local Abbreviation event_loop := (event_loop DecodeString Keccak256 Parse HashString now).
Local Abbreviation txToMessageState :=
  (txToMessageState DecodeString Keccak256 Parse HashString now).
Local Abbreviation built_from := (built_from DecodeString Keccak256 HashString).

Lemma strip_quotes_returns v :
  2 <= String.length v -> exists encoded, strip_quotes v = Returned encoded.
Proof.
  intros Hlen. unfold strip_quotes, slice.
  destruct (_ && _)%bool eqn:Hb; [eauto|].
  exfalso. rewrite !andb_false_iff in Hb.
  destruct Hb as [[Hb|Hb]|Hb]; apply Z.leb_gt in Hb; lia.
Qed.

Lemma strip_quotes_panics v :
  String.length v < 2 -> strip_quotes v = Panicked.
Proof.
  intros Hlen. unfold strip_quotes, slice.
  destruct (_ && _)%bool eqn:Hb; [|done].
  exfalso. rewrite !andb_true_iff in Hb.
  destruct Hb as [[_ Hb] _]. apply Z.leb_le in Hb. lia.
Qed.

Lemma attr_step_returns tx st attr :
  (Key attr = "message"%string -> 2 <= String.length (Value attr)) ->
  exists st', attr_step tx st attr = Returned st'.
Proof.
  intros Hlen. unfold noble.attr_step.
  destruct (String.eqb (Key attr) "message") eqn:Hk; [|eauto].
  apply String.eqb_eq in Hk.
  destruct (strip_quotes_returns (Value attr) (Hlen Hk)) as [encoded He].
  rewrite He. simpl.
  destruct (DecodeString encoded) as [raw|]; [|eauto].
  destruct (Parse raw); eauto.
Qed.

Lemma attr_loop_returns tx attrs :
  attrs_sliceable attrs -> forall st, exists st', attr_loop tx attrs st = Returned st'.
Proof.
  induction attrs as [|attr attrs IH]; intros Hok st; simpl; [eauto|].
  destruct (attr_step_returns tx st attr) as [st1 H1].
  { intros Hk. apply Hok; [left|done]. }
  rewrite H1. simpl. apply IH. intros a Ha. apply Hok. by right.
Qed.

Lemma event_loop_returns tx events :
  (forall event, event ∈ events ->
     Type_ event = "circle.cctp.v1.MessageSent"%string -> attrs_sliceable (Attributes event)) ->
  forall acc, exists r, event_loop tx events acc = Returned r.
Proof.
  induction events as [|event events IH]; intros Hok acc; simpl; [eauto|].
  assert (Hrest : forall e, e ∈ events ->
            Type_ e = "circle.cctp.v1.MessageSent"%string -> attrs_sliceable (Attributes e)).
  { intros e He. apply Hok. by right. }
  destruct (String.eqb (Type_ event) "circle.cctp.v1.MessageSent") eqn:Ht; [|by apply IH].
  apply String.eqb_eq in Ht.
  destruct (attr_loop_returns tx (Attributes event)) with (st := mkAttrLoop acc false [])
    as [st1 H1].
  { apply Hok; [left|done]. }
  rewrite H1. simpl. destruct (negb (parsed st1)); [eauto|by apply IH].
Qed.

Lemma attr_step_built (P : Event -> Prop) tx event st attr st' :
  P event -> Type_ event = "circle.cctp.v1.MessageSent"%string ->
  attr ∈ Attributes event ->
  Forall (built_from P tx) (messageStates st) ->
  attr_step tx st attr = Returned st' ->
  Forall (built_from P tx) (messageStates st').
Proof.
  intros HP Ht Hin Hst. unfold noble.attr_step.
  destruct (String.eqb (Key attr) "message") eqn:Hk; [|by intros [= <-]].
  apply String.eqb_eq in Hk.
  destruct (strip_quotes (Value attr)) as [encoded|] eqn:He; simpl; [|done].
  destruct (DecodeString encoded) as [raw|] eqn:Hd; [|by intros [= <-]].
  destruct (Parse raw) as [msg|]; [|by intros [= <-]].
  intros [= <-]. simpl. apply Forall_app. split; [done|].
  apply Forall_singleton. repeat split; simpl; try done.
  exists event, attr, encoded. by repeat split.
Qed.

Lemma attr_loop_built (P : Event -> Prop) tx event attrs :
  P event -> Type_ event = "circle.cctp.v1.MessageSent"%string ->
  (forall attr, attr ∈ attrs -> attr ∈ Attributes event) ->
  forall st st',
    Forall (built_from P tx) (messageStates st) ->
    attr_loop tx attrs st = Returned st' ->
    Forall (built_from P tx) (messageStates st').
Proof.
  intros HP Ht. induction attrs as [|attr attrs IH]; intros Hsub st st' Hst; simpl.
  - by intros [= <-].
  - destruct (attr_step tx st attr) as [st1|] eqn:H1; simpl; [|done].
    apply IH; [intros a Ha; apply Hsub; by right|].
    eapply attr_step_built; eauto. apply Hsub. by left.
Qed.

Lemma event_loop_built (P : Event -> Prop) tx events :
  (forall event, event ∈ events -> P event) ->
  forall acc l e,
    Forall (built_from P tx) acc ->
    event_loop tx events acc = Returned (l, e) ->
    Forall (built_from P tx) l.
Proof.
  induction events as [|event events IH]; intros HP acc l e Hacc; simpl.
  - by intros [= <- <-].
  - assert (Hrest : forall ev, ev ∈ events -> P ev) by (intros ev Hev; apply HP; by right).
    destruct (String.eqb (Type_ event) "circle.cctp.v1.MessageSent") eqn:Ht;
      [|by apply IH].
    apply String.eqb_eq in Ht.
    destruct (attr_loop tx (Attributes event) _) as [st1|] eqn:H1; simpl; [|done].
    assert (Forall (built_from P tx) (messageStates st1)) as Hst1.
    { eapply (attr_loop_built P tx event (Attributes event)); [apply HP; by left|done|done| |exact H1].
      done. }
    destruct (negb (parsed st1)); [intros [= <- <-]; constructor|by eapply IH].
Qed.

Local Abbreviation attr_state := (attr_state DecodeString Keccak256 Parse HashString now).
Local Abbreviation event_states := (event_states DecodeString Keccak256 Parse HashString now).
Local Abbreviation event_unparsed :=
  (event_unparsed DecodeString Keccak256 Parse HashString now).

Lemma hexdigit_lowercase n : is_lower_hexdigit (hexdigit n) = true.
Proof.
  unfold hexdigit. generalize (N.to_nat n) as k. intros k.
  do 16 (destruct k as [|k]; [reflexivity|]). reflexivity.
Qed.

Lemma EncodeToString_lowercase bs : lower_hex (EncodeToString bs) = true.
Proof.
  unfold lower_hex. induction bs as [|b bs IH]; [done|].
  simpl. by rewrite !hexdigit_lowercase, IH.
Qed.

Lemma EncodeToString_length bs : String.length (EncodeToString bs) = 2 * length bs.
Proof. induction bs as [|b bs IH]; simpl; [done|]. rewrite IH. lia. Qed.

(** One attribute, when its value can be sliced: it appends its message
    state if it has one and leaves the earlier ones alone. *)
Lemma attr_step_spec tx st attr :
  (Key attr = "message"%string -> 2 <= String.length (Value attr)) ->
  exists errs,
    attr_step tx st attr
    = Returned (mkAttrLoop (messageStates st ++ option_list (attr_state tx attr))
                  (parsed st || bool_decide (is_Some (attr_state tx attr))) errs).
Proof.
  intros Hlen. unfold noble.attr_step, noble.attr_state.
  destruct (String.eqb (Key attr) "message") eqn:Hk.
  - apply String.eqb_eq in Hk.
    destruct (strip_quotes_returns (Value attr) (Hlen Hk)) as [encoded ->]. simpl.
    destruct (DecodeString encoded) as [raw|]; simpl.
    + destruct (Parse raw) as [msg|]; simpl.
      * eexists. by rewrite orb_true_r.
      * eexists. by rewrite app_nil_r, orb_false_r.
    + eexists. by rewrite app_nil_r, orb_false_r.
  - exists (parseErrs st). simpl. rewrite app_nil_r, orb_false_r. by destruct st.
Qed.

Lemma attr_loop_spec tx attrs :
  attrs_sliceable attrs ->
  forall st, exists errs,
    attr_loop tx attrs st
    = Returned (mkAttrLoop (messageStates st ++ omap (attr_state tx) attrs)
                  (parsed st || bool_decide (omap (attr_state tx) attrs <> [])) errs).
Proof.
  induction attrs as [|attr attrs IH]; intros Hok st; simpl.
  - exists (parseErrs st). rewrite app_nil_r.
    destruct st; simpl. by rewrite orb_false_r.
  - destruct (attr_step_spec tx st attr) as [errs1 ->].
    { intros Hk. apply Hok; [left|done]. }
    simpl. edestruct IH as [errs ->].
    { intros a Ha. apply Hok. by right. }
    exists errs. simpl. f_equal.
    destruct (attr_state tx attr) as [ms|]; simpl.
    + rewrite <- app_assoc. simpl. by rewrite !orb_true_r.
    + by rewrite app_nil_r, orb_false_r.
Qed.

Lemma event_loop_all_parse tx events :
  (forall event, event ∈ events ->
     Type_ event = "circle.cctp.v1.MessageSent"%string -> attrs_sliceable (Attributes event)) ->
  Forall (fun event => ~ event_unparsed tx event) events ->
  forall acc, event_loop tx events acc = Returned (acc ++ (events ≫= event_states tx), None).
Proof.
  induction events as [|event events IH]; intros Hok Hall acc; simpl.
  - by rewrite app_nil_r.
  - apply Forall_cons in Hall as [Hev Hall].
    assert (Hrest : forall e, e ∈ events ->
              Type_ e = "circle.cctp.v1.MessageSent"%string -> attrs_sliceable (Attributes e)).
    { intros e He. apply Hok. by right. }
    unfold event_unparsed, noble.event_unparsed, noble.event_states in *.
    unfold is_MessageSent in *.
    destruct (String.eqb (Type_ event) "circle.cctp.v1.MessageSent") eqn:Ht.
    + apply String.eqb_eq in Ht.
      destruct (attr_loop_spec tx (Attributes event)) with (st := mkAttrLoop acc false [])
        as [errs ->].
      { apply Hok; [left|done]. }
      simpl. rewrite bool_decide_eq_true_2 by (intros Hnil; apply Hev; by split).
      simpl. rewrite IH by done. by rewrite <- app_assoc.
    + simpl. by apply IH.
Qed.

Lemma event_loop_some_unparsed tx events :
  (forall event, event ∈ events ->
     Type_ event = "circle.cctp.v1.MessageSent"%string -> attrs_sliceable (Attributes event)) ->
  Exists (event_unparsed tx) events ->
  forall acc, exists err, event_loop tx events acc = Returned ([], Some err).
Proof.
  induction events as [|event events IH]; intros Hok Hex acc; simpl.
  - by apply Exists_nil in Hex.
  - assert (Hrest : forall e, e ∈ events ->
              Type_ e = "circle.cctp.v1.MessageSent"%string -> attrs_sliceable (Attributes e)).
    { intros e He. apply Hok. by right. }
    destruct (String.eqb (Type_ event) "circle.cctp.v1.MessageSent") eqn:Ht.
    + pose proof Ht as Ht'. apply String.eqb_eq in Ht'.
      destruct (attr_loop_spec tx (Attributes event)) with (st := mkAttrLoop acc false [])
        as [errs ->].
      { apply Hok; [left|done]. }
      simpl. destruct (omap (attr_state tx) (Attributes event)) as [|ms mss] eqn:Hst.
      * rewrite bool_decide_eq_false_2 by (intros H; by apply H). simpl. eauto.
      * rewrite bool_decide_eq_true_2 by done. simpl. apply IH; [done|].
        apply Exists_cons in Hex as [[_ Hnil]|Hex]; [|done].
        unfold noble.event_states, is_MessageSent in Hnil. rewrite Ht in Hnil.
        by rewrite Hst in Hnil.
    + apply IH; [done|].
      apply Exists_cons in Hex as [[Hms _]|Hex]; [|done].
      unfold is_MessageSent in Hms. by rewrite Ht in Hms.
Qed.

(** C6: every message state [txToMessageState] returns comes from a
    transaction with result code 0 (a transaction with a nonzero code yields
    no message state and no error); its IrisLookupId is the lower-case
    hexadecimal text of the Keccak-256 hash of its MsgSentBytes, which are
    the bytes decoded from a "message" attribute of a MessageSent event of
    the transaction; its SourceTxHash is the text of the transaction hash;
    and its status is Created. *)
Theorem C6_noble_message_states tx l e :
  txToMessageState tx = Returned (l, e) ->
  (Code (TxResult tx) <> 0%N -> l = [] /\ e = None)
  /\ Forall (fun ms =>
               Code (TxResult tx) = 0%N
               /\ lower_hex (IrisLookupId ms) = true
               /\ built_from (fun event => event ∈ Events (TxResult tx)) tx ms) l.
Proof.
  unfold noble.txToMessageState.
  destruct (N.eqb (Code (TxResult tx)) 0) eqn:Hc; simpl.
  - apply N.eqb_eq in Hc. intros Hloop. split; [done|].
    apply event_loop_built with (P := fun event => event ∈ Events (TxResult tx)) in Hloop;
      [|done|constructor].
    eapply Forall_impl; [exact Hloop|].
    intros ms Hms. split; [done|]. split; [|done].
    destruct Hms as (-> & _). apply EncodeToString_lowercase.
  - intros [= <- <-]. split; [done|constructor].
Qed.

(** C10: [txToMessageState] returns (it does not panic) on every
    transaction in which each "message" attribute of each MessageSent event
    has a value of length at least 2; and it panics, instead of returning an
    error, on a transaction with code 0 whose first event is a MessageSent
    event that starts with a "message" attribute shorter than that, the
    empty value included. *)
Theorem C10_txToMessageState_panics_on_short_value :
  (forall tx, message_values_sliceable tx -> exists r, txToMessageState tx = Returned r)
  /\ (forall hash v attrs events,
        String.length v < 2 ->
        txToMessageState
          (mkResultTx hash
             (mkExecTxResult 0
                (mkEvent "circle.cctp.v1.MessageSent" (mkEventAttribute "message" v :: attrs)
                   :: events)))
        = Panicked).
Proof.
  split.
  - intros tx Hok. unfold noble.txToMessageState.
    destruct (negb _); [eauto|]. by apply event_loop_returns.
  - intros hash v attrs events Hlen. unfold noble.txToMessageState. simpl.
    unfold noble.attr_step. simpl. by rewrite (strip_quotes_panics v Hlen).
Qed.

End noble_properties.

(* ===================================================================== *)
(** * Properties of ethereum/listener.go                                   *)
(* ===================================================================== *)

Section ethereum_properties.
Import golang types ethereum.

Variable EvmLogToMessageState : Log -> option MessageState.
Variable QueryWithHistory : FilterQuery -> list Log.

Local Abbreviation consumeHistroy := (consumeHistroy EvmLogToMessageState).
Local Abbreviation consumeStream := (consumeStream EvmLogToMessageState).
Local Abbreviation history_loop := (history_loop EvmLogToMessageState QueryWithHistory).
Local Abbreviation getAndConsumeHistory :=
  (getAndConsumeHistory EvmLogToMessageState QueryWithHistory).
Local Abbreviation initialBackfill :=
  (initialBackfill EvmLogToMessageState QueryWithHistory).

(** [consumeHistroy] sends one transaction state per log that parses, each
    with that single message, in the order of the logs. *)
Lemma consumeHistroy_sent history :
  sent (consumeHistroy history)
  = (fun m => mkTxState (SourceTxHash m) [m]) <$> omap EvmLogToMessageState history.
Proof.
  induction history as [|l history IH]; simpl; [done|].
  destruct (EvmLogToMessageState l) as [m|]; simpl; by rewrite IH.
Qed.

Lemma consumeHistroy_skipped history :
  skipped (consumeHistroy history)
  = omap (fun l => match EvmLogToMessageState l with
                   | None => Some (log_TxHash l)
                   | Some _ => None
                   end) history.
Proof.
  induction history as [|l history IH]; simpl; [done|].
  destruct (EvmLogToMessageState l) as [m|]; simpl; by rewrite IH.
Qed.

Lemma consumeHistroy_queries history : queries (consumeHistroy history) = [].
Proof.
  induction history as [|l history IH]; simpl; [done|].
  by destruct (EvmLogToMessageState l).
Qed.

Lemma consumeHistroy_one_message_each history :
  Forall (fun tx => length (Msgs tx) = 1) (sent (consumeHistroy history)).
Proof.
  rewrite consumeHistroy_sent. apply Forall_fmap, Forall_true. done.
Qed.

(** [consumeStream] does group: logs of one transaction that arrive with no
    idle [select] in between leave in a single transaction state at the
    next idle [select]. *)
Lemma consumeStream_accumulates logs : forall ts msgs,
  Forall2 (fun l m => EvmLogToMessageState l = Some m) logs msgs ->
  Forall (fun m => SourceTxHash m = TxHash ts) msgs ->
  sent (consumeStream ((StreamLog <$> logs) ++ [Default]) (Some ts))
  = [mkTxState (TxHash ts) (Msgs ts ++ msgs)].
Proof.
  induction logs as [|l logs IH]; intros ts msgs Hparse Hhash.
  - apply Forall2_nil_inv_l in Hparse as ->. simpl. rewrite app_nil_r. by destruct ts.
  - apply Forall2_cons_inv_l in Hparse as (m & msgs' & Hm & Hparse & ->).
    apply Forall_cons in Hhash as [Hh Hhash]. simpl. rewrite Hm. simpl.
    rewrite Hh, String.eqb_refl. simpl.
    pose proof (IH (mkTxState (TxHash ts) (Msgs ts ++ [m])) msgs' Hparse Hhash) as IH'.
    etrans; [exact IH'|]. simpl. by rewrite <- app_assoc.
Qed.

Lemma consumeStream_groups l logs m msgs :
  EvmLogToMessageState l = Some m ->
  Forall2 (fun l m => EvmLogToMessageState l = Some m) logs msgs ->
  Forall (fun m' => SourceTxHash m' = SourceTxHash m) msgs ->
  sent (consumeStream ((StreamLog <$> l :: logs) ++ [Default]) None)
  = [mkTxState (SourceTxHash m) (m :: msgs)].
Proof.
  intros Hm Hparse Hhash. simpl. rewrite Hm. simpl.
  apply (consumeStream_accumulates logs (mkTxState (SourceTxHash m) [m]) msgs Hparse Hhash).
Qed.

Lemma history_loop_idle fuel total chunk start end_ :
  (end_ <= start)%Z -> history_loop fuel total chunk start end_ = Some [].
Proof.
  intros Hle. assert ((start <? end_)%Z = false) as Hlt by (apply Z.ltb_ge; lia).
  destruct fuel; simpl; by rewrite Hlt.
Qed.

Lemma queries_app effs1 effs2 : queries (effs1 ++ effs2) = queries effs1 ++ queries effs2.
Proof. apply omap_app. Qed.

Lemma covered_nil b : ~ covered [] b.
Proof. intros (q & Hq & _). by apply elem_of_nil in Hq. Qed.

Lemma covered_cons q qs b :
  covered (q :: qs) b <-> (FromBlock q <= b <= ToBlock q)%Z \/ covered qs b.
Proof.
  split.
  - intros (q' & [->|Hq]%elem_of_cons & Hb); [by left|right; by exists q'].
  - intros [Hb|(q' & Hq & Hb)]; [exists q; split; [left|done]|exists q'; split; [by right|done]].
Qed.

Lemma add64_small a b : (0 <= a + b < 2 ^ 64)%Z -> add64 a b = (a + b)%Z.
Proof. intros H. unfold add64, wrap64, u64. by apply Z.mod_small. Qed.

Lemma int64_of_uint64_small x : (x < 2 ^ 63)%Z -> int64_of_uint64 x = x.
Proof.
  intros H. unfold int64_of_uint64.
  destruct (x <? 2 ^ 63)%Z eqn:Hlt; [done|]. apply Z.ltb_ge in Hlt. lia.
Qed.

Lemma chunk_ok_later start end_ q :
  chunk_ok (start + chunkSize) end_ q -> chunk_ok start end_ q.
Proof.
  unfold chunk_ok, chunkSize. intros (Hfrom & Hto & Hmod). repeat split; try lia.
  replace (FromBlock q - start)%Z with (FromBlock q - (start + 100) + 1 * 100)%Z by lia.
  by rewrite Z.mod_add.
Qed.

(** With enough fuel the loop ends, and its queries cover the blocks from
    [start] to [end_], bounds included, and nothing else. *)
Lemma history_loop_covers fuel : forall total chunk start end_,
  (0 <= start)%Z -> (end_ < 2 ^ 63)%Z -> (end_ - start <= 100 * Z.of_nat fuel)%Z ->
  exists effs,
    history_loop fuel total chunk start end_ = Some effs
    /\ (forall b, covered (queries effs) b <-> (start < end_ /\ start <= b <= end_)%Z)
    /\ Forall (chunk_ok start end_) (queries effs).
Proof.
  induction fuel as [|fuel IH]; intros total chunk start end_ H0 H63 Hfuel.
  - exists []. rewrite history_loop_idle by lia. split; [done|]. split; [|constructor].
    intros b. split; [intros H; by apply covered_nil in H|lia].
  - destruct (Z.lt_ge_cases start end_) as [Hlt|Hge].
    + simpl. rewrite (proj2 (Z.ltb_lt start end_) Hlt). simpl.
      assert (add64 start chunkSize = (start + 100)%Z) as ->
        by (apply add64_small; unfold chunkSize; lia).
      destruct (IH total (chunk + 1)%Z (start + 100)%Z end_) as (later & -> & Hcov & Hok);
        [lia..|].
      eexists. split; [done|]. simpl. rewrite queries_app, consumeHistroy_queries. simpl.
      assert ((if (start + 100 >? end_)%Z then end_ else (start + 100)%Z)
              = Z.min (start + 100) end_) as ->.
      { destruct (start + 100 >? end_)%Z eqn:Hgt; lia. }
      rewrite !int64_of_uint64_small by lia. split.
      * intros b. rewrite covered_cons, Hcov. simpl. lia.
      * constructor.
        -- unfold chunk_ok, chunkSize. simpl. repeat split; try lia.
           by rewrite Z.sub_diag.
        -- eapply Forall_impl; [exact Hok|]. intros q. apply chunk_ok_later.
    + exists []. rewrite history_loop_idle by lia. split; [done|]. split; [|constructor].
      intros b. split; [intros H; by apply covered_nil in H|lia].
Qed.

(** More fuel does not change the outcome of a loop that ended. *)
Lemma history_loop_more_fuel fuel : forall total chunk start end_ effs,
  history_loop fuel total chunk start end_ = Some effs ->
  forall fuel', fuel <= fuel' -> history_loop fuel' total chunk start end_ = Some effs.
Proof.
  induction fuel as [|fuel IH]; intros total chunk start end_ effs Hrun fuel' Hle.
  - simpl in Hrun. destruct (start <? end_)%Z eqn:Hlt; simpl in Hrun; [done|].
    injection Hrun as <-. apply history_loop_idle. by apply Z.ltb_ge.
  - destruct fuel' as [|fuel']; [lia|]. simpl in *.
    destruct (start <? end_)%Z; simpl in *; [|done].
    destruct (history_loop fuel total (chunk + 1) (add64 start chunkSize) end_)
      as [later|] eqn:Hlater; [|done].
    by rewrite (IH _ _ _ _ later Hlater fuel') by lia.
Qed.

(** C7, as the code has it: let start be the configured start block when it
    is nonzero and the latest block otherwise, let the look-back period be
    at most start, and let s = start - lookbackPeriod. When
    s < latestBlock < 2^63 the back-fill ends, given that each history query
    succeeds in the end, and its queries cover exactly the blocks s to
    latestBlock; each query starts a multiple of 100 blocks after s and runs
    to 100 blocks later or to latestBlock, whichever comes first. When
    latestBlock <= s no query is issued. *)
Theorem C7_initial_backfill_coverage startBlock lookbackPeriod latestBlock :
  let start := if (startBlock =? 0)%Z then latestBlock else startBlock in
  (0 <= lookbackPeriod <= start)%Z -> (start < 2 ^ 64)%Z ->
  let s := (start - lookbackPeriod)%Z in
  ((s < latestBlock < 2 ^ 63)%Z ->
   exists effs,
     (forall fuel, Z.to_nat ((latestBlock - s) / 100) + 1 <= fuel ->
        initialBackfill fuel startBlock lookbackPeriod latestBlock = Some effs)
     /\ (forall b, covered (queries effs) b <-> (s <= b <= latestBlock)%Z)
     /\ Forall (chunk_ok s latestBlock) (queries effs))
  /\ ((latestBlock <= s)%Z ->
      forall fuel, initialBackfill fuel startBlock lookbackPeriod latestBlock = Some []).
Proof.
  intros start Hk H64 s.
  assert (startLookback startBlock lookbackPeriod latestBlock = s) as Hs.
  { unfold startLookback. fold start.
    replace (if negb (startBlock =? 0)%Z then startBlock else latestBlock) with start
      by (unfold start; by destruct (startBlock =? 0)%Z).
    unfold sub64, wrap64, u64. apply Z.mod_small. unfold s. lia. }
  split.
  - intros [Hlt H63].
    set (n := Z.to_nat ((latestBlock - s) / 100) + 1).
    destruct (history_loop_covers n (totalChunksNeeded s latestBlock) 1 s latestBlock)
      as (effs & Hrun & Hcov & Hok); [unfold s; lia|done| |].
    { unfold n. rewrite Nat2Z.inj_add, Z2Nat.id by (apply Z.div_pos; lia).
      pose proof (Z.mul_succ_div_gt (latestBlock - s) 100). lia. }
    exists effs. split; [|split; [|done]].
    + intros fuel Hfuel. unfold ethereum.initialBackfill, ethereum.getAndConsumeHistory.
      rewrite Hs. by apply (history_loop_more_fuel n).
    + intros b. rewrite Hcov. lia.
  - intros Hge fuel. unfold ethereum.initialBackfill, ethereum.getAndConsumeHistory.
    rewrite Hs. by apply history_loop_idle.
Qed.

End ethereum_properties.

(* ===================================================================== *)
(** * Parse failures in the two listeners                                  *)
(* ===================================================================== *)

Section parse_failures.
Import golang types noble ethereum.

Variable EvmLogToMessageState : Log -> option MessageState.
Variable DecodeString : string -> option (list byte).
Variable Keccak256 : list byte -> list byte.
Variable Parse : list byte -> option Message.
Variable HashString : list byte -> string.
Variable now : Time.

Local Abbreviation txToMessageState :=
  (txToMessageState DecodeString Keccak256 Parse HashString now).
Local Abbreviation event_states := (event_states DecodeString Keccak256 Parse HashString now).
Local Abbreviation event_unparsed :=
  (event_unparsed DecodeString Keccak256 Parse HashString now).

(** C5, as the code has it. In the EVM listener a log that fails to parse is
    logged and skipped, and every other log still leaves as its own
    transaction state. In the Noble listener, on a transaction with code 0
    whose "message" values can be sliced: an attribute that fails to decode
    or parse is skipped, and as long as every MessageSent event has an
    attribute that parses the result is the list of the message states of
    all attributes that parse; but when some MessageSent event has none,
    [txToMessageState] returns an error and no message state at all, those
    of the sibling events included. *)
Theorem C5_parse_failure_skips_only_within_an_event :
  (forall history,
     sent (consumeHistroy EvmLogToMessageState history)
     = (fun m => mkTxState (SourceTxHash m) [m]) <$> omap EvmLogToMessageState history
     /\ skipped (consumeHistroy EvmLogToMessageState history)
        = omap (fun l => match EvmLogToMessageState l with
                         | None => Some (log_TxHash l)
                         | Some _ => None
                         end) history)
  /\ (forall tx,
        Code (TxResult tx) = 0%N -> message_values_sliceable tx ->
        (Forall (fun event => ~ event_unparsed tx event) (Events (TxResult tx)) ->
         txToMessageState tx = Returned (Events (TxResult tx) ≫= event_states tx, None))
        /\ (Exists (event_unparsed tx) (Events (TxResult tx)) ->
            exists err, txToMessageState tx = Returned ([], Some err))).
Proof.
  split.
  - intros history. split; [apply consumeHistroy_sent|apply consumeHistroy_skipped].
  - intros tx Hcode Hok. unfold noble.txToMessageState. rewrite Hcode. simpl. split.
    + intros Hall.
      by rewrite (event_loop_all_parse DecodeString Keccak256 Parse HashString now tx
                    (Events (TxResult tx)) Hok Hall []).
    + intros Hex.
      apply (event_loop_some_unparsed DecodeString Keccak256 Parse HashString now tx
               (Events (TxResult tx)) Hok Hex []).
Qed.

End parse_failures.

(* ===================================================================== *)
(** * The listeners on concrete inputs                                     *)
(* ===================================================================== *)

Section listener_runs.
Import golang types noble ethereum fixtures.

(** The reference Keccak-256 agrees with the published digests of the empty
    input and of "abc". *)
Example Keccak256_empty :
  EncodeToString (Keccak256 [])
  = "c5d2460186f7233c927e7db2dcc703c0e500b653ca82273b7bfad8045d85a470"%string.
Proof. vm_compute. reflexivity. Qed.

Example Keccak256_abc :
  EncodeToString (Keccak256 [x61; x62; x63])
  = "4e03657aea45a94fc7d47ba826c8d667c0d1e6e33a64a036ec44f58fa12d6c45"%string.
Proof. vm_compute. reflexivity. Qed.

Ltac members :=
  repeat match goal with
         | H : _ ∈ _ :: _ |- _ => apply elem_of_cons in H as [->|H]
         | H : _ ∈ [] |- _ => by apply elem_of_nil in H
         end.

Lemma tx_one_message_sliceable : message_values_sliceable tx_one_message.
Proof.
  intros event Hev _ attr Hattr _. simpl in Hev. members. simpl in Hattr. members.
  vm_compute. lia.
Qed.

Lemma tx_second_attr_parses_sliceable : message_values_sliceable tx_second_attr_parses.
Proof.
  intros event Hev _ attr Hattr _. simpl in Hev. members. simpl in Hattr. members.
  all: vm_compute; lia.
Qed.

Lemma tx_second_event_undecodable_sliceable :
  message_values_sliceable tx_second_event_undecodable.
Proof.
  intros event Hev _ attr Hattr _. simpl in Hev. members.
  all: simpl in Hattr; members; vm_compute; lia.
Qed.

Lemma C6_noble_message_states_witness :
  exists l e,
    run_txToMessageState tx_one_message = Returned (l, e)
    /\ length l = 1
    /\ (Code (TxResult tx_one_message) <> 0%N -> l = [] /\ e = None)
    /\ Forall (fun ms =>
                 Code (TxResult tx_one_message) = 0%N
                 /\ lower_hex (IrisLookupId ms) = true
                 /\ built_from DecodeString Keccak256 HashString
                      (fun event => event ∈ Events (TxResult tx_one_message))
                      tx_one_message ms) l.
Proof.
  destruct (run_txToMessageState tx_one_message) as [[l e]|] eqn:Hrun;
    [|by vm_compute in Hrun].
  exists l, e. split; [done|]. split.
  - vm_compute in Hrun. by injection Hrun as <- <-.
  - exact (C6_noble_message_states DecodeString Keccak256 Parse HashString 1700000000%Z
             tx_one_message l e Hrun).
Defined.

Lemma C10_txToMessageState_panics_on_short_value_witness :
  (exists r, run_txToMessageState tx_one_message = Returned r)
  /\ run_txToMessageState tx_empty_message_value = Panicked.
Proof.
  split.
  - apply (proj1 (C10_txToMessageState_panics_on_short_value
                    DecodeString Keccak256 Parse HashString 1700000000%Z)).
    exact tx_one_message_sliceable.
  - apply (proj2 (C10_txToMessageState_panics_on_short_value
                    DecodeString Keccak256 Parse HashString 1700000000%Z)
             tx_hash EmptyString [] []).
    simpl. lia.
Defined.

(** The first MessageSent event parses on its own, yet the transaction that
    also carries an event whose message is not base64 yields no message
    state: the failure of one event discards its sibling. *)
Lemma C5_counterexample_sibling_event_discarded :
  (exists ms, run_txToMessageState tx_one_message = Returned ([ms], None))
  /\ run_txToMessageState tx_second_event_undecodable
     = Returned ([], Some (mkTxError tx_hash [FailedToDecode])).
Proof. split; [eexists|]; vm_compute; reflexivity. Qed.

Lemma C5_parse_failure_skips_only_within_an_event_witness :
  sent (consumeHistroy fixtures.EvmLogToMessageState [log_aa_1; log_aa_bad; log_bb])
  = [mkTxState "0xaa" [msg_aa_1];
     mkTxState "0xbb" [default blank (fixtures.EvmLogToMessageState log_bb)]]
  /\ skipped (consumeHistroy fixtures.EvmLogToMessageState [log_aa_1; log_aa_bad; log_bb])
     = ["0xaa"%string]
  /\ (exists ms, run_txToMessageState tx_second_attr_parses = Returned ([ms], None))
  /\ (exists err, run_txToMessageState tx_second_event_undecodable = Returned ([], Some err)).
Proof.
  destruct (C5_parse_failure_skips_only_within_an_event fixtures.EvmLogToMessageState
              DecodeString Keccak256 Parse HashString 1700000000%Z) as [Hevm Hnoble].
  destruct (Hevm [log_aa_1; log_aa_bad; log_bb]) as [-> ->].
  split; [vm_compute; reflexivity|]. split; [vm_compute; reflexivity|]. split.
  - destruct (Hnoble tx_second_attr_parses eq_refl tx_second_attr_parses_sliceable)
      as [Hall _].
    unfold run_txToMessageState. rewrite Hall.
    + eexists. vm_compute. reflexivity.
    + simpl. repeat constructor. intros [_ Hnil]. by vm_compute in Hnil.
  - destruct (Hnoble tx_second_event_undecodable eq_refl
                tx_second_event_undecodable_sliceable) as [_ Hsome].
    apply Hsome. simpl. apply Exists_cons_tl, Exists_cons_hd.
    split; vm_compute; reflexivity.
Defined.

(** C4 on the code: two history logs of the transaction 0xaa leave
    [consumeHistroy] as two transaction states of one message each, where
    [consumeStream] sends the same two logs as one transaction state that
    holds both messages. *)
Theorem C4_history_logs_of_one_tx_not_grouped :
  sent (consumeHistroy fixtures.EvmLogToMessageState [log_aa_1; log_aa_2])
  = [mkTxState "0xaa" [msg_aa_1]; mkTxState "0xaa" [msg_aa_2]]
  /\ sent (consumeStream fixtures.EvmLogToMessageState
             [StreamLog log_aa_1; StreamLog log_aa_2; Default] None)
     = [mkTxState "0xaa" [msg_aa_1; msg_aa_2]].
Proof. split; vm_compute; reflexivity. Qed.

Lemma C7_initial_backfill_coverage_witness :
  (exists effs,
     (forall fuel, 3 <= fuel ->
        initialBackfill fixtures.EvmLogToMessageState no_history fuel 0 250 1000 = Some effs)
     /\ queries effs = [mkFilterQuery 750 850; mkFilterQuery 850 950; mkFilterQuery 950 1000]
     /\ (forall b, covered (queries effs) b <-> (750 <= b <= 1000)%Z))
  /\ (forall fuel,
        initialBackfill fixtures.EvmLogToMessageState no_history fuel 1200 100 1000 = Some []).
Proof.
  split.
  - destruct (C7_initial_backfill_coverage fixtures.EvmLogToMessageState no_history 0 250 1000)
      as [Hscan _]; [simpl; lia..|].
    destruct Hscan as (effs & Hrun & Hcov & _); [simpl; lia|].
    exists effs. split; [exact Hrun|]. split; [|exact Hcov].
    specialize (Hrun 3 (le_n 3)). vm_compute in Hrun. by injection Hrun as <-.
  - destruct (C7_initial_backfill_coverage fixtures.EvmLogToMessageState no_history
                1200 100 1000) as [_ Hidle]; [simpl; lia..|].
    apply Hidle. simpl. lia.
Defined.

(** With no look-back and no configured start block the range is the single
    block 1000, and no query is issued for it; with a look-back period
    larger than the start block the subtraction wraps around, and again no
    query is issued. *)
Lemma C7_counterexample_no_query :
  initialBackfill fixtures.EvmLogToMessageState no_history 1 0 0 1000 = Some []
  /\ (startLookback 0 0 1000 <= 1000 <= 1000)%Z
  /\ initialBackfill fixtures.EvmLogToMessageState no_history 1 5 10 1000 = Some []
  /\ startLookback 5 10 1000 = (2 ^ 64 - 5)%Z.
Proof. repeat split; vm_compute; (reflexivity || discriminate). Qed.

End listener_runs.


(* ===================================================================== *)
(** * Properties of cmd/process.go: the processor                          *)
(* ===================================================================== *)

Section processor_properties.
Import golang types cmd.

Context {W : Type} {ext : External W}.
Variable cfg : Config.
Variable registeredDomains : gmap Domain (Chain W).
Variable range_order : list (Domain * list nat) -> list (Domain * list nat).
Hypothesis range_order_perm : forall l, range_order l ≡ₚ l.

Local Abbreviation filter_met := (filter_met cfg registeredDomains).
Local Abbreviation msg_step := (msg_step cfg registeredDomains).
Local Abbreviation broadcast_step := (broadcast_step registeredDomains).
Local Abbreviation run_pass := (run_pass cfg registeredDomains range_order).
Local Abbreviation process := (process cfg registeredDomains range_order).
Local Abbreviation worker_step := (worker_step cfg registeredDomains range_order).
Local Abbreviation StartProcessor := (StartProcessor cfg registeredDomains range_order).

Lemma same_message_refl m : same_message m m.
Proof. by repeat split. Qed.

Lemma same_message_trans m1 m2 m3 :
  same_message m1 m2 -> same_message m2 m3 -> same_message m1 m3.
Proof. unfold same_message. intros H12 H23. intuition congruence. Qed.

Lemma Forall2_same_message_refl l : Forall2 same_message l l.
Proof. induction l; constructor; [apply same_message_refl|done]. Qed.

Lemma Forall2_same_message_trans l1 l2 l3 :
  Forall2 same_message l1 l2 -> Forall2 same_message l2 l3 -> Forall2 same_message l1 l3.
Proof. apply Forall2_trans. intros ???. apply same_message_trans. Qed.

Lemma filter_met_same m m' : same_message m m' -> filter_met m' = filter_met m.
Proof.
  intros (_ & Hs & Hd & _ & _ & Hc & _).
  unfold cmd.filter_met, FilterDisabledCCTPRoutes, filterInvalidDestinationCallers.
  by rewrite Hs, Hd, Hc.
Qed.

Lemma FilterDisabledCCTPRoutes_met m :
  FilterDisabledCCTPRoutes cfg m = true -> filter_met m = true.
Proof. intros H. unfold cmd.filter_met. by rewrite H. Qed.

Lemma unregistered_destination_met m :
  unregistered_destination registeredDomains m = true -> filter_met m = true.
Proof.
  unfold unregistered_destination. intros H%bool_decide_eq_true.
  unfold cmd.filter_met, filterInvalidDestinationCallers. rewrite H. apply orb_true_r.
Qed.

(** A message that meets a filter is marked Filtered and nothing else
    happens: no call, no sleep, [requeue] and [broadcastMsgs] untouched. *)
Lemma msg_step_filtered st i msg :
  tx_msgs st !! i = Some msg -> filter_met msg = true ->
  msg_step st i
  = mkPass (<[i := set_status Filtered msg]> (tx_msgs st)) (broadcastMsgs st) (requeue st)
      (pass_world st) (pass_trace st).
Proof. intros Hm Hf. unfold cmd.msg_step. by rewrite Hm, Hf. Qed.

(** A message that meets no filter and is neither Created nor Pending is
    left alone; in particular an Attested message is not appended to
    [broadcastMsgs]. *)
Lemma msg_step_settled st i msg :
  tx_msgs st !! i = Some msg -> filter_met msg = false ->
  status msg <> Created -> status msg <> Pending ->
  msg_step st i = st.
Proof.
  intros Hm Hf Hc Hp. unfold cmd.msg_step. rewrite Hm, Hf.
  destruct (status msg) eqn:Hs; try done; simpl; rewrite list_insert_id by done;
    by destruct st.
Qed.

(** The effect of the loop body on the message at index [i]. *)
Lemma msg_step_inv st i m :
  tx_msgs st !! i = Some m ->
  exists m' evs,
    tx_msgs (msg_step st i) = <[i := m']> (tx_msgs st)
    /\ pass_trace (msg_step st i) = pass_trace st ++ evs
    /\ same_message m m'
    /\ (filter_met m = true -> status m' = Filtered)
    /\ (broadcastMsgs (msg_step st i) = broadcastMsgs st
        \/ (status m' = Attested
            /\ broadcastMsgs (msg_step st i)
               = <[DestDomain m := default [] (broadcastMsgs st !! DestDomain m) ++ [i]]>
                   (broadcastMsgs st)))
    /\ attestation_calls_enabled cfg evs
    /\ Forall (fun e => is_broadcast_call e = false) evs.
Proof.
  intros Hm. destruct (filter_met m) eqn:Hf.
  - rewrite (msg_step_filtered st i m Hm Hf). exists (set_status Filtered m), []. simpl.
    rewrite app_nil_r. repeat split; auto; constructor.
  - assert (route_disabled cfg (SourceDomain m) (DestDomain m) = false) as Hroute.
    { unfold cmd.filter_met, FilterDisabledCCTPRoutes in Hf.
      by apply orb_false_iff in Hf as [? _]. }
    unfold cmd.msg_step. rewrite Hm, Hf.
    destruct (Status_eqb (status m) Created || Status_eqb (status m) Pending) eqn:Hs.
    + destruct (CheckAttestation _ _ _ _ _ _) as [response w'].
      unfold attest_step.
      destruct response as [r|]; simpl;
        repeat match goal with
               | |- context [if ?b then _ else _] => destruct b eqn:?; simpl
               end;
        eexists _, _; (split; [reflexivity|]); (split; [reflexivity|]);
        repeat split; auto; try discriminate; repeat constructor; auto.
    + exists m, []. simpl. rewrite app_nil_r. repeat split; auto; try discriminate; constructor.
Qed.

Lemma msg_step_length st i : length (tx_msgs (msg_step st i)) = length (tx_msgs st).
Proof.
  destruct (tx_msgs st !! i) as [m|] eqn:Hm.
  - destruct (msg_step_inv st i m Hm) as (m' & evs & -> & _). apply length_insert.
  - unfold cmd.msg_step. by rewrite Hm.
Qed.

Lemma msg_step_other st i j : i <> j -> tx_msgs (msg_step st i) !! j = tx_msgs st !! j.
Proof.
  intros Hne. destruct (tx_msgs st !! i) as [m|] eqn:Hm.
  - destruct (msg_step_inv st i m Hm) as (m' & evs & -> & _).
    by apply list_lookup_insert_ne.
  - unfold cmd.msg_step. by rewrite Hm.
Qed.

Lemma msg_loop_S st n :
  foldl msg_step st (seq 0 (S n)) = msg_step (foldl msg_step st (seq 0 n)) n.
Proof. by rewrite seq_S, foldl_app. Qed.

(** What holds after the first [n] messages went through the loop body:
    the messages are the same messages; those from [n] on are untouched; of
    the first [n], those that meet a filter are Filtered; [broadcastMsgs]
    holds indices below [n] of Attested messages; and the calls made are
    attestation calls for enabled routes. *)
Lemma msg_loop_inv st0 n :
  broadcastMsgs st0 = ∅ -> n <= length (tx_msgs st0) ->
  let st := foldl msg_step st0 (seq 0 n) in
  Forall2 same_message (tx_msgs st0) (tx_msgs st)
  /\ (forall j, n <= j -> tx_msgs st !! j = tx_msgs st0 !! j)
  /\ (forall j m, j < n -> tx_msgs st !! j = Some m -> filter_met m = true ->
                  status m = Filtered)
  /\ (forall d idxs j, broadcastMsgs st !! d = Some idxs -> j ∈ idxs ->
                       j < n /\ exists m, tx_msgs st !! j = Some m /\ status m = Attested)
  /\ (exists evs, pass_trace st = pass_trace st0 ++ evs
                  /\ attestation_calls_enabled cfg evs
                  /\ Forall (fun e => is_broadcast_call e = false) evs).
Proof.
  intros Hbm. induction n as [|n IH]; intros Hn.
  - simpl. split; [apply Forall2_same_message_refl|]. split; [done|].
    split; [intros; lia|]. split.
    + intros d idxs j Hd. by rewrite Hbm, lookup_empty in Hd.
    + exists []. rewrite app_nil_r. repeat split; constructor.
  - intros st'. unfold st'. clear st'. rewrite msg_loop_S.
    destruct IH as (Hsame & Hlater & Hfilt & Hbc & evs & Htr & Hen & Hnb); [lia|].
    set (st := foldl msg_step st0 (seq 0 n)) in *.
    assert (is_Some (tx_msgs st !! n)) as [m Hm].
    { apply lookup_lt_is_Some. rewrite <- (Forall2_length _ _ _ Hsame). lia. }
    destruct (msg_step_inv st n m Hm) as (m' & evs' & Hmsgs & Htr' & Hsm & Hf & Hbm' & Hen' & Hnb').
    assert (n < length (tx_msgs st)) as Hlt by (by apply lookup_lt_Some in Hm).
    split; [|split; [|split; [|split]]].
    + rewrite Hmsgs. eapply Forall2_same_message_trans; [exact Hsame|].
      rewrite <- (list_insert_id _ _ _ Hm) at 1.
      apply Forall2_insert; [apply Forall2_same_message_refl|done].
    + intros j Hj. rewrite msg_step_other by lia. apply Hlater. lia.
    + intros j mj Hj. destruct (decide (j = n)) as [->|Hne].
      * rewrite Hmsgs, list_lookup_insert_eq by done. intros [= <-] Hmet.
        apply Hf. by rewrite <- (filter_met_same m m').
      * rewrite msg_step_other by done. apply Hfilt. lia.
    + intros d idxs j Hd Hj.
      assert (j ∈ default [] (broadcastMsgs st !! d) \/ (j = n /\ status m' = Attested))
        as [Hold|[-> Hatt]].
      { destruct Hbm' as [Heq|[Hatt Heq]]; rewrite Heq in Hd.
        - left. by rewrite Hd.
        - destruct (decide (DestDomain m = d)) as [<-|Hne].
          + rewrite lookup_insert_eq in Hd. injection Hd as <-.
            apply elem_of_app in Hj as [Hj|Hj]; [by left|].
            apply list_elem_of_singleton in Hj. by right.
          + rewrite lookup_insert_ne in Hd by done. left. by rewrite Hd. }
      * destruct (broadcastMsgs st !! d) as [old|] eqn:Hlook; simpl in Hold;
          [|by apply elem_of_nil in Hold].
        destruct (Hbc d old j Hlook Hold) as (Hjn & mj & Hmj & Hs).
        split; [lia|]. exists mj. by rewrite msg_step_other by lia.
      * split; [lia|]. exists m'. by rewrite Hmsgs, list_lookup_insert_eq.
    + exists (evs ++ evs'). rewrite Htr', Htr, app_assoc. split; [done|].
      split; by apply Forall_app.
Qed.

Lemma mark_Complete_same now m : same_message m (mark_Complete now m).
Proof. by repeat split. Qed.

Lemma foldl_mark_Complete now idxs : forall ms : list MessageState,
  let ms' := foldl (fun ms i => alter (mark_Complete now) i ms) ms idxs in
  Forall2 same_message ms ms' /\ (forall j, j ∉ idxs -> ms' !! j = ms !! j).
Proof.
  induction idxs as [|i idxs IH]; intros ms; simpl.
  - split; [apply Forall2_same_message_refl|done].
  - destruct (IH (alter (mark_Complete now) i ms)) as [Hsame Hother]. split.
    + eapply Forall2_same_message_trans; [|exact Hsame].
      apply Forall2_alter_r; [apply Forall2_same_message_refl|].
      intros m m' _ _ Hmm'. eapply same_message_trans; [exact Hmm'|].
      apply mark_Complete_same.
    + intros j Hj. apply not_elem_of_cons in Hj as [Hne Hj].
      rewrite Hother by done. by apply list_lookup_alter_ne.
Qed.

(** The body of the broadcast loop touches only the messages it was handed,
    and calls only [Broadcast]. *)
Lemma broadcast_step_inv st d idxs :
  let st' := broadcast_step st (d, idxs) in
  Forall2 same_message (tx_msgs st) (tx_msgs st')
  /\ (forall j, j ∉ idxs -> tx_msgs st' !! j = tx_msgs st !! j)
  /\ (exists evs, pass_trace st' = pass_trace st ++ evs
                  /\ Forall (fun e => is_attestation_call e = false) evs).
Proof.
  unfold cmd.broadcast_step. destruct (registeredDomains !! d) as [chain|].
  - destruct (Broadcast chain _ _) as [[err|] w]; simpl.
    + split; [apply Forall2_same_message_refl|]. split; [done|].
      eexists. split; [done|]. by repeat constructor.
    + destruct (foldl_mark_Complete (Now w) idxs (tx_msgs st)) as [Hsame Hother].
      split; [done|]. split; [done|]. eexists. split; [done|]. by repeat constructor.
  - simpl. split; [apply Forall2_same_message_refl|]. split; [done|].
    exists []. by rewrite app_nil_r.
Qed.

Lemma broadcast_loop_inv entries : forall st,
  let st' := foldl broadcast_step st entries in
  Forall2 same_message (tx_msgs st) (tx_msgs st')
  /\ (forall j, (forall d idxs, (d, idxs) ∈ entries -> j ∉ idxs) ->
                tx_msgs st' !! j = tx_msgs st !! j)
  /\ (exists evs, pass_trace st' = pass_trace st ++ evs
                  /\ Forall (fun e => is_attestation_call e = false) evs).
Proof.
  induction entries as [|[d idxs] entries IH]; intros st; cbn [foldl].
  - split; [apply Forall2_same_message_refl|]. split; [done|].
    exists []. by rewrite app_nil_r.
  - destruct (broadcast_step_inv st d idxs) as (Hsame1 & Hother1 & evs1 & Htr1 & Hev1).
    destruct (IH (broadcast_step st (d, idxs))) as (Hsame & Hother & evs & Htr & Hev).
    split; [by eapply Forall2_same_message_trans|]. split.
    + intros j Hj. rewrite Hother by (intros d' idxs' Hin; apply (Hj d' idxs'); by right).
      apply Hother1. apply (Hj d idxs). by left.
    + exists (evs1 ++ evs). rewrite Htr, Htr1, app_assoc. split; [done|].
      by apply Forall_app.
Qed.

Lemma attestation_calls_enabled_app tr evs :
  attestation_calls_enabled cfg tr -> attestation_calls_enabled cfg evs ->
  attestation_calls_enabled cfg (tr ++ evs).
Proof. intros. by apply Forall_app. Qed.

Lemma attestation_calls_enabled_other evs :
  Forall (fun e => is_attestation_call e = false) evs -> attestation_calls_enabled cfg evs.
Proof. intros H. eapply Forall_impl; [exact H|]. by intros []. Qed.

(** One pass over a transaction: the messages stay the same messages, every
    message that meets a filter ends the pass Filtered, and the pass calls
    the attestation service for enabled routes only. *)
Lemma run_pass_inv tx w tr :
  let st := run_pass tx w tr in
  Forall2 same_message (Msgs tx) (tx_msgs st)
  /\ (forall j m, tx_msgs st !! j = Some m -> filter_met m = true -> status m = Filtered)
  /\ (attestation_calls_enabled cfg tr -> attestation_calls_enabled cfg (pass_trace st)).
Proof.
  unfold cmd.run_pass.
  destruct (msg_loop_inv (mkPass (Msgs tx) ∅ false w tr) (length (Msgs tx)))
    as (Hsame1 & _ & Hfilt & Hbc & evs1 & Htr1 & Hen1 & _); [done|done|].
  set (st1 := foldl msg_step _ _) in *.
  destruct (broadcast_loop_inv (range_order (map_to_list (broadcastMsgs st1))) st1)
    as (Hsame2 & Hother & evs2 & Htr2 & Hev2).
  set (st2 := foldl broadcast_step _ _) in *. simpl in *.
  split; [by eapply Forall2_same_message_trans|]. split.
  - intros j m Hm Hmet.
    destruct (Forall2_lookup_r _ _ _ j m Hsame2 Hm) as (m1 & Hm1 & Hsm).
    assert (status m1 = Filtered) as Hs1.
    { apply (Hfilt j); [|done|by rewrite <- (filter_met_same m1 m)].
      apply lookup_lt_Some in Hm1. by rewrite (Forall2_length _ _ _ Hsame1). }
    rewrite Hother in Hm.
    + rewrite Hm1 in Hm. by injection Hm as <-.
    + intros d idxs Hin Hj. rewrite range_order_perm in Hin.
      apply elem_of_map_to_list in Hin.
      destruct (Hbc d idxs j Hin Hj) as (_ & m1' & Hm1' & Hatt).
      rewrite Hm1 in Hm1'. injection Hm1' as <-. by rewrite Hs1 in Hatt.
  - intros Htr. rewrite Htr2, Htr1.
    apply attestation_calls_enabled_app; [by apply attestation_calls_enabled_app|].
    by apply attestation_calls_enabled_other.
Qed.

(** A pass over messages that all meet a filter makes no call and does not
    set [requeue]. *)
Lemma msg_loop_all_met st0 n :
  Forall (fun m => filter_met m = true) (tx_msgs st0) ->
  let st := foldl msg_step st0 (seq 0 n) in
  Forall (fun m => filter_met m = true) (tx_msgs st)
  /\ broadcastMsgs st = broadcastMsgs st0 /\ requeue st = requeue st0
  /\ pass_world st = pass_world st0 /\ pass_trace st = pass_trace st0.
Proof.
  intros Hall. induction n as [|n IH]; [done|].
  intros st'. unfold st'. clear st'. rewrite msg_loop_S.
  destruct IH as (Hmet & Hbm & Hrq & Hw & Htr).
  set (st := foldl msg_step st0 (seq 0 n)) in *.
  destruct (tx_msgs st !! n) as [m|] eqn:Hm.
  - assert (filter_met m = true) as Hmm by (by eapply Forall_lookup_1 in Hmet).
    rewrite (msg_step_filtered st n m Hm Hmm). simpl.
    split; [|done]. apply Forall_insert; [done|exact Hmm].
  - unfold cmd.msg_step. by rewrite Hm.
Qed.

Lemma run_pass_all_met tx w tr :
  Forall (fun m => filter_met m = true) (Msgs tx) ->
  requeue (run_pass tx w tr) = false
  /\ pass_world (run_pass tx w tr) = w
  /\ pass_trace (run_pass tx w tr) = tr.
Proof.
  intros Hall. unfold cmd.run_pass.
  destruct (msg_loop_all_met (mkPass (Msgs tx) ∅ false w tr) (length (Msgs tx)) Hall)
    as (_ & Hbm & Hrq & Hw & Htr).
  set (st1 := foldl msg_step _ _) in *. rewrite Hbm. simpl.
  rewrite map_to_list_empty.
  assert (range_order [] = []) as -> by (apply Permutation_nil_r, range_order_perm).
  done.
Qed.

Lemma process_State dequeuedTx p :
  exists tx0,
    (State p !! LookupKey (TxHash dequeuedTx) = Some tx0
     \/ (State p !! LookupKey (TxHash dequeuedTx) = None
         /\ tx0 = mkTxState (TxHash dequeuedTx) (set_status Created <$> Msgs dequeuedTx)))
    /\ (forall key, key <> LookupKey (TxHash dequeuedTx) ->
                    State (process dequeuedTx p) !! key = State p !! key)
    /\ State (process dequeuedTx p) !! LookupKey (TxHash dequeuedTx)
       = Some (mkTxState (TxHash tx0) (tx_msgs (run_pass tx0 (world p) (trace p))))
    /\ trace (process dequeuedTx p) = pass_trace (run_pass tx0 (world p) (trace p))
    /\ processingQueue (process dequeuedTx p)
       = (if requeue (run_pass tx0 (world p) (trace p))
          then processingQueue p
                 ++ [mkTxState (TxHash tx0) (tx_msgs (run_pass tx0 (world p) (trace p)))]
          else processingQueue p).
Proof.
  unfold cmd.process, load_or_store.
  destruct (State p !! LookupKey (TxHash dequeuedTx)) as [tx0|] eqn:Hload.
  - exists tx0. simpl. split; [by left|]. split; [|split; [|done]].
    + intros key Hne. by rewrite lookup_insert_ne.
    + by rewrite lookup_insert_eq.
  - eexists. simpl. split; [by right|]. split; [|split; [|done]].
    + intros key Hne. by rewrite !lookup_insert_ne.
    + by rewrite lookup_insert_eq.
Qed.

Section settled.

Variable Q : MessageState -> bool.
Hypothesis Q_met : forall m, Q m = true -> filter_met m = true.

Lemma process_settled dequeuedTx p :
  settled_as_Filtered Q (State p) -> settled_as_Filtered Q (State (process dequeuedTx p)).
Proof.
  intros Hinv key tx m Hlook Hin HQ.
  destruct (process_State dequeuedTx p) as (tx0 & _ & Hother & Hkey & _).
  destruct (decide (key = LookupKey (TxHash dequeuedTx))) as [->|Hne].
  - rewrite Hkey in Hlook. injection Hlook as <-. simpl in Hin.
    apply list_elem_of_lookup in Hin as [j Hj].
    destruct (run_pass_inv tx0 (world p) (trace p)) as (_ & Hfilt & _).
    apply (Hfilt j m Hj). by apply Q_met.
  - rewrite Hother in Hlook by done. by apply (Hinv key tx m).
Qed.

Lemma StartProcessor_settled n : forall p,
  settled_as_Filtered Q (State p) -> settled_as_Filtered Q (State (StartProcessor n p)).
Proof.
  induction n as [|n IH]; intros p Hinv; [done|]. simpl. apply IH.
  unfold cmd.worker_step. destruct (processingQueue p) as [|dequeuedTx rest]; [done|].
  by apply process_settled.
Qed.

End settled.

Lemma process_trace dequeuedTx p :
  attestation_calls_enabled cfg (trace p) ->
  attestation_calls_enabled cfg (trace (process dequeuedTx p)).
Proof.
  intros Htr. destruct (process_State dequeuedTx p) as (tx0 & _ & _ & _ & -> & _).
  by apply run_pass_inv.
Qed.

Lemma StartProcessor_trace n : forall p,
  attestation_calls_enabled cfg (trace p) ->
  attestation_calls_enabled cfg (trace (StartProcessor n p)).
Proof.
  induction n as [|n IH]; intros p Htr; [done|]. simpl. apply IH.
  unfold cmd.worker_step. destruct (processingQueue p) as [|dequeuedTx rest]; [done|].
  by apply process_trace.
Qed.

(** [FilterDisabledCCTPRoutes] decides the condition of the specification. *)
Lemma route_disabled_spec sourceDomain destDomain :
  route_disabled cfg sourceDomain destDomain = true
  <-> route_not_in_EnabledRoutes cfg sourceDomain destDomain.
Proof.
  unfold route_disabled, route_not_in_EnabledRoutes.
  destruct (EnabledRoutes cfg !! sourceDomain) as [val|]; [|by split; [left|]].
  assert (existsb (fun dd => N.eqb dd destDomain) val = false <-> destDomain ∉ val) as Hval.
  { induction val as [|dd val IH]; simpl.
    - split; [intros _; apply not_elem_of_nil|done].
    - rewrite orb_false_iff, IH, not_elem_of_cons, N.eqb_neq.
      split; intros [? ?]; split; try done; by apply not_eq_sym. }
  rewrite negb_true_iff, Hval. split.
  - intros Hnot. right. by exists val.
  - intros [[=]|(val' & [= <-] & Hnot)]. done.
Qed.

Lemma settled_as_Filtered_spec store :
  settled_as_Filtered (FilterDisabledCCTPRoutes cfg) store
  <-> disabled_routes_Filtered cfg store.
Proof.
  unfold settled_as_Filtered, disabled_routes_Filtered, FilterDisabledCCTPRoutes.
  split; intros H key tx m Hlook Hin Hroute; apply (H key tx m Hlook Hin);
    by apply route_disabled_spec.
Qed.

Lemma attestation_calls_enabled_spec tr :
  attestation_calls_enabled cfg tr <-> no_attestation_call_off_route cfg tr.
Proof.
  unfold attestation_calls_enabled, no_attestation_call_off_route.
  rewrite Forall_forall. split.
  - intros H i h s d Hin Hroute. specialize (H _ Hin). simpl in H.
    apply route_disabled_spec in Hroute. congruence.
  - intros H e Hin. destruct e as [i h s d| |]; [|done..].
    destruct (route_disabled cfg s d) eqn:Hr; [|done].
    destruct (H i h s d Hin). by apply route_disabled_spec.
Qed.

(** C3, as the code has it. [FilterDisabledCCTPRoutes] returns true exactly
    for a message whose route is not in EnabledRoutes (its source domain has
    no entry, or the entry does not list its destination domain). A pass of
    the worker works on the dequeued transaction state when its hash is not
    stored yet, and on the stored one otherwise; it leaves every message of
    that transaction state whose route is not in EnabledRoutes with status
    Filtered, the first pass included. Every iteration of the worker keeps
    two facts: every stored message with such a route has status Filtered,
    so none is Attested or Complete, and no call of the attestation service
    was made for such a route. Both hold at start-up, with an empty store
    and no call made, hence after any number of iterations, whatever the
    queue delivers. *)
Theorem C3_disabled_route_is_filtered :
  (forall m,
     FilterDisabledCCTPRoutes cfg m = true
     <-> route_not_in_EnabledRoutes cfg (SourceDomain m) (DestDomain m))
  /\ (forall dequeuedTx p,
        exists tx',
          State (process dequeuedTx p) !! LookupKey (TxHash dequeuedTx) = Some tx'
          /\ Forall2 (fun m m' =>
                        same_message m m'
                        /\ (route_not_in_EnabledRoutes cfg (SourceDomain m) (DestDomain m) ->
                            status m' = Filtered))
               (match State p !! LookupKey (TxHash dequeuedTx) with
                | Some tx => Msgs tx
                | None => Msgs dequeuedTx
                end)
               (Msgs tx'))
  /\ (forall n p0,
        disabled_routes_Filtered cfg (State p0) ->
        no_attestation_call_off_route cfg (trace p0) ->
        disabled_routes_Filtered cfg (State (StartProcessor n p0))
        /\ no_attestation_call_off_route cfg (trace (StartProcessor n p0)))
  /\ (forall n queue w,
        disabled_routes_Filtered cfg (State (StartProcessor n (mkProcessor ∅ queue w [])))
        /\ no_attestation_call_off_route cfg
             (trace (StartProcessor n (mkProcessor ∅ queue w [])))).
Proof.
  assert (forall n p0,
            disabled_routes_Filtered cfg (State p0) ->
            no_attestation_call_off_route cfg (trace p0) ->
            disabled_routes_Filtered cfg (State (StartProcessor n p0))
            /\ no_attestation_call_off_route cfg (trace (StartProcessor n p0))) as Hever.
  { intros n p0 Hinv Htr. split.
    - apply settled_as_Filtered_spec.
      apply StartProcessor_settled; [apply FilterDisabledCCTPRoutes_met|].
      by apply settled_as_Filtered_spec.
    - apply attestation_calls_enabled_spec.
      by apply StartProcessor_trace, attestation_calls_enabled_spec. }
  split; [intros m; apply route_disabled_spec|]. split; [|split; [exact Hever|]].
  - intros dequeuedTx p.
    destruct (process_State dequeuedTx p) as (tx0 & Hload & _ & Hkey & _).
    eexists. split; [exact Hkey|]. simpl.
    destruct (run_pass_inv tx0 (world p) (trace p)) as (Hsame & Hfilt & _).
    assert (Forall2 same_message
              (match State p !! LookupKey (TxHash dequeuedTx) with
               | Some tx => Msgs tx
               | None => Msgs dequeuedTx
               end)
              (tx_msgs (run_pass tx0 (world p) (trace p)))) as Hsame'.
    { destruct Hload as [->|[-> ->]]; [done|].
      simpl in Hsame. by rewrite Forall2_fmap_l in Hsame. }
    apply Forall2_same_length_lookup_2; [exact (Forall2_length _ _ _ Hsame')|].
    intros j m m' Hm Hm'.
    pose proof (Forall2_lookup_lr _ _ _ j m m' Hsame' Hm Hm') as Hsm.
    split; [exact Hsm|]. intros Hdis. apply (Hfilt j m' Hm').
    rewrite (filter_met_same m m' Hsm).
    apply FilterDisabledCCTPRoutes_met. by apply route_disabled_spec.
  - intros n queue w. apply Hever; simpl.
    + intros key tx m Hlook. by rewrite lookup_empty in Hlook.
    + intros i h s d Hin. by apply elem_of_nil in Hin.
Qed.

(** C9: for a message whose destination domain has no registered chain,
    [filterInvalidDestinationCallers] returns true; the loop body marks the
    message Filtered and does nothing else (no call, [requeue] and
    [broadcastMsgs] untouched); every pass over a transaction that holds the
    message leaves it Filtered; and a pass over a transaction made of such
    messages only makes no call and does not requeue the transaction. *)
Theorem C9_unregistered_destination_is_filtered msg :
  registeredDomains !! DestDomain msg = None ->
  filterInvalidDestinationCallers registeredDomains msg = true
  /\ (forall st i,
        tx_msgs st !! i = Some msg ->
        msg_step st i
        = mkPass (<[i := set_status Filtered msg]> (tx_msgs st)) (broadcastMsgs st)
            (requeue st) (pass_world st) (pass_trace st))
  /\ (forall tx w tr i,
        Msgs tx !! i = Some msg ->
        exists msg', tx_msgs (run_pass tx w tr) !! i = Some msg'
                     /\ same_message msg msg' /\ status msg' = Filtered)
  /\ (forall tx w tr,
        Forall (fun m => registeredDomains !! DestDomain m = None) (Msgs tx) ->
        requeue (run_pass tx w tr) = false /\ pass_trace (run_pass tx w tr) = tr).
Proof.
  intros Hnone.
  assert (filter_met msg = true) as Hmet.
  { apply unregistered_destination_met. by apply bool_decide_eq_true. }
  split; [|split; [|split]].
  - unfold filterInvalidDestinationCallers. by rewrite Hnone.
  - intros st i Hm. by apply msg_step_filtered.
  - intros tx w tr i Hm.
    destruct (run_pass_inv tx w tr) as (Hsame & Hfilt & _).
    destruct (Forall2_lookup_l _ _ _ i msg Hsame Hm) as (msg' & Hm' & Hsm).
    exists msg'. split; [done|]. split; [done|].
    apply (Hfilt i msg' Hm'). by rewrite (filter_met_same msg msg').
  - intros tx w tr Hall.
    destruct (run_pass_all_met tx w tr) as (Hrq & _ & Htr); [|done].
    eapply Forall_impl; [exact Hall|]. intros m Hm.
    apply unregistered_destination_met. by apply bool_decide_eq_true.
Qed.

(** C2: the attest step, for a message at index [i] that meets no filter and
    is Created or Pending, when [CheckAttestation] answers [response].
    A nil response leaves the message as it is and sets [requeue]; so does a
    "pending_confirmations" response, except that a Created message becomes
    Pending; a "complete" response makes the message Attested, stores the
    attestation, leaves [requeue] as it was and appends the message to
    [broadcastMsgs] under its destination domain. *)
Theorem C2_attest_step_cases st i msg response w' :
  tx_msgs st !! i = Some msg ->
  filter_met msg = false ->
  status msg = Created \/ status msg = Pending ->
  CheckAttestation (AttestationBaseUrl cfg) (IrisLookupId msg) (SourceTxHash msg)
    (SourceDomain msg) (DestDomain msg) (pass_world st) = (response, w') ->
  exists msg',
    tx_msgs (msg_step st i) = <[i := msg']> (tx_msgs st)
    /\ same_message msg msg'
    /\ match response with
       | None =>
           msg' = msg /\ requeue (msg_step st i) = true
           /\ broadcastMsgs (msg_step st i) = broadcastMsgs st
       | Some r =>
           (resp_Status r = "pending_confirmations"%string ->
            status msg' = Pending /\ Attestation msg' = Attestation msg
            /\ (status msg = Pending -> msg' = msg)
            /\ requeue (msg_step st i) = true
            /\ broadcastMsgs (msg_step st i) = broadcastMsgs st)
           /\ (resp_Status r = "complete"%string ->
               status msg' = Attested /\ Attestation msg' = resp_Attestation r
               /\ requeue (msg_step st i) = requeue st
               /\ broadcastMsgs (msg_step st i)
                  = <[DestDomain msg := default [] (broadcastMsgs st !! DestDomain msg) ++ [i]]>
                      (broadcastMsgs st))
       end.
Proof.
  intros Hm Hmet Hs Hcall. unfold cmd.msg_step. rewrite Hm, Hmet.
  assert ((Status_eqb (status msg) Created || Status_eqb (status msg) Pending)%bool = true)
    as -> by (by destruct Hs as [-> | ->]).
  rewrite Hcall. unfold attest_step. destruct response as [r|].
  - destruct (String.eqb (resp_Status r) "pending_confirmations") eqn:Hpend.
    + apply String.eqb_eq in Hpend.
      assert (resp_Status r <> "complete"%string) as Hnc by (by rewrite Hpend).
      destruct Hs as [Hs|Hs]; rewrite Hs; simpl.
      * eexists. split; [reflexivity|]. split; [by repeat split|]. split; [|done].
        intros _. simpl. rewrite orb_true_r. by repeat split.
      * exists msg. split; [reflexivity|]. split; [apply same_message_refl|].
        split; [|done]. intros _. rewrite orb_true_r. by repeat split.
    + apply String.eqb_neq in Hpend. rewrite andb_false_r.
      destruct (String.eqb (resp_Status r) "complete") eqn:Hcomp; simpl.
      * eexists. split; [reflexivity|]. split; [by repeat split|]. split; [done|].
        intros _. simpl. rewrite orb_false_r. by repeat split.
      * apply String.eqb_neq in Hcomp.
        exists msg. split; [reflexivity|]. split; [apply same_message_refl|]. by split.
  - simpl. exists msg. split; [reflexivity|]. split; [apply same_message_refl|].
    rewrite orb_true_r. by repeat split.
Qed.

(** A pass over messages that meet no filter and are neither Created nor
    Pending (Attested ones, for instance) does nothing at all: no message is
    handed to [Broadcast] and the transaction is not requeued. *)
Lemma run_pass_all_settled tx w tr :
  Forall (fun m => filter_met m = false /\ status m <> Created /\ status m <> Pending)
    (Msgs tx) ->
  run_pass tx w tr = mkPass (Msgs tx) ∅ false w tr.
Proof.
  intros Hall. unfold cmd.run_pass.
  assert (forall l, foldl msg_step (mkPass (Msgs tx) ∅ false w tr) l
                    = mkPass (Msgs tx) ∅ false w tr) as ->.
  { induction l as [|i l IH]; [done|]. cbn [foldl].
    assert (msg_step (mkPass (Msgs tx) ∅ false w tr) i = mkPass (Msgs tx) ∅ false w tr)
      as ->; [|exact IH].
    destruct (Msgs tx !! i) as [m|] eqn:Hm.
    - destruct (Forall_lookup_1 _ _ _ _ Hall Hm) as (Hmet & Hc & Hp).
      by apply msg_step_settled with (msg := m).
    - unfold cmd.msg_step. simpl. by rewrite Hm. }
  simpl. rewrite map_to_list_empty.
  by assert (range_order [] = []) as -> by (apply Permutation_nil_r, range_order_perm).
Qed.

(** The worker blocks on an empty queue. *)
Lemma StartProcessor_blocked n : forall p,
  processingQueue p = [] -> StartProcessor n p = p.
Proof.
  induction n as [|n IH]; intros p Hq; [done|]. simpl.
  unfold cmd.worker_step. rewrite Hq. by apply IH.
Qed.

Lemma StartProcessor_add n k : forall p,
  StartProcessor (n + k) p = StartProcessor k (StartProcessor n p).
Proof. induction n as [|n IH]; intros p; [done|]. simpl. apply IH. Qed.

End processor_properties.

(* ===================================================================== *)
(** * Properties of cmd/process.go: the lookup API                         *)
(* ===================================================================== *)

Section api_properties.
Import golang types cmd.

(** Without a domain parameter the handler answers 200 with the messages of
    a stored transaction and 404 otherwise. *)
Lemma getTxByHash_no_domain (store : gmap string TxState) txHash :
  getTxByHash store txHash EmptyString
  = match store !! txHash with
    | Some tx => ([mkJSON StatusOK (BodyMsgs (Msgs tx))], Returned tt)
    | None => ([mkJSON StatusNotFound (BodyMessage "message not found")], Returned tt)
    end.
Proof.
  unfold getTxByHash. simpl. by destruct (store !! txHash) as [tx|] eqn:Hload.
Qed.

(** With a domain parameter and no stored transaction, line 246 reads
    [tx.Msgs] through the nil [tx]. *)
Lemma getTxByHash_absent_with_domain (store : gmap string TxState) txHash domain :
  store !! txHash = None -> domain <> EmptyString ->
  (getTxByHash store txHash domain).2 = Panicked.
Proof.
  intros Hload Hdom. unfold getTxByHash. destruct (ParseInt domain) as [domainInt err].
  rewrite Hload. apply String.eqb_neq in Hdom. by rewrite Hdom.
Qed.

End api_properties.

(* ===================================================================== *)
(** * The processor and the lookup API on concrete inputs                  *)
(* ===================================================================== *)

Section processor_runs.
Import golang types cmd fixtures.

Lemma map_order_perm l : map_order l ≡ₚ l.
Proof. done. Qed.

(** C1 on the code, scenario "broadcast failure then success" of the
    specification: the attestation is complete at once and the first call of
    [Broadcast] fails. After the first pass the message is Attested and the
    transaction is back on the queue; the second pass dequeues it, makes no
    call of [Broadcast] and does not requeue it; from then on the queue is
    empty and the message stays Attested: it never becomes Complete, although
    a second broadcast would succeed. *)
Theorem C1_attested_message_is_not_rebroadcast k :
  (statuses (run_scenario6 1) "0xaa" = [Attested]
   /\ length (processingQueue (run_scenario6 1)) = 1
   /\ broadcast_calls (run_scenario6 1) = 1)
  /\ (statuses (run_scenario6 (2 + k)) "0xaa" = [Attested]
      /\ processingQueue (run_scenario6 (2 + k)) = []
      /\ broadcast_calls (run_scenario6 (2 + k)) = 1).
Proof.
  split; [by vm_compute|].
  unfold run_scenario6. rewrite StartProcessor_add.
  rewrite (StartProcessor_blocked cfg_4_to_0 registered_0 map_order k)
    by (vm_compute; reflexivity).
  by vm_compute.
Qed.

(** C8 on the code: a request with a domain parameter for a transaction
    that is not stored panics (no 404 is written); an unparsable domain
    writes a 400 and goes on, to a panic when the transaction is not stored
    and to a second, 404 body when it is. *)
Theorem C8_absent_tx_with_domain_panics :
  getTxByHash ∅ "0xabc" "0" = ([], Panicked)
  /\ getTxByHash ∅ "0xabc" "x"
     = ([mkJSON StatusBadRequest (BodyMessage "unable to parse domain")], Panicked)
  /\ getTxByHash {[ "0xaa"%string := mkTxState "0xaa" [msg_aa_1] ]} "0xaa" "x"
     = ([mkJSON StatusBadRequest (BodyMessage "unable to parse domain");
         mkJSON StatusNotFound (BodyMessage "message not found")], Returned tt).
Proof. repeat split; vm_compute; reflexivity. Qed.

Lemma C2_attest_step_cases_witness :
  exists msg',
    tx_msgs (msg_step cfg_4_to_0 registered_0 pass_one_created 0) = [msg']
    /\ status msg' = Attested
    /\ Attestation msg' = "0xAB"%string
    /\ requeue (msg_step cfg_4_to_0 registered_0 pass_one_created 0) = false
    /\ broadcastMsgs (msg_step cfg_4_to_0 registered_0 pass_one_created 0)
       = <[0%N := [0]]> ∅.
Proof.
  assert (filter_met cfg_4_to_0 registered_0 msg_aa_1 = false) as Hmet
    by (vm_compute; reflexivity).
  destruct (C2_attest_step_cases (ext := always_complete) cfg_4_to_0 registered_0
              pass_one_created 0 msg_aa_1
              (Some (mkAttestationResponse "0xAB" "complete")) 0
              eq_refl Hmet (or_introl eq_refl) eq_refl)
    as (msg' & Hmsgs & _ & _ & Hcomplete).
  destruct (Hcomplete eq_refl) as (Hs & Ha & Hrq & Hbm).
  exists msg'. by repeat split.
Defined.

Lemma C3_disabled_route_is_filtered_witness :
  (exists tx',
     State (process cfg_no_routes registered_0 map_order (mkTxState "0xaa" [msg_aa_1])
              idle_processor) !! "0xaa" = Some tx'
     /\ status <$> Msgs tx' = [Filtered])
  /\ (exists tx',
        State (process cfg_4_to_0 registered_0_7 map_order (mkTxState "0xaa" [msg_to_7])
                 idle_processor) !! "0xaa" = Some tx'
        /\ status <$> Msgs tx' = [Filtered])
  /\ disabled_routes_Filtered cfg_no_routes (State (run_history_pair 2))
  /\ no_attestation_call_off_route cfg_no_routes (trace (run_history_pair 2)).
Proof.
  split; [|split].
  - destruct (C3_disabled_route_is_filtered cfg_no_routes registered_0 map_order
                map_order_perm) as (_ & Hpass & _).
    destruct (Hpass (mkTxState "0xaa" [msg_aa_1]) idle_processor) as (tx' & Hlook & Hall).
    exists tx'. split; [exact Hlook|]. simpl in Hall.
    apply Forall2_cons_inv_l in Hall as (m' & rest & [_ Hf] & Hnil & ->).
    apply Forall2_nil_inv_l in Hnil as ->. simpl. rewrite Hf; [done|]. by left.
  - destruct (C3_disabled_route_is_filtered cfg_4_to_0 registered_0_7 map_order
                map_order_perm) as (_ & Hpass & _).
    destruct (Hpass (mkTxState "0xaa" [msg_to_7]) idle_processor) as (tx' & Hlook & Hall).
    exists tx'. split; [exact Hlook|]. simpl in Hall.
    apply Forall2_cons_inv_l in Hall as (m' & rest & [_ Hf] & Hnil & ->).
    apply Forall2_nil_inv_l in Hnil as ->. simpl. rewrite Hf; [done|].
    right. exists [0%N]. split; [by vm_compute|].
    intros Hin. apply list_elem_of_singleton in Hin. discriminate.
  - destruct (C3_disabled_route_is_filtered cfg_no_routes registered_0 map_order
                map_order_perm) as (_ & _ & _ & Hever).
    apply (Hever 2 history_pair 0).
Defined.

(** The two transaction states that [consumeHistroy] sends for two logs of
    the transaction 0xaa, with no route enabled: the worker stores the first
    and marks its message (nonce 42) Filtered; for the second it loads the
    stored state, so the message with nonce 43, whose route is not enabled
    either, is never stored and never marked Filtered; the queue is empty
    after two iterations and nothing changes any more. *)
Lemma C3_counterexample_message_under_stored_hash :
  history_pair = [mkTxState "0xaa" [msg_aa_1]; mkTxState "0xaa" [msg_aa_2]]
  /\ EnabledRoutes cfg_no_routes !! SourceDomain msg_aa_2 = None
  /\ (Nonce msg_aa_2 = 43%N /\ status msg_aa_2 = Created)
  /\ map_to_list (State (run_history_pair 2))
     = [("0xaa"%string, mkTxState "0xaa" [set_status Filtered msg_aa_1])]
  /\ Nonce msg_aa_1 = 42%N
  /\ processingQueue (run_history_pair 2) = []
  /\ run_history_pair 5 = run_history_pair 2.
Proof. repeat split; vm_compute; reflexivity. Qed.

Lemma C9_unregistered_destination_is_filtered_witness :
  filterInvalidDestinationCallers registered_0 msg_to_7 = true
  /\ (exists msg',
        tx_msgs (run_pass cfg_4_to_0 registered_0 map_order (mkTxState "0xaa" [msg_to_7])
                   0 []) !! 0 = Some msg'
        /\ status msg' = Filtered)
  /\ requeue (run_pass cfg_4_to_0 registered_0 map_order (mkTxState "0xaa" [msg_to_7]) 0 [])
     = false.
Proof.
  destruct (C9_unregistered_destination_is_filtered cfg_4_to_0 registered_0 map_order
              map_order_perm msg_to_7 eq_refl) as (Hfilter & _ & Hpass & Hall).
  split; [exact Hfilter|]. split.
  - destruct (Hpass (mkTxState "0xaa" [msg_to_7]) 0 [] 0 eq_refl) as (msg' & Hm & _ & Hs).
    by exists msg'.
  - apply Hall. by repeat constructor.
Defined.

End processor_runs.


(* ===================================================================== *)
(** * From the listener to the processor                                   *)
(* ===================================================================== *)

Section history_to_processor.
Import golang types cmd ethereum fixtures.

(** What the split of [consumeHistroy] costs downstream: the worker stores
    the first transaction state of 0xaa, and for the second one it loads the
    stored state and works on that, so the second message is never
    processed. *)
Example second_history_message_is_dropped :
  (fun tx => IrisLookupId <$> Msgs tx)
    <$> State (StartProcessor cfg_4_to_0 registered_0 map_order 2
                 (mkProcessor ∅
                    (sent (consumeHistroy fixtures.EvmLogToMessageState [log_aa_1; log_aa_2]))
                    1 [])) !! "0xaa"
  = Some [IrisLookupId msg_aa_1].
Proof. vm_compute. reflexivity. Qed.

End history_to_processor.

(* ===================================================================== *)
(** * Further properties of ethereum/listener.go                           *)
(* ===================================================================== *)

Section listener_more.
Import golang types ethereum.

Variable EvmLogToMessageState : Log -> option MessageState.
Variable QueryWithHistory : FilterQuery -> list Log.

Local Abbreviation consumeHistroy := (consumeHistroy EvmLogToMessageState).
Local Abbreviation consumeStream := (consumeStream EvmLogToMessageState).
Local Abbreviation history_loop := (history_loop EvmLogToMessageState QueryWithHistory).
Local Abbreviation getAndConsumeHistory :=
  (getAndConsumeHistory EvmLogToMessageState QueryWithHistory).
Local Abbreviation flush := (flush EvmLogToMessageState QueryWithHistory).
Local Abbreviation backfill := (backfill EvmLogToMessageState QueryWithHistory).

Lemma sent_app effs1 effs2 : sent (effs1 ++ effs2) = sent effs1 ++ sent effs2.
Proof. apply omap_app. Qed.

(** The queries of a loop that ends are the successive chunks. *)
Lemma history_loop_queries fuel : forall total chunk start end_,
  (0 <= start)%Z -> (end_ < 2 ^ 63)%Z -> (end_ - start <= 100 * Z.of_nat fuel)%Z ->
  exists effs,
    history_loop fuel total chunk start end_ = Some effs
    /\ queries effs = chunk_queries (Z.to_nat ((end_ - start + 99) / 100)) start end_.
Proof.
  induction fuel as [|fuel IH]; intros total chunk start end_ H0 H63 Hfuel.
  - exists []. rewrite (history_loop_idle EvmLogToMessageState QueryWithHistory) by lia.
    split; [done|].
    assert ((end_ - start + 99) / 100 < 1)%Z by (apply Z.div_lt_upper_bound; lia).
    by replace (Z.to_nat _) with 0 by lia.
  - destruct (Z.lt_ge_cases start end_) as [Hlt|Hge].
    + simpl. rewrite (proj2 (Z.ltb_lt start end_) Hlt). simpl.
      assert (add64 start chunkSize = (start + 100)%Z) as ->
        by (apply add64_small; unfold chunkSize; lia).
      destruct (IH total (chunk + 1)%Z (start + 100)%Z end_) as (later & -> & Hq); [lia..|].
      eexists. split; [done|]. simpl.
      rewrite queries_app, (consumeHistroy_queries EvmLogToMessageState). simpl.
      assert ((if (start + 100 >? end_)%Z then end_ else (start + 100)%Z)
              = Z.min (start + 100) end_) as ->.
      { destruct (start + 100 >? end_)%Z eqn:Hgt; lia. }
      rewrite !int64_of_uint64_small by lia. rewrite Hq.
      replace ((end_ - start + 99) / 100)%Z
        with ((end_ - (start + 100) + 99) / 100 + 1)%Z.
      * rewrite Z2Nat.inj_add by (try apply Z.div_pos; lia).
        rewrite Nat.add_1_r. reflexivity.
      * rewrite <- Z.div_add by lia. f_equal. lia.
    + exists []. rewrite (history_loop_idle EvmLogToMessageState QueryWithHistory) by lia.
      split; [done|].
      assert ((end_ - start + 99) / 100 < 1)%Z by (apply Z.div_lt_upper_bound; lia).
      by replace (Z.to_nat _) with 0 by lia.
Qed.

Lemma getAndConsumeHistory_queries fuel start end_ effs :
  (0 <= start)%Z -> (end_ < 2 ^ 63)%Z ->
  getAndConsumeHistory fuel start end_ = Some effs ->
  queries effs = chunk_queries (Z.to_nat ((end_ - start + 99) / 100)) start end_.
Proof.
  intros H0 H63 Hrun. unfold ethereum.getAndConsumeHistory in Hrun.
  set (n := Z.to_nat (Z.max 0 (end_ - start))).
  destruct (history_loop_queries n (totalChunksNeeded start end_) 1 start end_)
    as (effs' & Hrun' & Hq); [done|done|lia|].
  apply (history_loop_more_fuel EvmLogToMessageState QueryWithHistory)
    with (fuel' := Nat.max fuel n) in Hrun; [|lia].
  apply (history_loop_more_fuel EvmLogToMessageState QueryWithHistory)
    with (fuel' := Nat.max fuel n) in Hrun'; [|lia].
  rewrite Hrun in Hrun'. by injection Hrun' as ->.
Qed.

Lemma getAndConsumeHistory_returns start end_ :
  (0 <= start)%Z -> (end_ < 2 ^ 63)%Z ->
  exists effs,
    (forall fuel, Z.to_nat ((end_ - start) / 100) + 1 <= fuel ->
       getAndConsumeHistory fuel start end_ = Some effs)
    /\ (forall b, covered (queries effs) b <-> (start < end_ /\ start <= b <= end_)%Z).
Proof.
  intros H0 H63. destruct (Z.lt_ge_cases start end_) as [Hlt|Hge].
  - set (n := Z.to_nat ((end_ - start) / 100) + 1).
    destruct (history_loop_covers EvmLogToMessageState QueryWithHistory n
                (totalChunksNeeded start end_) 1 start end_)
      as (effs & Hrun & Hcov & _); [done|done| |].
    { unfold n. rewrite Nat2Z.inj_add, Z2Nat.id by (apply Z.div_pos; lia).
      pose proof (Z.mul_succ_div_gt (end_ - start) 100). lia. }
    exists effs. split; [|done]. intros fuel Hfuel.
    by apply (history_loop_more_fuel EvmLogToMessageState QueryWithHistory n).
  - exists []. split.
    + intros fuel _. by apply (history_loop_idle EvmLogToMessageState QueryWithHistory).
    + intros b. split; [intros H; by apply covered_nil in H|lia].
Qed.

Lemma chunk_queries_length n : forall start end_, length (chunk_queries n start end_) = n.
Proof. induction n as [|n IH]; intros start end_; simpl; [done|]. by rewrite IH. Qed.

Lemma chunk_queries_lookup n : forall start end_ i,
  i < n ->
  chunk_queries n start end_ !! i
  = Some (mkFilterQuery (start + 100 * Z.of_nat i)
            (Z.min (start + 100 * Z.of_nat i + 100) end_)).
Proof.
  induction n as [|n IH]; intros start end_ i Hi; [lia|].
  destruct i as [|i]; simpl.
  - unfold chunkSize. f_equal. f_equal; lia.
  - rewrite IH by lia. unfold chunkSize. f_equal. f_equal; lia.
Qed.

Lemma totalChunksNeeded_ceil start end_ :
  (0 <= start < end_)%Z -> (end_ < 2 ^ 64)%Z ->
  totalChunksNeeded start end_ = ((end_ - start + 99) / 100)%Z.
Proof.
  intros Hs He. unfold totalChunksNeeded, sub64, add64, wrap64, u64, chunkSize.
  rewrite (Z.mod_small (end_ - start)) by lia.
  destruct (_ || _)%bool eqn:Hb.
  - rewrite Z.mod_small by (split; [|apply Z.lt_le_trans with (2 ^ 64)%Z; [|done]];
                              Z.to_euclidean_division_equations; lia).
    apply orb_true_iff in Hb as [Hb|Hb]; Z.to_euclidean_division_equations; lia.
  - apply orb_false_iff in Hb as [Hb1 Hb2]. Z.to_euclidean_division_equations. lia.
Qed.

(** The number of chunks the function computes for its log line is the
    number of queries it issues, when [start] is below [end_]; for
    [start = end_] it computes 1 and issues none. *)
Theorem totalChunksNeeded_counts_queries start end_ :
  (0 <= start)%Z -> (end_ < 2 ^ 63)%Z ->
  ((start < end_)%Z ->
   exists effs,
     (forall fuel, Z.to_nat ((end_ - start) / 100) + 1 <= fuel ->
        getAndConsumeHistory fuel start end_ = Some effs)
     /\ Z.of_nat (length (queries effs)) = totalChunksNeeded start end_)
  /\ (start = end_ ->
      totalChunksNeeded start end_ = 1%Z
      /\ forall fuel, getAndConsumeHistory fuel start end_ = Some []).
Proof.
  intros H0 H63. split.
  - intros Hlt. destruct (getAndConsumeHistory_returns start end_ H0 H63) as (effs & Hrun & _).
    exists effs. split; [done|].
    rewrite (getAndConsumeHistory_queries _ start end_ effs H0 H63 (Hrun _ (le_n _))).
    rewrite chunk_queries_length, totalChunksNeeded_ceil by lia.
    apply Z2Nat.id, Z.div_pos; lia.
  - intros <-. split.
    + unfold totalChunksNeeded, sub64, wrap64. rewrite Z.sub_diag. reflexivity.
    + intros fuel. by apply (history_loop_idle EvmLogToMessageState QueryWithHistory).
Qed.

(** Successive back-fill queries start 100 blocks apart and each one ends on
    the block the next one starts with: filter bounds are inclusive, so that
    block is queried twice. *)
Theorem backfill_chunks_share_boundary_block fuel start end_ effs i q q' :
  (0 <= start)%Z -> (end_ < 2 ^ 63)%Z ->
  getAndConsumeHistory fuel start end_ = Some effs ->
  queries effs !! i = Some q -> queries effs !! S i = Some q' ->
  ToBlock q = FromBlock q' /\ FromBlock q' = (FromBlock q + 100)%Z.
Proof.
  intros H0 H63 Hrun.
  rewrite (getAndConsumeHistory_queries fuel start end_ effs H0 H63 Hrun).
  set (n := Z.to_nat ((end_ - start + 99) / 100)).
  intros Hq Hq'.
  assert (S i < n) as Hi.
  { apply lookup_lt_Some in Hq'. by rewrite chunk_queries_length in Hq'. }
  rewrite chunk_queries_lookup in Hq by lia. rewrite chunk_queries_lookup in Hq' by lia.
  injection Hq as <-. injection Hq' as <-. simpl.
  assert (Z.of_nat (S i) < (end_ - start + 99) / 100)%Z as Hlt by (unfold n in Hi; lia).
  assert (100 * Z.of_nat (S i) < end_ - start)%Z
    by (Z.to_euclidean_division_equations; lia).
  lia.
Qed.

(** What the back-fill sends to the processing queue is what [consumeHistroy]
    sends for the history of each query, query after query. *)
Theorem backfill_sends_each_history fuel : forall total chunk start end_ effs,
  history_loop fuel total chunk start end_ = Some effs ->
  sent effs = mjoin ((fun q => sent (consumeHistroy (QueryWithHistory q))) <$> queries effs).
Proof.
  induction fuel as [|fuel IH]; intros total chunk start end_ effs; simpl.
  - destruct (start <? end_)%Z; simpl; [done|]. by intros [= <-].
  - destruct (start <? end_)%Z; simpl; [|by intros [= <-]].
    destruct (ethereum.history_loop _ _ fuel _ _ _ _) as [later|] eqn:Hlater; [|done].
    intros [= <-]. simpl. rewrite sent_app, queries_app.
    rewrite (consumeHistroy_queries EvmLogToMessageState). simpl.
    by rewrite (IH _ _ _ _ later Hlater).
Qed.

(** The loop [for start < end] does not end when [end_] is the largest
    unsigned 64-bit value and [start] is not 3 modulo 4: [start += 100] wraps
    around and never reaches [end_]. *)
Theorem backfill_loop_wraps_forever fuel : forall total chunk start,
  (0 <= start < 2 ^ 64)%Z -> (start mod 4 <> 3)%Z ->
  history_loop fuel total chunk start (2 ^ 64 - 1) = None.
Proof.
  induction fuel as [|fuel IH]; intros total chunk start Hs Hmod.
  - simpl. assert ((start <? 2 ^ 64 - 1)%Z = true) as ->; [|done].
    apply Z.ltb_lt. destruct (decide (start = 2 ^ 64 - 1)%Z) as [->|]; [|lia].
    by vm_compute in Hmod.
  - simpl. assert ((start <? 2 ^ 64 - 1)%Z = true) as ->.
    { apply Z.ltb_lt. destruct (decide (start = 2 ^ 64 - 1)%Z) as [->|]; [|lia].
      by vm_compute in Hmod. }
    simpl. rewrite IH; [done| |].
    + unfold add64, wrap64, u64. apply Z.mod_pos_bound. lia.
    + unfold add64, wrap64, u64, chunkSize. Z.to_euclidean_division_equations. lia.
Qed.

Lemma sub64_small a b : (0 <= b <= a)%Z -> (a < 2 ^ 64)%Z -> sub64 a b = (a - b)%Z.
Proof. intros Hb Ha. unfold sub64, wrap64, u64. apply Z.mod_small. lia. Qed.

(** A flush after an earlier one (lastFlushedBlock is L, not 0) with a
    look-back period of at most L scans every block from L - lookbackPeriod
    to the current height, and records the current height as flushed: no
    block between two flushes is left out. *)
Theorem flush_covers_since_last_flush e latestBlock :
  (0 < lastFlushedBlock e)%Z ->
  (0 <= lookbackPeriod e <= lastFlushedBlock e)%Z ->
  (lastFlushedBlock e - lookbackPeriod e < latestBlock)%Z ->
  (lastFlushedBlock e < 2 ^ 64)%Z -> (latestBlock < 2 ^ 63)%Z ->
  exists effs e',
    (forall fuel, Z.to_nat (latestBlock / 100) + 1 <= fuel ->
       flush fuel e latestBlock = Some (effs, e'))
    /\ lastFlushedBlock e' = latestBlock
    /\ startBlock e' = startBlock e
    /\ (forall b, covered (queries effs) b
                  <-> (lastFlushedBlock e - lookbackPeriod e <= b <= latestBlock)%Z).
Proof.
  intros HL Hk Hlt HL64 H63.
  set (s := (lastFlushedBlock e - lookbackPeriod e)%Z) in *.
  destruct (getAndConsumeHistory_returns s latestBlock) as (effs & Hrun & Hcov);
    [unfold s; lia|done|].
  exists effs, (mkListener (startBlock e) (lookbackPeriod e) latestBlock).
  split; [|split; [done|split; [done|]]].
  - intros fuel Hfuel. unfold ethereum.flush.
    assert ((lastFlushedBlock e =? 0)%Z = false) as -> by (apply Z.eqb_neq; lia).
    rewrite sub64_small by lia. fold s. rewrite Hrun; [done|].
    assert ((latestBlock - s) / 100 <= latestBlock / 100)%Z
      by (apply Z.div_le_mono; unfold s; lia).
    lia.
  - intros b. rewrite Hcov. lia.
Qed.

(** The first flush (lastFlushedBlock is still 0), at a height below 2^63
    and with a look-back period of at most that height, takes the current
    height as the last flushed block: it ends, it scans the look-back window
    below the current height only, it issues no query at all when the
    look-back period is 0, and it records the current height as flushed. *)
Theorem first_flush_scans_lookback_window e latestBlock :
  lastFlushedBlock e = 0%Z ->
  (0 <= lookbackPeriod e <= latestBlock)%Z -> (latestBlock < 2 ^ 63)%Z ->
  exists effs,
    (forall fuel, Z.to_nat (latestBlock / 100) + 1 <= fuel ->
       flush fuel e latestBlock
       = Some (effs, mkListener (startBlock e) (lookbackPeriod e) latestBlock))
    /\ (forall b, covered (queries effs) b
                  <-> (0 < lookbackPeriod e
                       /\ latestBlock - lookbackPeriod e <= b <= latestBlock)%Z)
    /\ (lookbackPeriod e = 0%Z -> effs = []).
Proof.
  intros HL Hk H63.
  set (s := (latestBlock - lookbackPeriod e)%Z) in *.
  destruct (getAndConsumeHistory_returns s latestBlock) as (effs & Hrun & Hcov);
    [unfold s; lia|done|].
  assert (forall fuel, Z.to_nat (latestBlock / 100) + 1 <= fuel ->
            getAndConsumeHistory fuel s latestBlock = Some effs) as Hrun'.
  { intros fuel Hfuel. apply Hrun.
    assert ((latestBlock - s) / 100 <= latestBlock / 100)%Z
      by (apply Z.div_le_mono; unfold s; lia).
    lia. }
  exists effs. split; [|split].
  - intros fuel Hfuel. unfold ethereum.flush. rewrite HL. simpl.
    rewrite sub64_small by lia. fold s. by rewrite Hrun'.
  - intros b. rewrite Hcov. unfold s. lia.
  - intros H0. specialize (Hrun' _ (le_n _)).
    unfold ethereum.getAndConsumeHistory in Hrun'.
    rewrite (history_loop_idle EvmLogToMessageState QueryWithHistory) in Hrun'
      by (unfold s; lia).
    by injection Hrun' as <-.
Qed.

(** For a new height below 2^63. A restart after a flush at block L, with
    a look-back period of at most L, starts the back-fill at
    L - lookbackPeriod: together with the flush before it, no block up to the
    new height is left out. A restart before any flush (lastFlushedBlock 0)
    sets startBlock to 0, which the back-fill reads as "no start block": with
    a look-back period of at most the new height, it then scans the
    look-back window below the new height only. *)
Theorem restart_backfills_from_last_flush e latestBlock :
  (0 <= lookbackPeriod e)%Z -> (latestBlock < 2 ^ 63)%Z ->
  ((0 < lastFlushedBlock e < 2 ^ 64)%Z ->
   (lookbackPeriod e <= lastFlushedBlock e)%Z ->
   exists effs,
     (forall fuel, Z.to_nat (Z.max 0 latestBlock / 100) + 1 <= fuel ->
        backfill fuel (restart e) latestBlock = Some effs)
     /\ (forall b, covered (queries effs) b
                   <-> (lastFlushedBlock e - lookbackPeriod e < latestBlock
                        /\ lastFlushedBlock e - lookbackPeriod e <= b <= latestBlock)%Z))
  /\ (lastFlushedBlock e = 0%Z -> (lookbackPeriod e <= latestBlock)%Z ->
      exists effs,
        (forall fuel, Z.to_nat (latestBlock / 100) + 1 <= fuel ->
           backfill fuel (restart e) latestBlock = Some effs)
        /\ (forall b, covered (queries effs) b
                      <-> (0 < lookbackPeriod e
                           /\ latestBlock - lookbackPeriod e <= b <= latestBlock)%Z)).
Proof.
  intros Hk H63. split.
  - intros HL HkL. set (s := (lastFlushedBlock e - lookbackPeriod e)%Z) in *.
    destruct (getAndConsumeHistory_returns s latestBlock) as (effs & Hrun & Hcov);
      [unfold s; lia|done|].
    exists effs. split; [|done]. intros fuel Hfuel.
    unfold ethereum.backfill, ethereum.initialBackfill, startLookback, restart. simpl.
    assert ((lastFlushedBlock e =? 0)%Z = false) as -> by (apply Z.eqb_neq; lia). simpl.
    rewrite sub64_small by lia. fold s. apply Hrun.
    destruct (Z.le_gt_cases latestBlock s) as [Hle|Hgt].
    + assert ((latestBlock - s) / 100 <= 0)%Z
        by (apply Z.div_le_upper_bound; lia). lia.
    + assert ((latestBlock - s) / 100 <= Z.max 0 latestBlock / 100)%Z
        by (apply Z.div_le_mono; unfold s; lia).
      lia.
  - intros HL HkL. set (s := (latestBlock - lookbackPeriod e)%Z) in *.
    destruct (getAndConsumeHistory_returns s latestBlock) as (effs & Hrun & Hcov);
      [unfold s; lia|done|].
    exists effs. split.
    + intros fuel Hfuel.
      unfold ethereum.backfill, ethereum.initialBackfill, startLookback, restart. simpl.
      rewrite HL. simpl. rewrite sub64_small by lia. fold s. apply Hrun.
      assert ((latestBlock - s) / 100 <= latestBlock / 100)%Z
        by (apply Z.div_le_mono; unfold s; lia).
      lia.
    + intros b. rewrite Hcov. unfold s. lia.
Qed.

(** ** The stream consumer *)

Lemma consumeStream_pending logs : forall ts msgs,
  Forall2 (fun l m => EvmLogToMessageState l = Some m) logs msgs ->
  Forall (fun m => SourceTxHash m = TxHash ts) msgs ->
  forall sched,
    sent (consumeStream ((StreamLog <$> logs) ++ sched) (Some ts))
    = sent (consumeStream sched (Some (mkTxState (TxHash ts) (Msgs ts ++ msgs)))).
Proof.
  induction logs as [|l logs IH]; intros ts msgs Hparse Hhash sched.
  - apply Forall2_nil_inv_l in Hparse as ->. simpl. rewrite app_nil_r. by destruct ts.
  - apply Forall2_cons_inv_l in Hparse as (m & msgs' & Hm & Hparse & ->).
    apply Forall_cons in Hhash as [Hh Hhash]. simpl. rewrite Hm. simpl.
    rewrite Hh, String.eqb_refl. simpl.
    pose proof (IH (mkTxState (TxHash ts) (Msgs ts ++ [m])) msgs' Hparse Hhash sched) as IH'.
    etrans; [exact IH'|]. simpl. by rewrite <- app_assoc.
Qed.

(** Messages accumulated and not yet flushed when the context is cancelled
    or the error signal fires are never sent to the processing queue. *)
Theorem consumeStream_stop_drops_pending l logs m msgs stop rest :
  EvmLogToMessageState l = Some m ->
  Forall2 (fun l m => EvmLogToMessageState l = Some m) logs msgs ->
  Forall (fun m' => SourceTxHash m' = SourceTxHash m) msgs ->
  is_stop stop = true ->
  sent (consumeStream ((StreamLog <$> l :: logs) ++ stop :: rest) None) = [].
Proof.
  intros Hm Hparse Hhash Hstop. simpl. rewrite Hm. simpl.
  etrans; [exact (consumeStream_pending logs (mkTxState (SourceTxHash m) [m]) msgs
                    Hparse Hhash (stop :: rest))|].
  by destruct stop.
Qed.

Lemma consumeStream_delivers sched : forall ts,
  Forall (fun s => is_stop s = false) sched ->
  mjoin (Msgs <$> sent (consumeStream (sched ++ [Default]) ts))
  = from_option Msgs [] ts ++ omap EvmLogToMessageState (stream_logs sched).
Proof.
  induction sched as [|s sched IH]; intros ts Hrun.
  - simpl. destruct ts as [ts|]; simpl; by rewrite ?app_nil_r.
  - apply Forall_cons in Hrun as [Hs Hrun]. destruct s; try done; simpl.
    + destruct (EvmLogToMessageState streamLog) as [m|]; simpl; [|by apply IH].
      destruct ts as [ts|]; simpl.
      * destruct (negb (String.eqb (SourceTxHash m) (TxHash ts))); simpl.
        -- by rewrite IH.
        -- rewrite IH by done. simpl. by rewrite <- app_assoc.
      * by rewrite IH.
    + destruct ts as [ts|]; simpl; rewrite IH by done; simpl; by rewrite ?app_nil_r.
Qed.

(** As long as the stream is not stopped, every log that parses reaches the
    processing queue once the stream is idle: the messages of the transaction
    states sent, put end to end, are the messages of the logs, in the order
    of the logs (none lost, none twice). *)
Theorem consumeStream_delivers_every_message sched :
  Forall (fun s => is_stop s = false) sched ->
  mjoin (Msgs <$> sent (consumeStream (sched ++ [Default]) None))
  = omap EvmLogToMessageState (stream_logs sched).
Proof. intros Hrun. by rewrite consumeStream_delivers. Qed.

Lemma consumeStream_well_formed sched : forall ts,
  from_option well_formed True ts ->
  Forall well_formed (sent (consumeStream sched ts)).
Proof.
  induction sched as [|s sched IH]; intros ts Hts; [constructor|].
  destruct s; simpl; try constructor.
  - destruct (EvmLogToMessageState streamLog) as [m|]; simpl; [|by apply IH].
    assert (well_formed (mkTxState (SourceTxHash m) [m])) as Hnew
      by (split; [done|by repeat constructor]).
    destruct ts as [ts|]; simpl; [|by apply IH].
    destruct (String.eqb (SourceTxHash m) (TxHash ts)) eqn:Heq; simpl.
    + apply IH. simpl. apply String.eqb_eq in Heq. destruct Hts as [Hne Hall]. split.
      * simpl. by destruct (Msgs ts).
      * simpl. apply Forall_app. split; [done|]. by repeat constructor.
    + constructor; [done|]. by apply IH.
  - destruct ts as [ts|]; simpl; [constructor; [done|]|]; by apply IH.
Qed.

(** Every transaction state a listener routine sends holds at least one
    message, and all its messages carry its transaction hash. *)
Theorem listener_sends_well_formed_TxStates :
  (forall sched, Forall well_formed (sent (consumeStream sched None)))
  /\ (forall history, Forall well_formed (sent (consumeHistroy history))).
Proof.
  split.
  - intros sched. by apply consumeStream_well_formed.
  - intros history. rewrite (consumeHistroy_sent EvmLogToMessageState).
    apply Forall_fmap, Forall_true. intros m. split; [done|by repeat constructor].
Qed.

End listener_more.


(* ===================================================================== *)
(** * Further properties of cmd/process.go: the processor                  *)
(* ===================================================================== *)

Section processor_more.
Import golang types cmd.

Context {W : Type} {ext : External W}.
Variable cfg : Config.
Variable registeredDomains : gmap Domain (Chain W).
Variable range_order : list (Domain * list nat) -> list (Domain * list nat).
Hypothesis range_order_perm : forall l, range_order l ≡ₚ l.

Local Abbreviation filter_met := (filter_met cfg registeredDomains).
Local Abbreviation msg_step := (msg_step cfg registeredDomains).
Local Abbreviation broadcast_step := (broadcast_step registeredDomains).
Local Abbreviation run_pass := (run_pass cfg registeredDomains range_order).
Local Abbreviation process := (process cfg registeredDomains range_order).
Local Abbreviation worker_step := (worker_step cfg registeredDomains range_order).
Local Abbreviation StartProcessor := (StartProcessor cfg registeredDomains range_order).

(** The status of the message at index [i] after the loop body, and when
    the body appends the message to [broadcastMsgs]. *)
Lemma msg_step_status st i m :
  tx_msgs st !! i = Some m ->
  exists m',
    tx_msgs (msg_step st i) !! i = Some m'
    /\ attest_transition (filter_met m) (status m) (status m')
    /\ (broadcastMsgs (msg_step st i) = broadcastMsgs st
        \/ (filter_met m = false
            /\ (status m = Created \/ status m = Pending)
            /\ broadcastMsgs (msg_step st i)
               = <[DestDomain m := default [] (broadcastMsgs st !! DestDomain m) ++ [i]]>
                   (broadcastMsgs st))).
Proof.
  intros Hm. pose proof (lookup_lt_Some _ _ _ Hm) as Hlt.
  unfold cmd.msg_step, attest_transition. rewrite Hm.
  destruct (filter_met m) eqn:Hf.
  - simpl. eexists. rewrite list_lookup_insert_eq by done. split; [done|]. by split; [|left].
  - destruct (status m) eqn:Hs; simpl;
      try (exists m; rewrite list_lookup_insert_eq by done; rewrite Hs; by repeat split; try left).
    + destruct (CheckAttestation _ _ _ _ _ _) as [response w']. unfold attest_step.
      rewrite Hs. simpl.
      destruct response as [r|]; simpl;
        repeat match goal with
               | |- context [if ?b then _ else _] => destruct b eqn:?; simpl
               end;
        eexists; rewrite list_lookup_insert_eq by done; (split; [reflexivity|]);
        simpl; rewrite ?Hs; split; auto 6.
    + destruct (CheckAttestation _ _ _ _ _ _) as [response w']. unfold attest_step.
      rewrite Hs. simpl.
      destruct response as [r|]; simpl;
        repeat match goal with
               | |- context [if ?b then _ else _] => destruct b eqn:?; simpl
               end;
        eexists; rewrite list_lookup_insert_eq by done; (split; [reflexivity|]);
        simpl; rewrite ?Hs; split; auto 6.
Qed.

Lemma msg_loop_transitions st0 n :
  broadcastMsgs st0 = ∅ -> n <= length (tx_msgs st0) ->
  let st := foldl msg_step st0 (seq 0 n) in
  (forall j m0 m1, j < n -> tx_msgs st0 !! j = Some m0 -> tx_msgs st !! j = Some m1 ->
                   attest_transition (filter_met m0) (status m0) (status m1))
  /\ (forall d idxs j, broadcastMsgs st !! d = Some idxs -> j ∈ idxs ->
                       exists m0, tx_msgs st0 !! j = Some m0
                                  /\ filter_met m0 = false
                                  /\ (status m0 = Created \/ status m0 = Pending)).
Proof.
  intros Hbm. induction n as [|n IH]; intros Hn.
  - simpl. split; [intros; lia|].
    intros d idxs j Hd. by rewrite Hbm, lookup_empty in Hd.
  - intros st'. unfold st'. clear st'.
    rewrite (msg_loop_S cfg registeredDomains).
    destruct IH as [Hstat Hlisted]; [lia|].
    destruct (msg_loop_inv cfg registeredDomains st0 n Hbm) as (_ & Hlater & _); [lia|].
    set (st := foldl msg_step st0 (seq 0 n)) in *.
    assert (is_Some (tx_msgs st0 !! n)) as [m Hm0] by (apply lookup_lt_is_Some; lia).
    assert (tx_msgs st !! n = Some m) as Hm by (by rewrite Hlater).
    destruct (msg_step_status st n m Hm) as (m' & Hm' & Htrans & Hbm').
    split.
    + intros j m0 m1 Hj Hj0 Hj1. destruct (decide (j = n)) as [->|Hne].
      * rewrite Hm0 in Hj0. injection Hj0 as <-. rewrite Hm' in Hj1. by injection Hj1 as <-.
      * rewrite (msg_step_other cfg registeredDomains) in Hj1 by done.
        apply (Hstat j); [lia|done|done].
    + intros d idxs j Hd Hj. destruct Hbm' as [Heq|(Hmet & Hs & Heq)]; rewrite Heq in Hd.
      * by apply (Hlisted d idxs).
      * destruct (decide (DestDomain m = d)) as [<-|Hne].
        -- rewrite lookup_insert_eq in Hd. injection Hd as <-.
           apply elem_of_app in Hj as [Hj|Hj].
           ++ destruct (broadcastMsgs st !! DestDomain m) as [old|] eqn:Hold; simpl in Hj;
                [by apply (Hlisted (DestDomain m) old)|by apply elem_of_nil in Hj].
           ++ apply list_elem_of_singleton in Hj as ->. by exists m.
        -- rewrite lookup_insert_ne in Hd by done. by apply (Hlisted d idxs).
Qed.

Lemma foldl_mark_Complete_status now idxs : forall (ms : list MessageState) j m m',
  ms !! j = Some m ->
  foldl (fun ms i => alter (mark_Complete now) i ms) ms idxs !! j = Some m' ->
  status m' = status m \/ status m' = Complete.
Proof.
  induction idxs as [|i idxs IH]; intros ms j m m' Hm; simpl.
  - rewrite Hm. intros [= <-]. by left.
  - intros Hm'. destruct (decide (i = j)) as [->|Hne].
    + destruct (IH (alter (mark_Complete now) j ms) j (mark_Complete now m) m') as [->| ->];
        [by rewrite list_lookup_alter_eq, Hm|done|by right..].
    + apply (IH (alter (mark_Complete now) i ms) j m m'); [|done].
      by rewrite list_lookup_alter_ne.
Qed.

Lemma broadcast_step_status st d idxs j m m' :
  tx_msgs st !! j = Some m -> tx_msgs (broadcast_step st (d, idxs)) !! j = Some m' ->
  status m' = status m \/ status m' = Complete.
Proof.
  intros Hm. unfold cmd.broadcast_step. destruct (registeredDomains !! d) as [chain|].
  - destruct (Broadcast chain _ _) as [[err|] w]; simpl.
    + rewrite Hm. intros [= <-]. by left.
    + by apply foldl_mark_Complete_status.
  - rewrite Hm. intros [= <-]. by left.
Qed.

Lemma broadcast_loop_status entries : forall st j m m',
  tx_msgs st !! j = Some m -> tx_msgs (foldl broadcast_step st entries) !! j = Some m' ->
  status m' = status m \/ status m' = Complete.
Proof.
  induction entries as [|[d idxs] entries IH]; intros st j m m' Hm; cbn [foldl].
  - rewrite Hm. intros [= <-]. by left.
  - intros Hm'.
    destruct (broadcast_step_inv registeredDomains st d idxs) as (Hsame & _).
    destruct (Forall2_lookup_l _ _ _ j m Hsame Hm) as (m1 & Hm1 & _).
    destruct (broadcast_step_status st d idxs j m m1 Hm Hm1) as [H1|H1];
      destruct (IH _ j m1 m' Hm1 Hm') as [H2|H2]; rewrite ?H2, ?H1; auto.
Qed.

(** The status changes of one pass: a message that meets a filter ends the
    pass Filtered; otherwise a Created message may become Pending, Attested
    or Complete, a Pending one Attested or Complete, and an Attested,
    Complete or Filtered message keeps its status. In particular a Complete
    message is never broadcast again and an Attested one is not completed by
    a later pass. *)
Theorem run_pass_status_transitions tx w tr :
  Forall2 (fun m m' => pass_transition (filter_met m) (status m) (status m'))
    (Msgs tx) (tx_msgs (run_pass tx w tr)).
Proof.
  destruct (run_pass_inv cfg registeredDomains range_order range_order_perm tx w tr)
    as (Hsame & _).
  apply Forall2_same_length_lookup_2; [exact (Forall2_length _ _ _ Hsame)|].
  intros j m0 m2 Hm0. unfold cmd.run_pass.
  destruct (msg_loop_inv cfg registeredDomains (mkPass (Msgs tx) ∅ false w tr)
              (length (Msgs tx))) as (Hsame1 & _); [done|done|].
  destruct (msg_loop_transitions (mkPass (Msgs tx) ∅ false w tr) (length (Msgs tx)))
    as (Hstat & Hlisted); [done|done|].
  set (st1 := foldl msg_step _ _) in *.
  destruct (broadcast_loop_inv registeredDomains
              (range_order (map_to_list (broadcastMsgs st1))) st1) as (_ & Hother & _).
  simpl in *. intros Hm2.
  destruct (Forall2_lookup_l _ _ _ j m0 Hsame1 Hm0) as (m1 & Hm1 & _).
  pose proof (Hstat j m0 m1 (lookup_lt_Some _ _ _ Hm0) Hm0 Hm1) as Htrans.
  pose proof (broadcast_loop_status _ st1 j m1 m2 Hm1 Hm2) as Hfinal.
  assert ((filter_met m0 = true \/ (status m0 <> Created /\ status m0 <> Pending)) ->
          m2 = m1) as Hkeep.
  { intros Hcase. rewrite Hother in Hm2.
    - rewrite Hm1 in Hm2. by injection Hm2.
    - intros d idxs Hin Hj. rewrite range_order_perm in Hin.
      apply elem_of_map_to_list in Hin.
      destruct (Hlisted d idxs j Hin Hj) as (m0' & Hm0' & Hmet & Hs).
      rewrite Hm0 in Hm0'. injection Hm0' as <-.
      destruct Hcase as [Hcase|[Hc Hp]]; [congruence|]. by destruct Hs. }
  unfold pass_transition, attest_transition in *.
  destruct (filter_met m0).
  - rewrite (Hkeep (or_introl eq_refl)). exact Htrans.
  - destruct (status m0) eqn:Hs0.
    + destruct Htrans as [H|[H|H]]; destruct Hfinal as [H'|H']; rewrite ?H', ?H; auto.
    + destruct Htrans as [H|H]; destruct Hfinal as [H'|H']; rewrite ?H', ?H; auto.
    + rewrite Hkeep by (right; by split). exact Htrans.
    + rewrite Hkeep by (right; by split). exact Htrans.
    + rewrite Hkeep by (right; by split). exact Htrans.
Qed.

(** A transaction stored under a key stays stored under it, with the same
    hash and the same messages (up to status, attestation and time stamps),
    whatever the worker dequeues afterwards: entries are never removed, and
    the messages of a transaction state dequeued later under the same hash
    never enter the store. *)
Theorem stored_messages_persist n : forall p key tx0,
  State p !! key = Some tx0 ->
  exists tx',
    State (StartProcessor n p) !! key = Some tx'
    /\ TxHash tx' = TxHash tx0
    /\ Forall2 same_message (Msgs tx0) (Msgs tx').
Proof.
  induction n as [|n IH]; intros p key tx0 Hload.
  - exists tx0. split; [done|]. split; [done|apply Forall2_same_message_refl].
  - simpl. unfold cmd.worker_step.
    destruct (processingQueue p) as [|dequeuedTx rest] eqn:Hq; [by apply IH|].
    set (p1 := mkProcessor (State p) rest (world p) (trace p)).
    destruct (process_State cfg registeredDomains range_order dequeuedTx p1)
      as (tx1 & Hsrc & Hother & Hkey & _).
    destruct (decide (key = LookupKey (TxHash dequeuedTx))) as [->|Hne].
    + simpl in Hsrc. destruct Hsrc as [Hold|[Hnone _]]; [|by rewrite Hload in Hnone].
      rewrite Hload in Hold. injection Hold as <-.
      destruct (IH _ _ _ Hkey) as (tx' & Hfinal & Hhash & Hsame).
      exists tx'. split; [done|]. split; [done|].
      eapply Forall2_same_message_trans; [|exact Hsame].
      by apply (run_pass_inv cfg registeredDomains range_order range_order_perm).
    + apply IH. by rewrite Hother.
Qed.

Lemma broadcast_domains_app tr1 tr2 :
  broadcast_domains (tr1 ++ tr2) = broadcast_domains tr1 ++ broadcast_domains tr2.
Proof. apply omap_app. Qed.

Lemma broadcast_domains_none evs :
  Forall (fun e => is_broadcast_call e = false) evs -> broadcast_domains evs = [].
Proof.
  induction 1 as [|e evs He _ IH]; [done|]. by destruct e.
Qed.

Lemma broadcast_loop_domains entries : forall st,
  broadcast_domains (pass_trace (foldl broadcast_step st entries))
  = broadcast_domains (pass_trace st)
    ++ filter (fun d => is_Some (registeredDomains !! d)) entries.*1.
Proof.
  induction entries as [|[d idxs] entries IH]; intros st; cbn [foldl].
  - simpl. by rewrite app_nil_r.
  - rewrite IH. rewrite fmap_cons, filter_cons. simpl.
    unfold cmd.broadcast_step.
    destruct (registeredDomains !! d) as [chain|] eqn:Hd.
    + rewrite decide_True by eauto.
      destruct (Broadcast chain _ _) as [[err|] w']; simpl;
        rewrite broadcast_domains_app; simpl; by rewrite <- app_assoc.
    + rewrite decide_False by (by intros [? ?]). done.
Qed.

(** In one pass [Broadcast] is called at most once per destination domain,
    and only for domains with a registered chain: the messages attested in
    the pass are batched by destination. *)
Theorem one_broadcast_per_domain_per_pass tx w tr :
  exists domains,
    broadcast_domains (pass_trace (run_pass tx w tr)) = broadcast_domains tr ++ domains
    /\ NoDup domains
    /\ Forall (fun d => is_Some (registeredDomains !! d)) domains.
Proof.
  unfold cmd.run_pass.
  destruct (msg_loop_inv cfg registeredDomains (mkPass (Msgs tx) ∅ false w tr)
              (length (Msgs tx))) as (_ & _ & _ & _ & evs & Htr & _ & Hnb); [done|done|].
  set (st1 := foldl msg_step _ _) in *. simpl in Htr.
  eexists. split; [|split].
  - rewrite broadcast_loop_domains, Htr, broadcast_domains_app.
    rewrite (broadcast_domains_none evs Hnb), app_nil_r. reflexivity.
  - apply NoDup_filter. rewrite range_order_perm. apply NoDup_fst_map_to_list.
  - apply Forall_forall. intros d Hd. by apply list_elem_of_filter in Hd as [? _].
Qed.

Lemma msg_step_complete st i msg r w1 :
  tx_msgs st !! i = Some msg ->
  filter_met msg = false ->
  status msg = Created \/ status msg = Pending ->
  CheckAttestation (AttestationBaseUrl cfg) (IrisLookupId msg) (SourceTxHash msg)
    (SourceDomain msg) (DestDomain msg) (pass_world st) = (Some r, w1) ->
  resp_Status r = "complete"%string ->
  msg_step st i
  = mkPass
      (<[i := set_Updated (Now w1)
                (set_Attestation (resp_Attestation r) (set_status Attested msg))]>
         (tx_msgs st))
      (<[DestDomain msg := default [] (broadcastMsgs st !! DestDomain msg) ++ [i]]>
         (broadcastMsgs st))
      (requeue st) w1
      (pass_trace st
         ++ [EvCheckAttestation (IrisLookupId msg) (SourceTxHash msg) (SourceDomain msg)
               (DestDomain msg)]).
Proof.
  intros Hm Hmet Hs Hcall Hcomplete. unfold cmd.msg_step. rewrite Hm, Hmet.
  assert ((Status_eqb (status msg) Created || Status_eqb (status msg) Pending)%bool = true)
    as -> by (by destruct Hs as [-> | ->]).
  rewrite Hcall. unfold attest_step. rewrite Hcomplete. simpl.
  by rewrite andb_false_r, orb_false_r.
Qed.

(** A transaction with one message that meets no filter, is Created or
    Pending and whose attestation is complete: the pass calls the
    attestation service, then [Broadcast] on the chain of the destination
    domain with that one message, Attested. When [Broadcast] returns nil the
    message ends Complete and the transaction is not requeued; when it
    returns an error the message stays Attested and the transaction is
    requeued. *)
Theorem single_message_pass h msg w tr r w1 chain err w2 :
  filter_met msg = false ->
  status msg = Created \/ status msg = Pending ->
  CheckAttestation (AttestationBaseUrl cfg) (IrisLookupId msg) (SourceTxHash msg)
    (SourceDomain msg) (DestDomain msg) w = (Some r, w1) ->
  resp_Status r = "complete"%string ->
  registeredDomains !! DestDomain msg = Some chain ->
  let attested :=
    set_Updated (Now w1) (set_Attestation (resp_Attestation r) (set_status Attested msg)) in
  Broadcast chain [attested] w1 = (err, w2) ->
  let st := run_pass (mkTxState h [msg]) w tr in
  pass_trace st
  = tr ++ [EvCheckAttestation (IrisLookupId msg) (SourceTxHash msg) (SourceDomain msg)
             (DestDomain msg);
           EvBroadcast (DestDomain msg) [attested]]
  /\ pass_world st = w2
  /\ match err with
     | None => tx_msgs st = [mark_Complete (Now w2) attested] /\ requeue st = false
     | Some _ => tx_msgs st = [attested] /\ requeue st = true
     end.
Proof.
  intros Hmet Hs Hcall Hcomplete Hchain attested Hbroadcast.
  unfold cmd.run_pass. cbn [Msgs length seq foldl].
  rewrite (msg_step_complete (mkPass [msg] ∅ false w tr) 0 msg r w1) by done.
  cbn [broadcastMsgs tx_msgs requeue pass_world pass_trace].
  rewrite lookup_empty. simpl default. rewrite app_nil_l.
  rewrite insert_empty, map_to_list_singleton.
  assert (range_order [(DestDomain msg, [0])] = [(DestDomain msg, [0])]) as ->
    by (apply Permutation_singleton_r, range_order_perm).
  cbn [foldl]. unfold cmd.broadcast_step. rewrite Hchain. simpl.
  fold attested. rewrite Hbroadcast. rewrite <- app_assoc. simpl.
  by destruct err.
Qed.

(** An answer of the attestation service whose status is neither
    "pending_confirmations" nor "complete" leaves the message as it is and
    sets neither the sleep nor [requeue]: a transaction with one such message
    leaves the queue with its message still Created or Pending. *)
Theorem unknown_attestation_status_is_not_retried st i msg r w' :
  tx_msgs st !! i = Some msg ->
  filter_met msg = false ->
  status msg = Created \/ status msg = Pending ->
  CheckAttestation (AttestationBaseUrl cfg) (IrisLookupId msg) (SourceTxHash msg)
    (SourceDomain msg) (DestDomain msg) (pass_world st) = (Some r, w') ->
  resp_Status r <> "pending_confirmations"%string ->
  resp_Status r <> "complete"%string ->
  msg_step st i
  = mkPass (tx_msgs st) (broadcastMsgs st) (requeue st) w'
      (pass_trace st
         ++ [EvCheckAttestation (IrisLookupId msg) (SourceTxHash msg) (SourceDomain msg)
               (DestDomain msg)]).
Proof.
  intros Hm Hmet Hs Hcall Hnp Hnc. unfold cmd.msg_step. rewrite Hm, Hmet.
  assert ((Status_eqb (status msg) Created || Status_eqb (status msg) Pending)%bool = true)
    as -> by (by destruct Hs as [-> | ->]).
  rewrite Hcall. unfold attest_step.
  apply String.eqb_neq in Hnp, Hnc. rewrite Hnp, Hnc, andb_false_r. simpl.
  by rewrite list_insert_id, orb_false_r by done.
Qed.

End processor_more.


(* ===================================================================== *)
(** * Properties of the start-up loop                                      *)
(* ===================================================================== *)

Section start_properties.
Import golang types cmd.

Context {W : Type}.
Variable ChainConfig : Type.
Variable Chain_of : string -> ChainConfig -> option (Chain W).
Variable InitializeBroadcaster : Chain W -> W -> option string * W.
Variable Domain_of : Chain W -> Domain.

Local Abbreviation register_chains :=
  (register_chains ChainConfig Chain_of InitializeBroadcaster Domain_of).

Lemma register_chains_inv chains : forall reg w ls reg' w' ls',
  register_chains chains reg w ls = Serving reg' w' ls' ->
  NoDup (Domain_of <$> ls) ->
  (forall d c, reg !! d = Some c <-> c ∈ ls /\ Domain_of c = d) ->
  NoDup (Domain_of <$> ls')
  /\ (forall d c, reg' !! d = Some c <-> c ∈ ls' /\ Domain_of c = d)
  /\ exists cs, ls' = ls ++ cs
                /\ Forall2 (fun entry c => Chain_of entry.1 entry.2 = Some c) chains cs
                /\ initialised_in_turn InitializeBroadcaster cs w w'.
Proof.
  induction chains as [|[name ccfg] chains IH]; intros reg w ls reg' w' ls'; simpl.
  - intros [= <- <- <-] Hnd Hreg. split; [done|]. split; [done|].
    exists []. by rewrite app_nil_r.
  - destruct (Chain_of name ccfg) as [c|] eqn:Hc; [|done].
    destruct (InitializeBroadcaster c w) as [[err|] w1] eqn:Hinit; [done|].
    destruct (reg !! Domain_of c) as [c0|] eqn:Hdup; [done|].
    intros Hrun Hnd Hreg.
    assert (Domain_of c ∉ Domain_of <$> ls) as Hfresh.
    { intros (c0 & Hd & Hin)%list_elem_of_fmap.
      assert (reg !! Domain_of c = Some c0) as Hsome by (by apply Hreg).
      by rewrite Hdup in Hsome. }
    destruct (IH _ _ _ _ _ _ Hrun) as (Hnd' & Hreg' & cs & -> & Hall & Hinits).
    + rewrite fmap_app. apply NoDup_app. split; [done|]. split.
      * intros d Hd Hd'. simpl in Hd'. apply list_elem_of_singleton in Hd' as ->. done.
      * simpl. apply NoDup_singleton.
    + intros d c'. destruct (decide (Domain_of c = d)) as [<-|Hne].
      * rewrite lookup_insert_eq. split.
        -- intros [= <-]. split; [|done]. apply elem_of_app. right. by left.
        -- intros [[Hin| ->%list_elem_of_singleton]%elem_of_app Hd]; [|done].
           assert (reg !! Domain_of c = Some c') as Hsome by (by apply Hreg).
           by rewrite Hdup in Hsome.
      * rewrite lookup_insert_ne by done. rewrite Hreg. split.
        -- intros [Hin Hd]. split; [|done]. apply elem_of_app. by left.
        -- intros [[Hin| ->%list_elem_of_singleton]%elem_of_app Hd]; [done|].
           by destruct Hne.
    + split; [done|]. split; [done|].
      exists (c :: cs). rewrite <- app_assoc. split; [done|]. split; [by constructor|].
      simpl. by exists w1.
Qed.

(** Start-up reaches the worker pool only if every configured chain could
    be built, every call of InitializeBroadcaster, made in turn on the
    chains, returned without error, and no two chains have the same domain;
    the registry handed to the workers then maps the domain of each chain to
    that chain and holds nothing else, a listener was started for each
    chain, and the world is the one the initialisations left. *)
Theorem Start_registers_each_domain_once chains w reg w' listeners :
  register_chains chains ∅ w [] = Serving reg w' listeners ->
  Forall2 (fun entry c => Chain_of entry.1 entry.2 = Some c) chains listeners
  /\ initialised_in_turn InitializeBroadcaster listeners w w'
  /\ NoDup (Domain_of <$> listeners)
  /\ (forall d c, reg !! d = Some c <-> c ∈ listeners /\ Domain_of c = d).
Proof.
  intros Hrun.
  destruct (register_chains_inv chains ∅ w [] reg w' listeners Hrun)
    as (Hnd & Hreg & cs & -> & Hall & Hinits).
  - constructor.
  - intros d c. rewrite lookup_empty. split; [done|]. intros [Hin _].
    by apply elem_of_nil in Hin.
  - done.
Qed.

End start_properties.

(* ===================================================================== *)
(** * Further properties of the lookup API                                 *)
(* ===================================================================== *)

Section api_more.
Import golang types cmd.

(** For a stored transaction with at least one message: without a domain
    parameter the handler answers 200 with all its messages; with one, it
    compares the source domain of the first message only with the low 32
    bits of the parsed value, answers 200 with all messages or 404, and
    writes a 400 first (without returning) when the value does not parse,
    in which case the comparison is with what [ParseInt] returned. *)
Theorem getTxByHash_stored (store : gmap string TxState) txHash domain tx m rest d err :
  store !! txHash = Some tx -> Msgs tx = m :: rest ->
  ParseInt domain = (d, err) ->
  getTxByHash store txHash domain
  = if String.eqb domain ""
    then ([mkJSON StatusOK (BodyMsgs (Msgs tx))], Returned tt)
    else ((if err
           then [mkJSON StatusBadRequest (BodyMessage "unable to parse domain")] else [])
          ++ [if N.eqb (SourceDomain m) (uint32_of_int64 d)
              then mkJSON StatusOK (BodyMsgs (Msgs tx))
              else mkJSON StatusNotFound (BodyMessage "message not found")],
          Returned tt).
Proof.
  intros Hload Hmsgs Hparse. unfold getTxByHash. rewrite Hparse, Hload. simpl.
  rewrite Hmsgs. destruct (String.eqb domain ""); simpl; [done|].
  by destruct (N.eqb (SourceDomain m) (uint32_of_int64 d)), err.
Qed.

Section root_handler.

Variable Mint Forward : string.
Variable LookupKey : string -> string -> string.

Local Abbreviation root_getTxByHash := (root.getTxByHash Mint Forward LookupKey).

(** The handler of cmd/root.go looks the message up before it reads it:
    when neither the mint nor the forward key of the hash is stored it
    answers 404, whatever the domain and type parameters (after the 400 of
    an unparsable domain, which does not return either). *)
Theorem root_getTxByHash_absent (State : gmap string MessageState) txHash domain msgType :
  State !! LookupKey txHash Mint = None ->
  State !! LookupKey txHash Forward = None ->
  root_getTxByHash State txHash domain msgType
  = (if (negb (String.eqb domain "") && (ParseInt domain).2)%bool
     then [mkJSON StatusBadRequest (BodyMessage "unable to parse domain")] else [])
    ++ [mkJSON StatusNotFound (BodyMessage "message not found")].
Proof.
  intros Hmint Hforward. unfold root.getTxByHash, root.lookup_block.
  destruct (ParseInt domain) as [domainInt err]. rewrite Hmint, Hforward. simpl.
  by destruct (_ || _)%bool, (_ || _)%bool.
Qed.

End root_handler.

End api_more.

(* ===================================================================== *)
(** * Further properties of noble/message_state.go                         *)
(* ===================================================================== *)

Section noble_more.
Import golang types noble.

Variable DecodeString : string -> option (list byte).
Variable Keccak256 : list byte -> list byte.
Variable Parse : list byte -> option Message.
Variable HashString : list byte -> string.
Variable now : Time.

Local Abbreviation attr_step := (attr_step DecodeString Keccak256 Parse HashString now).
Local Abbreviation attr_loop := (attr_loop DecodeString Keccak256 Parse HashString now).
Local Abbreviation event_loop := (event_loop DecodeString Keccak256 Parse HashString now).
Local Abbreviation txToMessageState :=
  (txToMessageState DecodeString Keccak256 Parse HashString now).
Local Abbreviation new_MessageState := (new_MessageState Keccak256 HashString now).

Section built.

Variable tx : ResultTx.
Variable P : MessageState -> Prop.
Hypothesis P_new : forall raw msg, Parse raw = Some msg -> P (new_MessageState tx raw msg).

Lemma attr_loop_Forall attrs : forall st st',
  Forall P (messageStates st) -> attr_loop tx attrs st = Returned st' ->
  Forall P (messageStates st').
Proof.
  induction attrs as [|attr attrs IH]; intros st st' Hst; simpl.
  - by intros [= <-].
  - destruct (attr_step tx st attr) as [st1|] eqn:H1; simpl; [|done].
    apply IH. revert H1. unfold noble.attr_step.
    destruct (String.eqb (Key attr) "message"); [|by intros [= <-]].
    destruct (strip_quotes (Value attr)) as [encoded|]; simpl; [|done].
    destruct (DecodeString encoded) as [raw|]; [|by intros [= <-]].
    destruct (Parse raw) as [msg|] eqn:Hparse; [|by intros [= <-]].
    intros [= <-]. simpl. apply Forall_app. split; [done|].
    apply Forall_singleton. by apply P_new.
Qed.

Lemma event_loop_Forall events : forall acc l e,
  Forall P acc -> event_loop tx events acc = Returned (l, e) -> Forall P l.
Proof.
  induction events as [|event events IH]; intros acc l e Hacc; simpl.
  - by intros [= <- <-].
  - destruct (String.eqb (Type_ event) "circle.cctp.v1.MessageSent"); [|by apply IH].
    destruct (attr_loop tx (Attributes event) _) as [st1|] eqn:H1; simpl; [|done].
    destruct (negb (parsed st1)); [intros [= <- <-]; constructor|].
    apply IH. by apply (attr_loop_Forall (Attributes event) (mkAttrLoop acc false [])).
Qed.

End built.

Lemma event_loop_error tx events : forall acc l err,
  event_loop tx events acc = Returned (l, Some err) -> l = [] /\ err_txhash err = Hash tx.
Proof.
  induction events as [|event events IH]; intros acc l err; simpl; [done|].
  destruct (String.eqb (Type_ event) "circle.cctp.v1.MessageSent"); [|by apply IH].
  destruct (attr_loop tx (Attributes event) _) as [st1|]; simpl; [|done].
  destruct (negb (parsed st1)); [by intros [= <- <-]|by apply IH].
Qed.

(** Every message state returned carries the header fields parsed from its
    own raw bytes, an empty attestation and one time stamp for Created and
    Updated; and an error is never returned together with message states:
    the list is then empty and the error names the transaction. *)
Theorem txToMessageState_header_fields tx l e :
  txToMessageState tx = Returned (l, e) ->
  Forall (fun ms =>
            exists msg, Parse (MsgSentBytes ms) = Some msg
                        /\ SourceDomain ms = msg_SourceDomain msg
                        /\ DestDomain ms = msg_DestinationDomain msg
                        /\ Nonce ms = msg_Nonce msg
                        /\ DestinationCaller ms = msg_DestinationCaller msg
                        /\ Attestation ms = EmptyString
                        /\ CreatedAt ms = now /\ Updated ms = now) l
  /\ (forall err, e = Some err -> l = [] /\ err_txhash err = Hash tx).
Proof.
  unfold noble.txToMessageState. destruct (negb _).
  - intros [= <- <-]. split; [constructor|done].
  - intros Hrun. split.
    + eapply (event_loop_Forall tx); [|constructor|exact Hrun].
      intros raw msg Hparse. exists msg. by repeat split.
    + intros err ->. by apply event_loop_error in Hrun.
Qed.

Lemma attr_loop_no_message tx attrs : forall st,
  Forall (fun a => Key a <> "message"%string) attrs ->
  attr_loop tx attrs st = Returned st.
Proof.
  induction attrs as [|attr attrs IH]; intros st Hall; [done|].
  apply Forall_cons in Hall as [Hk Hall]. simpl. unfold noble.attr_step.
  apply String.eqb_neq in Hk. rewrite Hk. simpl. by apply IH.
Qed.

Lemma event_loop_other_events tx events : forall acc rest,
  Forall (fun ev => is_MessageSent ev = false) events ->
  event_loop tx (events ++ rest) acc = event_loop tx rest acc.
Proof.
  induction events as [|event events IH]; intros acc rest Hall; [done|].
  apply Forall_cons in Hall as [Ht Hall]. simpl. unfold is_MessageSent in Ht.
  rewrite Ht. by apply IH.
Qed.

(** Events of other types are skipped without looking at their attributes
    (a transaction with code 0 and no MessageSent event yields an empty list
    and no error); and the first MessageSent event that has no attribute
    with key "message" makes the function return an error that wraps no
    cause at all. *)
Theorem txToMessageState_without_message tx :
  Code (TxResult tx) = 0%N ->
  (Forall (fun ev => is_MessageSent ev = false) (Events (TxResult tx)) ->
   txToMessageState tx = Returned ([], None))
  /\ (forall pre ev post,
        Events (TxResult tx) = pre ++ ev :: post ->
        Forall (fun ev' => is_MessageSent ev' = false) pre ->
        is_MessageSent ev = true ->
        Forall (fun a => Key a <> "message"%string) (Attributes ev) ->
        txToMessageState tx = Returned ([], Some (mkTxError (Hash tx) []))).
Proof.
  intros Hcode. unfold noble.txToMessageState. rewrite Hcode. simpl. split.
  - intros Hall. rewrite <- (app_nil_r (Events (TxResult tx))).
    by rewrite event_loop_other_events.
  - intros pre ev post -> Hpre Hev Hattrs. rewrite event_loop_other_events by done.
    simpl. unfold is_MessageSent in Hev. rewrite Hev.
    by rewrite attr_loop_no_message.
Qed.

End noble_more.

(* ===================================================================== *)
(** * The further properties on concrete inputs                            *)
(* ===================================================================== *)

Section more_runs.
Import golang types noble ethereum cmd fixtures.

Lemma totalChunksNeeded_counts_queries_witness :
  (exists effs,
     (forall fuel, 3 <= fuel ->
        getAndConsumeHistory fixtures.EvmLogToMessageState no_history fuel 750 1000
        = Some effs)
     /\ Z.of_nat (length (queries effs)) = 3%Z)
  /\ totalChunksNeeded 1000 1000 = 1%Z
  /\ getAndConsumeHistory fixtures.EvmLogToMessageState no_history 1 1000 1000 = Some [].
Proof.
  split.
  - destruct (totalChunksNeeded_counts_queries fixtures.EvmLogToMessageState no_history
                750 1000) as [Hcount _]; [lia|lia|].
    destruct Hcount as (effs & Hrun & Hlen); [lia|].
    exists effs. split; [exact Hrun|]. rewrite Hlen. by vm_compute.
  - destruct (totalChunksNeeded_counts_queries fixtures.EvmLogToMessageState no_history
                1000 1000) as [_ Hsame]; [lia|lia|].
    destruct (Hsame eq_refl) as [Htotal Hrun]. split; [exact Htotal|apply Hrun].
Defined.

Lemma backfill_chunks_share_boundary_block_witness :
  ToBlock (mkFilterQuery 750 850) = FromBlock (mkFilterQuery 850 950)
  /\ FromBlock (mkFilterQuery 850 950) = (FromBlock (mkFilterQuery 750 850) + 100)%Z.
Proof.
  apply (backfill_chunks_share_boundary_block fixtures.EvmLogToMessageState history_at_750
           3 750 1000 backfill_750_1000 0); [lia|lia|by vm_compute..].
Defined.

Lemma backfill_sends_each_history_witness :
  sent backfill_750_1000
  = mjoin ((fun q => sent (consumeHistroy fixtures.EvmLogToMessageState (history_at_750 q)))
             <$> queries backfill_750_1000).
Proof.
  apply (backfill_sends_each_history fixtures.EvmLogToMessageState history_at_750
           3 (totalChunksNeeded 750 1000) 1 750 1000).
  by vm_compute.
Defined.

Lemma backfill_loop_wraps_forever_witness :
  history_loop fixtures.EvmLogToMessageState no_history 5 1 1 (2 ^ 64 - 50) (2 ^ 64 - 1)
  = None.
Proof.
  apply backfill_loop_wraps_forever; [lia|by vm_compute].
Defined.

Lemma flush_covers_since_last_flush_witness :
  exists effs e',
    (forall fuel, 11 <= fuel ->
       flush fixtures.EvmLogToMessageState no_history fuel flushed_at_900 1000
       = Some (effs, e'))
    /\ lastFlushedBlock e' = 1000%Z
    /\ (forall b, covered (queries effs) b <-> (850 <= b <= 1000)%Z).
Proof.
  destruct (flush_covers_since_last_flush fixtures.EvmLogToMessageState no_history
              flushed_at_900 1000) as (effs & e' & Hrun & Hlast & _ & Hcov);
    [simpl; lia..|].
  exists effs, e'. split; [exact Hrun|]. split; [exact Hlast|exact Hcov].
Defined.

Lemma first_flush_scans_lookback_window_witness :
  exists effs,
    (forall fuel, 11 <= fuel ->
       flush fixtures.EvmLogToMessageState no_history fuel never_flushed 1000
       = Some (effs, mkListener 0 50 1000))
    /\ (forall b, covered (queries effs) b <-> (0 < 50 /\ 950 <= b <= 1000)%Z).
Proof.
  destruct (first_flush_scans_lookback_window fixtures.EvmLogToMessageState no_history
              never_flushed 1000) as (effs & Hrun & Hcov & _); [done|simpl; lia..|].
  exists effs. split; [exact Hrun|exact Hcov].
Defined.

Lemma restart_backfills_from_last_flush_witness :
  (exists effs,
     (forall fuel, 11 <= fuel ->
        backfill fixtures.EvmLogToMessageState no_history fuel (restart flushed_at_900) 1000
        = Some effs)
     /\ (forall b, covered (queries effs) b <-> (850 < 1000 /\ 850 <= b <= 1000)%Z))
  /\ (exists effs,
        (forall fuel, 11 <= fuel ->
           backfill fixtures.EvmLogToMessageState no_history fuel (restart never_flushed) 1000
           = Some effs)
        /\ (forall b, covered (queries effs) b <-> (0 < 50 /\ 950 <= b <= 1000)%Z)).
Proof.
  split.
  - destruct (restart_backfills_from_last_flush fixtures.EvmLogToMessageState no_history
                flushed_at_900 1000) as [Hflushed _]; [simpl; lia..|].
    apply Hflushed; simpl; lia.
  - destruct (restart_backfills_from_last_flush fixtures.EvmLogToMessageState no_history
                never_flushed 1000) as [_ Hnever]; [simpl; lia..|].
    apply Hnever; [done|simpl; lia].
Defined.

Lemma consumeStream_groups_witness :
  sent (consumeStream fixtures.EvmLogToMessageState
          ((StreamLog <$> [log_aa_1; log_aa_2]) ++ [Default]) None)
  = [mkTxState (SourceTxHash msg_aa_1) [msg_aa_1; msg_aa_2]].
Proof.
  apply (consumeStream_groups fixtures.EvmLogToMessageState log_aa_1 [log_aa_2]
           msg_aa_1 [msg_aa_2]); [by vm_compute| |by repeat constructor].
  by repeat constructor.
Defined.

Lemma consumeStream_stop_drops_pending_witness :
  sent (consumeStream fixtures.EvmLogToMessageState
          ((StreamLog <$> [log_aa_1; log_aa_2]) ++ [CtxDone; Default]) None)
  = [].
Proof.
  apply (consumeStream_stop_drops_pending fixtures.EvmLogToMessageState log_aa_1 [log_aa_2]
           msg_aa_1 [msg_aa_2] CtxDone [Default]);
    [by vm_compute| |by repeat constructor|done].
  by repeat constructor.
Defined.

Lemma consumeStream_delivers_every_message_witness :
  mjoin (Msgs <$> sent (consumeStream fixtures.EvmLogToMessageState
                          ([StreamLog log_aa_1; Default; StreamLog log_aa_bad;
                            StreamLog log_aa_2; StreamLog log_bb] ++ [Default]) None))
  = omap fixtures.EvmLogToMessageState [log_aa_1; log_aa_bad; log_aa_2; log_bb].
Proof.
  apply (consumeStream_delivers_every_message fixtures.EvmLogToMessageState
           [StreamLog log_aa_1; Default; StreamLog log_aa_bad; StreamLog log_aa_2;
            StreamLog log_bb]).
  by repeat constructor.
Defined.

Lemma run_pass_status_transitions_witness :
  Forall2 (fun m m' =>
             pass_transition (filter_met cfg_4_to_0 registered_0 m) (status m) (status m'))
    [msg_aa_1; msg_to_7]
    (tx_msgs (run_pass cfg_4_to_0 registered_0 map_order
                (mkTxState "0xaa" [msg_aa_1; msg_to_7]) 0 [])).
Proof.
  exact (run_pass_status_transitions cfg_4_to_0 registered_0 map_order map_order_perm
           (mkTxState "0xaa" [msg_aa_1; msg_to_7]) 0 []).
Defined.

Lemma run_pass_all_settled_witness :
  run_pass cfg_4_to_0 registered_0 map_order (mkTxState "0xaa" [msg_aa_attested]) 1 []
  = mkPass [msg_aa_attested] ∅ false 1 [].
Proof.
  apply (run_pass_all_settled cfg_4_to_0 registered_0 map_order map_order_perm
           (mkTxState "0xaa" [msg_aa_attested]) 1 []).
  repeat constructor; (by vm_compute) || discriminate.
Defined.

Lemma stored_messages_persist_witness :
  exists tx0 tx',
    State (run_scenario6 1) !! "0xaa" = Some tx0
    /\ State (StartProcessor cfg_4_to_0 registered_0 map_order 3 (run_scenario6 1)) !! "0xaa"
       = Some tx'
    /\ TxHash tx' = TxHash tx0
    /\ Forall2 same_message (Msgs tx0) (Msgs tx').
Proof.
  destruct (State (run_scenario6 1) !! "0xaa") as [tx0|] eqn:Hload;
    [|by vm_compute in Hload].
  destruct (stored_messages_persist cfg_4_to_0 registered_0 map_order map_order_perm 3
              (run_scenario6 1) "0xaa" tx0 Hload) as (tx' & Hfinal & Hhash & Hsame).
  by exists tx0, tx'.
Defined.

Lemma one_broadcast_per_domain_per_pass_witness :
  exists domains,
    broadcast_domains
      (pass_trace (run_pass cfg_4_to_0 registered_0 map_order
                     (mkTxState "0xaa" [msg_aa_1; msg_aa_2]) 0 []))
    = broadcast_domains [] ++ domains
    /\ NoDup domains
    /\ Forall (fun d => is_Some (registered_0 !! d)) domains.
Proof.
  exact (one_broadcast_per_domain_per_pass cfg_4_to_0 registered_0 map_order map_order_perm
           (mkTxState "0xaa" [msg_aa_1; msg_aa_2]) 0 []).
Defined.

Lemma single_message_pass_witness :
  status <$> tx_msgs (run_pass cfg_4_to_0 registered_0 map_order
                        (mkTxState "0xaa" [msg_aa_1]) 0 []) = [Attested]
  /\ requeue (run_pass cfg_4_to_0 registered_0 map_order (mkTxState "0xaa" [msg_aa_1]) 0 [])
     = true
  /\ status <$> tx_msgs (run_pass cfg_4_to_0 registered_0 map_order
                           (mkTxState "0xaa" [msg_aa_1]) 1 []) = [Complete]
  /\ requeue (run_pass cfg_4_to_0 registered_0 map_order (mkTxState "0xaa" [msg_aa_1]) 1 [])
     = false.
Proof.
  assert (filter_met cfg_4_to_0 registered_0 msg_aa_1 = false) as Hmet by (by vm_compute).
  destruct (single_message_pass (ext := always_complete) cfg_4_to_0 registered_0 map_order
              map_order_perm "0xaa" msg_aa_1 0 [] (mkAttestationResponse "0xAB" "complete")
              0 flaky_chain (Some "rpc error"%string) 1
              Hmet (or_introl eq_refl) eq_refl eq_refl eq_refl eq_refl)
    as (_ & _ & Hfail & Hrq).
  destruct (single_message_pass (ext := always_complete) cfg_4_to_0 registered_0 map_order
              map_order_perm "0xaa" msg_aa_1 1 [] (mkAttestationResponse "0xAB" "complete")
              1 flaky_chain None 2
              Hmet (or_introl eq_refl) eq_refl eq_refl eq_refl eq_refl)
    as (_ & _ & Hok & Hrq').
  rewrite Hfail, Hok. by repeat split.
Defined.

Lemma unknown_attestation_status_is_not_retried_witness :
  msg_step (ext := unknown_status_service) cfg_4_to_0 registered_0 pass_one_created 0
  = mkPass [msg_aa_1] ∅ false 0
      [EvCheckAttestation (IrisLookupId msg_aa_1) "0xaa" 4%N 0%N].
Proof.
  assert (filter_met cfg_4_to_0 registered_0 msg_aa_1 = false) as Hmet by (by vm_compute).
  exact (unknown_attestation_status_is_not_retried (ext := unknown_status_service)
           cfg_4_to_0 registered_0 pass_one_created 0 msg_aa_1
           (mkAttestationResponse "" "failed") 0
           eq_refl Hmet (or_introl eq_refl) eq_refl
           ltac:(discriminate) ltac:(discriminate)).
Defined.

Lemma Start_registers_each_domain_once_witness :
  exists reg,
    register_chains Domain chain_of initialize_seeds domain_of two_chains ∅ 0 []
    = Serving reg 2 [flaky_chain; noble_chain]
    /\ initialised_in_turn initialize_seeds [flaky_chain; noble_chain] 0 2
    /\ NoDup (domain_of <$> [flaky_chain; noble_chain])
    /\ (forall d c, reg !! d = Some c <-> c ∈ [flaky_chain; noble_chain] /\ domain_of c = d).
Proof.
  eexists. split; [reflexivity|].
  destruct (Start_registers_each_domain_once Domain chain_of initialize_seeds domain_of
              two_chains 0 _ 2 [flaky_chain; noble_chain] eq_refl)
    as (_ & Hinit & Hnd & Hreg).
  split; [exact Hinit|]. split; [exact Hnd|exact Hreg].
Defined.

(** When the initialisation of the second chain fails, start-up exits with
    code 1 after the listener of the first chain was started. *)
Example Start_exits_on_failed_initialisation :
  register_chains Domain chain_of initialize_fails_noble domain_of two_chains ∅ 0 []
  = Exit 1 2 [flaky_chain].
Proof. reflexivity. Qed.

(** The domain value 4294967300 is 4 modulo 2^32: the handler takes it for
    domain 4. *)
Lemma getTxByHash_stored_witness :
  getTxByHash {[ "0xaa"%string := mkTxState "0xaa" [msg_aa_1] ]} "0xaa" "4294967300"
  = ([mkJSON StatusOK (BodyMsgs [msg_aa_1])], Returned tt).
Proof.
  exact (getTxByHash_stored {[ "0xaa"%string := mkTxState "0xaa" [msg_aa_1] ]} "0xaa"
           "4294967300" (mkTxState "0xaa" [msg_aa_1]) msg_aa_1 [] 4294967300 false
           eq_refl eq_refl eq_refl).
Defined.

Lemma root_getTxByHash_absent_witness :
  root.getTxByHash Mint Forward LookupKey2 ∅ "0xabc" "0" EmptyString
  = [mkJSON StatusNotFound (BodyMessage "message not found")].
Proof.
  exact (root_getTxByHash_absent Mint Forward LookupKey2 ∅ "0xabc" "0" EmptyString
           eq_refl eq_refl).
Defined.

Lemma txToMessageState_header_fields_witness :
  exists l,
    run_txToMessageState tx_one_message = Returned (l, None)
    /\ Forall (fun ms =>
                 exists msg, fixtures.Parse (MsgSentBytes ms) = Some msg
                             /\ SourceDomain ms = msg_SourceDomain msg
                             /\ DestDomain ms = msg_DestinationDomain msg
                             /\ Nonce ms = msg_Nonce msg
                             /\ DestinationCaller ms = msg_DestinationCaller msg
                             /\ Attestation ms = EmptyString
                             /\ CreatedAt ms = 1700000000%Z /\ Updated ms = 1700000000%Z) l.
Proof.
  destruct (run_txToMessageState tx_one_message) as [[l e]|] eqn:Hrun;
    [|by vm_compute in Hrun].
  assert (e = None) as -> by (vm_compute in Hrun; by injection Hrun as _ <-).
  exists l. split; [done|].
  exact (proj1 (txToMessageState_header_fields DecodeString Keccak256 fixtures.Parse
                  HashString 1700000000%Z tx_one_message l None Hrun)).
Defined.

Lemma txToMessageState_without_message_witness :
  run_txToMessageState tx_other_event = Returned ([], None)
  /\ run_txToMessageState tx_no_message_attribute
     = Returned ([], Some (mkTxError tx_hash [])).
Proof.
  split.
  - apply (proj1 (txToMessageState_without_message DecodeString Keccak256 fixtures.Parse
                    HashString 1700000000%Z tx_other_event eq_refl)).
    by repeat constructor.
  - apply (proj2 (txToMessageState_without_message DecodeString Keccak256 fixtures.Parse
                    HashString 1700000000%Z tx_no_message_attribute eq_refl)
             [mkEvent "transfer" []] (MessageSent [mkEventAttribute "amount" "1"]) []);
      [done|by repeat constructor|done|by repeat constructor].
Defined.

End more_runs.

